(** * Shapeland: a shallow embedding of the theme-park stepping engine

    The development follows the Python sources [Code/attraction.py],
    [Code/activity.py], [Code/agent.py] and [Code/park.py].

    Conventions of the embedding:
    - a Python [int] is a [Z]; agent ids, which index the agent registry,
      are [nat];
    - a Python [float] is a [Q]: arithmetic is read over the exact
      rationals, comparisons are the boolean comparisons of [Q];
    - a Python exception is an error result ([Raise e]); a loop that does
      not return within the given fuel yields [Raise OutOfFuel];
    - an insertion-ordered [dict] is an association list with unique keys
      ([dict K V]); the agent registry, whose keys are [0 .. n-1] in
      order, is a list; a history [dict] keyed by the minute is a [gmap];
    - the pseudo-random generators are an interface ([RandomSource]); the
      state of the two process-global generators is threaded through the
      monad [M];
    - the free-text agent log, the plots and the console output are left
      out: nothing in the engine reads them. *)

From Stdlib Require Import ZArith QArith Qround Qminmax Lqa Sorted.
From stdpp Require Import base option list strings gmap.

Local Open Scope Z_scope.

(** ** Python values and exceptions *)

Inductive PyError : Type :=
  | KeyError | TypeError | ValueError | IndexError | ZeroDivisionError
  | UnboundLocalError | AssertionError | OutOfFuel.

Inductive Result (A : Type) : Type :=
  | Ok (a : A)
  | Raise (e : PyError).
Arguments Ok {A} a.
Arguments Raise {A} e.

#[global] Instance Result_ret : MRet Result := fun _ a => Ok a.
#[global] Instance Result_bind : MBind Result := fun _ _ f r =>
  match r with Ok a => f a | Raise e => Raise e end.
#[global] Instance Result_fmap : FMap Result := fun _ _ f r =>
  match r with Ok a => Ok (f a) | Raise e => Raise e end.

Definition is_Ok {A} (r : Result A) : bool :=
  match r with Ok _ => true | Raise _ => false end.

(** [o] or the exception [e] when the lookup failed. *)
Definition or_raise {A} (e : PyError) (o : option A) : Result A :=
  match o with Some a => Ok a | None => Raise e end.

(** Comparisons of numbers, as booleans. *)
Definition Qlt_bool (a b : Q) : bool := negb (Qle_bool b a).
Definition Qmax_py (a b : Q) : Q := if Qlt_bool a b then b else a.

(** [int(x)] of a float: truncation towards zero. *)
Definition py_int (x : Q) : Z := Z.quot (Qnum x) (Zpos (Qden x)).

(** [a // b] on floats. *)
Definition py_floordiv (a b : Q) : Result Q :=
  if Qeq_bool b 0 then Raise ZeroDivisionError
  else Ok (inject_Z (Qfloor (a / b))).

(** [a / b] on numbers. *)
Definition py_truediv (a b : Q) : Result Q :=
  if Qeq_bool b 0 then Raise ZeroDivisionError else Ok (a / b)%Q.

Definition len {A} (l : list A) : Z := Z.of_nat (length l).

(** The slices [l[:n]] and [l[n:]]; a negative [n] counts from the end. *)
Definition slice_stop {A} (n : Z) (l : list A) : nat :=
  if n <? 0 then Z.to_nat (len l + n) else Z.to_nat n.
Definition slice_to {A} (n : Z) (l : list A) : list A := take (slice_stop n l) l.
Definition slice_from {A} (n : Z) (l : list A) : list A := drop (slice_stop n l) l.

(** [l.index(x)], [l.remove(x)] and [del l[i]]. *)
Fixpoint list_index `{EqDecision A} (x : A) (l : list A) : option nat :=
  match l with
  | [] => None
  | y :: l' => if decide (y = x) then Some O else S <$> list_index x l'
  end.

Definition list_remove `{EqDecision A} (x : A) (l : list A) : Result (list A) :=
  match list_index x l with
  | Some i => Ok (delete i l)
  | None => Raise ValueError
  end.

Definition list_del {A} (i : nat) (l : list A) : Result (list A) :=
  if decide (i < length l)%nat then Ok (delete i l) else Raise IndexError.

Definition sumZ (l : list Z) : Z := foldr Z.add 0 l.

(** ** Insertion-ordered dictionaries *)

Definition dict (K V : Type) : Type := list (K * V).

Fixpoint dict_get `{EqDecision K} {V} (k : K) (d : dict K V) : option V :=
  match d with
  | [] => None
  | (k', v) :: d' => if decide (k' = k) then Some v else dict_get k d'
  end.

(** [d[k] = v]: an existing key keeps its place, a new key goes last. *)
Fixpoint dict_set `{EqDecision K} {V} (k : K) (v : V) (d : dict K V) : dict K V :=
  match d with
  | [] => [(k, v)]
  | (k', v') :: d' =>
      if decide (k' = k) then (k, v) :: d' else (k', v') :: dict_set k v d'
  end.

Definition dict_keys {K V} (d : dict K V) : list K := d.*1.
Definition dict_values {K V} (d : dict K V) : list V := d.*2.
Definition dict_item `{EqDecision K} {V} (k : K) (d : dict K V) : Result V :=
  or_raise KeyError (dict_get k d).

(** [k in d], where [k] may be [None]. *)
Definition dict_mem `{EqDecision K} {V} (k : option K) (d : dict K V) : bool :=
  match k with
  | Some k => bool_decide (is_Some (dict_get k d))
  | None => false
  end.

(** ** Attractions ([Code/attraction.py]) *)

Module Attraction.

Record characteristics : Type := {
  c_name : string;
  c_run_time : Z;
  c_hourly_throughput : Z;
  c_popularity : Z;
  c_child_eligible : bool;
  c_adult_eligible : bool;
  c_expedited_queue : bool;
  c_expedited_queue_ratio : Q
}.

Record history : Type := {
  queue_length : gmap Z Z;
  queue_wait_time : gmap Z Q;
  exp_queue_length : gmap Z Z;
  exp_queue_wait_time : gmap Z Z
}.

Record t : Type := {
  name : string;
  run_time : Z;
  capacity : Q;
  popularity : Z;
  child_eligible : bool;
  adult_eligible : bool;
  run_time_remaining : Z;
  expedited_queue : bool;
  exp_queue_ratio : Q;
  exp_queue_passes : Q;
  (* state *)
  agents_in_attraction : list nat;
  queue : list nat;
  exp_queue : list nat;
  exp_queue_passes_distributed : Z;
  hist : history
}.

Definition set_run_time_remaining (v : Z) (a : t) : t :=
  {| name := name a; run_time := run_time a; capacity := capacity a;
     popularity := popularity a; child_eligible := child_eligible a;
     adult_eligible := adult_eligible a; run_time_remaining := v;
     expedited_queue := expedited_queue a; exp_queue_ratio := exp_queue_ratio a;
     exp_queue_passes := exp_queue_passes a;
     agents_in_attraction := agents_in_attraction a; queue := queue a;
     exp_queue := exp_queue a;
     exp_queue_passes_distributed := exp_queue_passes_distributed a;
     hist := hist a |}.

Definition set_exp_queue_passes (v : Q) (a : t) : t :=
  {| name := name a; run_time := run_time a; capacity := capacity a;
     popularity := popularity a; child_eligible := child_eligible a;
     adult_eligible := adult_eligible a; run_time_remaining := run_time_remaining a;
     expedited_queue := expedited_queue a; exp_queue_ratio := exp_queue_ratio a;
     exp_queue_passes := v;
     agents_in_attraction := agents_in_attraction a; queue := queue a;
     exp_queue := exp_queue a;
     exp_queue_passes_distributed := exp_queue_passes_distributed a;
     hist := hist a |}.

Definition set_agents_in_attraction (v : list nat) (a : t) : t :=
  {| name := name a; run_time := run_time a; capacity := capacity a;
     popularity := popularity a; child_eligible := child_eligible a;
     adult_eligible := adult_eligible a; run_time_remaining := run_time_remaining a;
     expedited_queue := expedited_queue a; exp_queue_ratio := exp_queue_ratio a;
     exp_queue_passes := exp_queue_passes a;
     agents_in_attraction := v; queue := queue a;
     exp_queue := exp_queue a;
     exp_queue_passes_distributed := exp_queue_passes_distributed a;
     hist := hist a |}.

Definition set_queue (v : list nat) (a : t) : t :=
  {| name := name a; run_time := run_time a; capacity := capacity a;
     popularity := popularity a; child_eligible := child_eligible a;
     adult_eligible := adult_eligible a; run_time_remaining := run_time_remaining a;
     expedited_queue := expedited_queue a; exp_queue_ratio := exp_queue_ratio a;
     exp_queue_passes := exp_queue_passes a;
     agents_in_attraction := agents_in_attraction a; queue := v;
     exp_queue := exp_queue a;
     exp_queue_passes_distributed := exp_queue_passes_distributed a;
     hist := hist a |}.

Definition set_exp_queue (v : list nat) (a : t) : t :=
  {| name := name a; run_time := run_time a; capacity := capacity a;
     popularity := popularity a; child_eligible := child_eligible a;
     adult_eligible := adult_eligible a; run_time_remaining := run_time_remaining a;
     expedited_queue := expedited_queue a; exp_queue_ratio := exp_queue_ratio a;
     exp_queue_passes := exp_queue_passes a;
     agents_in_attraction := agents_in_attraction a; queue := queue a;
     exp_queue := v;
     exp_queue_passes_distributed := exp_queue_passes_distributed a;
     hist := hist a |}.

Definition set_exp_queue_passes_distributed (v : Z) (a : t) : t :=
  {| name := name a; run_time := run_time a; capacity := capacity a;
     popularity := popularity a; child_eligible := child_eligible a;
     adult_eligible := adult_eligible a; run_time_remaining := run_time_remaining a;
     expedited_queue := expedited_queue a; exp_queue_ratio := exp_queue_ratio a;
     exp_queue_passes := exp_queue_passes a;
     agents_in_attraction := agents_in_attraction a; queue := queue a;
     exp_queue := exp_queue a;
     exp_queue_passes_distributed := v;
     hist := hist a |}.

Definition set_hist (v : history) (a : t) : t :=
  {| name := name a; run_time := run_time a; capacity := capacity a;
     popularity := popularity a; child_eligible := child_eligible a;
     adult_eligible := adult_eligible a; run_time_remaining := run_time_remaining a;
     expedited_queue := expedited_queue a; exp_queue_ratio := exp_queue_ratio a;
     exp_queue_passes := exp_queue_passes a;
     agents_in_attraction := agents_in_attraction a; queue := queue a;
     exp_queue := exp_queue a;
     exp_queue_passes_distributed := exp_queue_passes_distributed a;
     hist := v |}.

(** [__init__] and [initialize_attraction]. *)
Definition initialize_attraction (c : characteristics) : t :=
  {| name := c_name c;
     run_time := c_run_time c;
     capacity := (inject_Z (c_hourly_throughput c) * (inject_Z (c_run_time c) / 60))%Q;
     popularity := c_popularity c;
     child_eligible := c_child_eligible c;
     adult_eligible := c_adult_eligible c;
     run_time_remaining := 0;
     expedited_queue := c_expedited_queue c;
     exp_queue_ratio := c_expedited_queue_ratio c;
     exp_queue_passes := 0;
     agents_in_attraction := [];
     queue := [];
     exp_queue := [];
     exp_queue_passes_distributed := 0;
     hist := {| queue_length := ∅; queue_wait_time := ∅;
                exp_queue_length := ∅; exp_queue_wait_time := ∅ |} |}.

Definition init (c : characteristics) : Result t :=
  if bool_decide (c_popularity c < 1 ∨ c_popularity c > 10)
  then Raise AssertionError
  else Ok (initialize_attraction c).

(** One pass of the body of the [while] loops of [get_wait_time] and
    [get_exp_wait_time]: the two bodies are the same text. *)
Definition drain_cycle (cap : Q) (exp_seats : Z) (standby_seats : Q)
    (queue_len : Q) (exp_queue_len : Z) : Q * Z :=
  if exp_seats <? exp_queue_len then
    (if Qlt_bool standby_seats queue_len
     then (queue_len - standby_seats)%Q else 0%Q,
     exp_queue_len - exp_seats)
  else
    ((queue_len - (cap - inject_Z exp_queue_len))%Q, 0).

(** [while queue_len >= self.capacity: ...; runs += 1]. *)
Fixpoint wait_loop (fuel : nat) (cap : Q) (exp_seats : Z) (standby_seats : Q)
    (queue_len : Q) (exp_queue_len : Z) (runs : Z) : Result Z :=
  if Qle_bool cap queue_len then
    match fuel with
    | O => Raise OutOfFuel
    | S fuel' =>
        let '(queue_len', exp_queue_len') :=
          drain_cycle cap exp_seats standby_seats queue_len exp_queue_len in
        wait_loop fuel' cap exp_seats standby_seats queue_len' exp_queue_len' (runs + 1)
    end
  else Ok runs.

(** [while exp_queue_len >= self.capacity: ...; runs += 1]. *)
Fixpoint exp_wait_loop (fuel : nat) (cap : Q) (exp_seats : Z) (standby_seats : Q)
    (queue_len : Q) (exp_queue_len : Z) (runs : Z) : Result Z :=
  if Qle_bool cap (inject_Z exp_queue_len) then
    match fuel with
    | O => Raise OutOfFuel
    | S fuel' =>
        let '(queue_len', exp_queue_len') :=
          drain_cycle cap exp_seats standby_seats queue_len exp_queue_len in
        exp_wait_loop fuel' cap exp_seats standby_seats queue_len' exp_queue_len' (runs + 1)
    end
  else Ok runs.

Definition get_wait_time (fuel : nat) (a : t) : Result Q :=
  if expedited_queue a then
    let queue_len := inject_Z (len (queue a)) in
    let exp_queue_len := len (exp_queue a) in
    let exp_seats := py_int (capacity a * exp_queue_ratio a) in
    let standby_seats := (capacity a - inject_Z exp_seats)%Q in
    runs ← wait_loop fuel (capacity a) exp_seats standby_seats queue_len exp_queue_len 0;
    Ok (inject_Z (runs * run_time a + run_time_remaining a))
  else
    q ← py_floordiv (inject_Z (len (queue a))) (capacity a);
    Ok (q * inject_Z (run_time a) + inject_Z (run_time_remaining a))%Q.

Definition get_exp_wait_time (fuel : nat) (a : t) : Result Z :=
  if expedited_queue a then
    let queue_len := inject_Z (len (queue a)) in
    let exp_queue_len := len (exp_queue a) in
    let exp_seats := py_int (capacity a * exp_queue_ratio a) in
    let standby_seats := (capacity a - inject_Z exp_seats)%Q in
    runs ← exp_wait_loop fuel (capacity a) exp_seats standby_seats queue_len exp_queue_len 0;
    Ok (runs * run_time a + run_time_remaining a)
  else Ok 0.

Definition add_to_queue (agent_id : nat) (a : t) : t :=
  set_queue (queue a ++ [agent_id]) a.

Definition add_to_exp_queue (fuel : nat) (agent_id : nat) (a : t) : Result (t * Z) :=
  let a := set_exp_queue (exp_queue a ++ [agent_id]) a in
  expedited_wait_time ← get_exp_wait_time fuel a;
  Ok (a, expedited_wait_time).

Definition remove_pass (a : t) : t :=
  let a := set_exp_queue_passes (exp_queue_passes a - 1)%Q a in
  set_exp_queue_passes_distributed (exp_queue_passes_distributed a + 1) a.

Definition return_pass (agent_id : nat) (a : t) : Result t :=
  let a := set_exp_queue_passes (exp_queue_passes a + 1)%Q a in
  let a := set_exp_queue_passes_distributed (exp_queue_passes_distributed a - 1) a in
  q ← list_remove agent_id (exp_queue a);
  Ok (set_exp_queue q a).

(** The first part of [step]: the expedited-pass budget. *)
Definition refresh_passes (time : Z) (park_close : option Z) (a : t) : Result t :=
  if expedited_queue a then
    park_close ← or_raise TypeError park_close;
    if time <? park_close then
      let remaining_operating_hours := (park_close - time) `div` 60 in
      let passed_operating_hours := time `div` 60 in
      per_hour ← py_truediv 60 (inject_Z (run_time a));
      let rate := (capacity a * per_hour * exp_queue_ratio a)%Q in
      Ok (set_exp_queue_passes
            (rate * inject_Z remaining_operating_hours
             - Qmax_py (inject_Z (exp_queue_passes_distributed a)
                        - rate * inject_Z passed_operating_hours) 0)%Q a)
    else Ok (set_exp_queue_passes 0 a)
  else Ok a.

(** The seats given to the expedited queue and to the standby queue when
    a run completes. *)
Definition max_exp_queue_agents (a : t) : Z :=
  py_int (capacity a * exp_queue_ratio a).

Definition max_queue_agents (a : t) : Z :=
  if len (exp_queue a) <? max_exp_queue_agents a
  then py_int (capacity a - inject_Z (len (exp_queue a)))
  else py_int (capacity a - inject_Z (max_exp_queue_agents a)).

Definition expedited_agents_to_load (a : t) : list nat :=
  slice_to (max_exp_queue_agents a) (exp_queue a).

Definition agents_to_load (a : t) : list nat :=
  slice_to (max_queue_agents a) (queue a).

(** The second part of [step]: unloading and loading. The result is the
    attraction with [(exiting_agents, loaded_agents)]. *)
Definition run_cycle (a : t) : t * (list nat * list nat) :=
  if run_time_remaining a =? 0 then
    let exiting_agents := agents_in_attraction a in
    let loaded := expedited_agents_to_load a ++ agents_to_load a in
    let a' :=
      set_queue (slice_from (max_queue_agents a) (queue a))
        (set_exp_queue (slice_from (max_exp_queue_agents a) (exp_queue a))
           (set_agents_in_attraction loaded
              (set_run_time_remaining (run_time a) a))) in
    (a', (exiting_agents, loaded))
  else (a, ([], [])).

Definition step (time : Z) (park_close : option Z) (a : t)
    : Result (t * (list nat * list nat)) :=
  a ← refresh_passes time park_close a;
  Ok (run_cycle a).

Definition pass_time (a : t) : t :=
  set_run_time_remaining (run_time_remaining a - 1) a.

Definition store_history (fuel : nat) (time : Z) (a : t) : Result t :=
  let h := hist a in
  w ← get_wait_time fuel a;
  ew ← get_exp_wait_time fuel a;
  Ok (set_hist
        {| queue_length := <[time := len (queue a)]> (queue_length h);
           queue_wait_time := <[time := w]> (queue_wait_time h);
           exp_queue_length := <[time := len (exp_queue a)]> (exp_queue_length h);
           exp_queue_wait_time := <[time := ew]> (exp_queue_wait_time h) |} a).

End Attraction.

(** ** Pseudo-random generators

    The engine draws from three generators: Python's global [random]
    module, numpy's global generator, and fresh numpy generators built by
    [np.random.default_rng(seed)]. A fresh generator is a function of its
    seed; the two global generators carry a state. *)

Class RandomSource : Type := {
  (** state of Python's [random] module *)
  py_state : Type;
  (** [random.seed(n)] *)
  py_seed : Z → py_state;
  (** [random.random()] *)
  py_random : py_state → Q * py_state;
  (** the raw draw from which [random.choice] takes its index *)
  py_randbits : py_state → nat * py_state;
  (** state of numpy's global generator; nothing in the engine seeds it *)
  np_state : Type;
  (** a standard normal sample of numpy's global generator *)
  np_global_normal : np_state → Q * np_state;
  (** the first standard normal sample of [default_rng(seed)] *)
  np_seeded_normal : Z → Q;
  (** [default_rng(seed).poisson(lam, size=60)] *)
  np_seeded_poisson : Z → Q → list Z
}.

Section Monad.
Context `{RandomSource}.

Record rand_state : Type := { py : py_state; np : np_state }.

(** Computations that may raise and that use the global generators. *)
Definition M (A : Type) : Type := rand_state → Result (A * rand_state).

#[export] Instance M_ret : MRet M := fun _ a s => Ok (a, s).
#[export] Instance M_bind : MBind M := fun _ _ f m s =>
  match m s with Ok (a, s') => f a s' | Raise e => Raise e end.

Definition lift {A} (r : Result A) : M A := fun s =>
  match r with Ok a => Ok (a, s) | Raise e => Raise e end.

Definition raise {A} (e : PyError) : M A := fun _ => Raise e.

(** [np.random.default_rng(seed)]: a negative seed is refused. *)
Definition default_rng (seed : Z) : Result Z :=
  if seed <? 0 then Raise ValueError else Ok seed.

(** [rng.normal(loc, scale, 1)[0]] of a fresh generator. *)
Definition rng_normal (rng : Z) (loc scale : Q) : Result Q :=
  if Qlt_bool scale 0 then Raise ValueError
  else Ok (loc + scale * np_seeded_normal rng)%Q.

(** [np.random.normal(loc, scale, 1)[0]] of the global generator. *)
Definition np_random_normal (loc scale : Q) : M Q := fun s =>
  if Qlt_bool scale 0 then Raise ValueError
  else
    let '(z, n) := np_global_normal (np s) in
    Ok ((loc + scale * z)%Q, {| py := py s; np := n |}).

(** [list(rng.poisson(lam=lam, size=60))] of a fresh generator. *)
Definition rng_poisson (rng : Z) (lam : Q) : Result (list Z) :=
  if Qlt_bool lam 0 then Raise ValueError
  else Ok (np_seeded_poisson rng lam).

(** Monadic iteration over a list, left to right. *)
Fixpoint foldM {A B} (f : B → A → M B) (b : B) (l : list A) : M B :=
  match l with
  | [] => mret b
  | x :: l' => b' ← f b x; foldM f b' l'
  end.

End Monad.

(** Python's [random] module. *)
Module Random.
Section WithRandom.
Context `{RandomSource}.

(** [random.seed(n)] *)
Definition seed (n : Z) : M unit := fun s =>
  Ok (tt, {| py := py_seed n; np := np s |}).

(** [random.uniform(a, b)], that is [a + (b-a) * random()] *)
Definition uniform (a b : Q) : M Q := fun s =>
  let '(r, p) := py_random (py s) in
  Ok ((a + (b - a) * r)%Q, {| py := p; np := np s |}).

(** [random.choice(l)] *)
Definition choice {A} (l : list A) : M A := fun s =>
  match l with
  | [] => Raise IndexError
  | x :: _ =>
      let '(r, p) := py_randbits (py s) in
      Ok (nth (r mod length l) l x, {| py := p; np := np s |})
  end.

End WithRandom.
End Random.

Fixpoint foldR {A B} (f : B → A → Result B) (b : B) (l : list A) : Result B :=
  match l with
  | [] => Ok b
  | x :: l' => b' ← f b x; foldR f b' l'
  end.

Fixpoint mapR {A B} (f : A → Result B) (l : list A) : Result (list B) :=
  match l with
  | [] => Ok []
  | x :: l' => y ← f x; ys ← mapR f l'; Ok (y :: ys)
  end.

Fixpoint filterR {A} (f : A → Result bool) (l : list A) : Result (list A) :=
  match l with
  | [] => Ok []
  | x :: l' => b ← f x; ys ← filterR f l'; Ok (if b : bool then x :: ys else ys)
  end.

(** ** Activities ([Code/activity.py]) *)

Module Activity.

Record characteristics : Type := {
  c_name : string;
  c_popularity : Z;
  c_mean_time : Q
}.

Record t : Type := {
  name : string;
  popularity : Z;
  mean_time : Q;
  random_seed : option Z;
  (* state *)
  visitors : list nat;
  visitor_time_remaining : list Z;
  (* history *)
  total_vistors : gmap Z Z
}.

Definition set_visitors (v : list nat) (w : list Z) (a : t) : t :=
  {| name := name a; popularity := popularity a; mean_time := mean_time a;
     random_seed := random_seed a; visitors := v; visitor_time_remaining := w;
     total_vistors := total_vistors a |}.

Definition set_total_vistors (h : gmap Z Z) (a : t) : t :=
  {| name := name a; popularity := popularity a; mean_time := mean_time a;
     random_seed := random_seed a; visitors := visitors a;
     visitor_time_remaining := visitor_time_remaining a;
     total_vistors := h |}.

Definition initialize_activity (c : characteristics) (seed : option Z) : t :=
  {| name := c_name c; popularity := c_popularity c; mean_time := c_mean_time c;
     random_seed := seed; visitors := []; visitor_time_remaining := [];
     total_vistors := ∅ |}.

Definition init (c : characteristics) (seed : option Z) : Result t :=
  if bool_decide (c_popularity c < 0 ∨ c_popularity c > 10)
  then Raise AssertionError
  else Ok (initialize_activity c seed).

(** The test [if self.random_seed:] on [None] or an [int]. *)
Definition seed_is_set (seed : option Z) : bool :=
  match seed with
  | None => false
  | Some n => negb (n =? 0)
  end.

(** [min(expedited_return_time)] of a non-empty list. *)
Definition list_min (x : Z) (l : list Z) : Z := foldl Z.min x l.

(** [min(max(1, min(expedited_return_time)), stay_time)], applied when
    the list of deadlines is not empty. *)
Definition cap_stay_time (expedited_return_time : list Z) (stay_time : Z) : Z :=
  match expedited_return_time with
  | [] => stay_time
  | d :: ds => Z.min (Z.max 1 (list_min d ds)) stay_time
  end.

Section WithRandom.
Context `{RandomSource}.

(** The stay drawn for the agent: [int(max(normal(...)[0], 1))]. *)
Definition draw_stay_time (agent_id : nat) (a : t) : M Z :=
  if seed_is_set (random_seed a) then
    rng ← lift (default_rng (default 0 (random_seed a) + Z.of_nat agent_id));
    x ← lift (rng_normal rng (mean_time a) (mean_time a / 2));
    mret (py_int (Qmax_py x 1))
  else
    x ← np_random_normal (mean_time a) (mean_time a / 2);
    mret (py_int (Qmax_py x 1)).

Definition add_to_activity (agent_id : nat) (expedited_return_time : list Z)
    (a : t) : M t :=
  let v := visitors a ++ [agent_id] in
  stay_time ← draw_stay_time agent_id a;
  let stay_time := cap_stay_time expedited_return_time stay_time in
  mret (set_visitors v (visitor_time_remaining a ++ [stay_time]) a).

End WithRandom.

Definition force_exit (agent_id : nat) (a : t) : Result t :=
  ind ← or_raise ValueError (list_index agent_id (visitors a));
  v ← list_del ind (visitors a);
  w ← list_del ind (visitor_time_remaining a);
  Ok (set_visitors v w a).

(** The comprehension of [step]: the visitors, with their index, whose
    remaining time is zero. *)
Fixpoint exiting_from (ind : nat) (vs : list nat) (rem : list Z)
    : Result (list (nat * nat)) :=
  match vs with
  | [] => Ok []
  | agent_id :: vs' =>
      r ← or_raise IndexError (rem !! ind);
      rest ← exiting_from (S ind) vs' rem;
      Ok (if r =? 0 then (ind, agent_id) :: rest else rest)
  end.

Definition step (time : Z) (a : t) : Result (t * list nat) :=
  exiting_agents ← exiting_from 0 (visitors a) (visitor_time_remaining a);
  let exiting_agents := reverse exiting_agents in
  a' ← foldR (fun a '(ind, _) =>
                v ← list_del ind (visitors a);
                w ← list_del ind (visitor_time_remaining a);
                Ok (set_visitors v w a)) a exiting_agents;
  Ok (a', exiting_agents.*2).

Definition pass_time (a : t) : t :=
  set_visitors (visitors a) ((fun visitor_time => visitor_time - 1) <$> visitor_time_remaining a) a.

Definition store_history (time : Z) (a : t) : t :=
  set_total_vistors (<[time := len (visitors a)]> (total_vistors a)) a.

End Activity.

(** ** Behavior archetypes ([Code/behavior_reference.py]) *)

Module Behavior.

Record parameters : Type := {
  stay_time_preference : Z;
  allow_repeats : bool;
  attraction_preference : Q;
  wait_threshold : Z;
  percent_no_child_rides : Q;
  percent_no_adult_rides : Q;
  percent_no_preference : Q
}.

Definition archetype (stay : Z) (repeats : bool) (pref : Q) (wait : Z) : parameters :=
  {| stay_time_preference := stay; allow_repeats := repeats;
     attraction_preference := pref; wait_threshold := wait;
     percent_no_child_rides := 0; percent_no_adult_rides := 1;
     percent_no_preference := 0 |}.

Definition BEHAVIOR_ARCHETYPE_PARAMETERS : dict string parameters :=
  [ ("ride_enthusiast", archetype 540 true (6 # 10) 480);
    ("ride_favorer", archetype 480 true (5 # 10) 420);
    ("park_tourer", archetype 420 false (4 # 10) 360);
    ("park_visitor", archetype 360 false (3 # 10) 240);
    ("activity_favorer", archetype 300 false (2 # 10) 180);
    ("activity_enthusiast", archetype 240 false (2 # 10) 90) ]%string.

End Behavior.

(** ** Agents ([Code/agent.py]) *)

Module Agent.

Inductive age_class : Type := no_child_rides | no_adult_rides | no_preference.

(** The values of [state["current_action"]]. *)
Inductive action : Type := idling | queueing | riding | browsing | getting_pass.

(** The actions returned by a decision. *)
Inductive decision : Type := leaving | traveling | get_pass_.

#[global] Instance age_class_eq_dec : EqDecision age_class.
Proof. solve_decision. Defined.
#[global] Instance action_eq_dec : EqDecision action.
Proof. solve_decision. Defined.
#[global] Instance decision_eq_dec : EqDecision decision.
Proof. solve_decision. Defined.

Record state : Type := {
  arrival_time : option Z;
  exit_time : option Z;
  within_park : bool;
  current_location : option string;
  current_action : option action;
  time_spent_at_current_location : Z;
  expedited_return_time : list Z;
  expedited_pass : list string;
  expedited_pass_ability : bool;
  exp_wait_threshold : Z;
  exp_limit : Z;
  (** name ↦ [times_completed] *)
  attractions : dict string Z;
  (** name ↦ ([times_visited], [time_spent]) *)
  activities : dict string (Z * Z);
  age : age_class
}.

Record behavior : Type := {
  archetype : string;
  stay_time_preference : Z;
  allow_repeats : bool;
  attraction_preference : Q;
  wait_threshold : Z
}.

Record t : Type := {
  agent_id : nat;
  random_seed : Z;
  st : state;
  bhv : behavior
}.

Definition with_state (s : state) (a : t) : t :=
  {| agent_id := agent_id a; random_seed := random_seed a; st := s; bhv := bhv a |}.

(** The writes to [state["current_location"]], [state["current_action"]]
    and [state["time_spent_at_current_location"]]. *)
Definition set_place (loc : option string) (act : option action) (time_spent : Z)
    (s : state) : state :=
  {| arrival_time := arrival_time s; exit_time := exit_time s;
     within_park := within_park s; current_location := loc;
     current_action := act; time_spent_at_current_location := time_spent;
     expedited_return_time := expedited_return_time s;
     expedited_pass := expedited_pass s;
     expedited_pass_ability := expedited_pass_ability s;
     exp_wait_threshold := exp_wait_threshold s; exp_limit := exp_limit s;
     attractions := attractions s; activities := activities s; age := age s |}.

Definition set_presence (inside : bool) (arrival exit : option Z) (s : state) : state :=
  {| arrival_time := arrival; exit_time := exit;
     within_park := inside; current_location := current_location s;
     current_action := current_action s;
     time_spent_at_current_location := time_spent_at_current_location s;
     expedited_return_time := expedited_return_time s;
     expedited_pass := expedited_pass s;
     expedited_pass_ability := expedited_pass_ability s;
     exp_wait_threshold := exp_wait_threshold s; exp_limit := exp_limit s;
     attractions := attractions s; activities := activities s; age := age s |}.

Definition set_expedited_pass (p : list string) (s : state) : state :=
  {| arrival_time := arrival_time s; exit_time := exit_time s;
     within_park := within_park s; current_location := current_location s;
     current_action := current_action s;
     time_spent_at_current_location := time_spent_at_current_location s;
     expedited_return_time := expedited_return_time s;
     expedited_pass := p;
     expedited_pass_ability := expedited_pass_ability s;
     exp_wait_threshold := exp_wait_threshold s; exp_limit := exp_limit s;
     attractions := attractions s; activities := activities s; age := age s |}.

Definition set_expedited_return_time (r : list Z) (s : state) : state :=
  {| arrival_time := arrival_time s; exit_time := exit_time s;
     within_park := within_park s; current_location := current_location s;
     current_action := current_action s;
     time_spent_at_current_location := time_spent_at_current_location s;
     expedited_return_time := r;
     expedited_pass := expedited_pass s;
     expedited_pass_ability := expedited_pass_ability s;
     exp_wait_threshold := exp_wait_threshold s; exp_limit := exp_limit s;
     attractions := attractions s; activities := activities s; age := age s |}.

Definition set_attractions (d : dict string Z) (s : state) : state :=
  {| arrival_time := arrival_time s; exit_time := exit_time s;
     within_park := within_park s; current_location := current_location s;
     current_action := current_action s;
     time_spent_at_current_location := time_spent_at_current_location s;
     expedited_return_time := expedited_return_time s;
     expedited_pass := expedited_pass s;
     expedited_pass_ability := expedited_pass_ability s;
     exp_wait_threshold := exp_wait_threshold s; exp_limit := exp_limit s;
     attractions := d; activities := activities s; age := age s |}.

Definition set_activities (d : dict string (Z * Z)) (s : state) : state :=
  {| arrival_time := arrival_time s; exit_time := exit_time s;
     within_park := within_park s; current_location := current_location s;
     current_action := current_action s;
     time_spent_at_current_location := time_spent_at_current_location s;
     expedited_return_time := expedited_return_time s;
     expedited_pass := expedited_pass s;
     expedited_pass_ability := expedited_pass_ability s;
     exp_wait_threshold := exp_wait_threshold s; exp_limit := exp_limit s;
     attractions := attractions s; activities := d; age := age s |}.

(** The check of [__init__] over the archetype table. *)
Definition init_check : Result unit :=
  foldR (fun _ '(_, behavior_dict) =>
           let age_class_sum :=
             (Behavior.percent_no_child_rides behavior_dict
              + Behavior.percent_no_adult_rides behavior_dict
              + Behavior.percent_no_preference behavior_dict)%Q in
           if Qle_bool (98 # 100) age_class_sum && Qle_bool age_class_sum 1
           then Ok tt else Raise AssertionError)
        tt Behavior.BEHAVIOR_ARCHETYPE_PARAMETERS.

(** The cumulative-sum selection shared by [select_behavior_archetype],
    [select_age_class] and [select_activity_decision]: the first key
    whose running total exceeds the draw. *)
Fixpoint select_below {K} (rng floor : Q) (distribution : list (K * Q)) : option K :=
  match distribution with
  | [] => None
  | (k, weight) :: rest =>
      let floor := (floor + weight)%Q in
      if Qlt_bool rng floor then Some k else select_below rng floor rest
  end.

Definition sumQ (l : list Q) : Q := foldl Qplus 0%Q l.

(** The selection loop of [select_attraction_decision]: the last key
    with [floor < rng <= ceiling], or the previous value of
    [desired_attraction]. *)
Fixpoint select_between {K} (rng floor ceiling : Q) (distribution : list (K * Z))
    (desired : option K) : option K :=
  match distribution with
  | [] => desired
  | (k, weight) :: rest =>
      let ceiling := (ceiling + inject_Z weight)%Q in
      let desired := if Qlt_bool floor rng && Qle_bool rng ceiling then Some k else desired in
      select_between rng (floor + inject_Z weight)%Q ceiling rest desired
  end.

Definition arrive_at_park (time : Z) (a : t) : t :=
  with_state
    (set_place (Some "gate"%string) (Some idling) 0
       (set_presence true (Some time) (exit_time (st a)) (st a))) a.

(** The age filter of [decide_attraction_or_activity]. *)
Definition age_eligible (cls : age_class) (child adult : bool) : bool :=
  match cls with
  | no_child_rides => (child && adult) || (adult && negb child)
  | no_adult_rides => (child && adult) || (child && negb adult)
  | no_preference => true
  end.

Definition filter_by_age (cls : age_class) (attractions_dict : dict string Attraction.t)
    (valid_attractions : list string) : Result (list string) :=
  match cls with
  | no_preference => Ok valid_attractions
  | _ =>
      filterR (fun attraction =>
                 x ← dict_item attraction attractions_dict;
                 Ok (age_eligible cls (Attraction.child_eligible x) (Attraction.adult_eligible x)))
              valid_attractions
  end.

Definition not_in_passes (a : t) (attraction : string) : bool :=
  bool_decide (attraction ∉ expedited_pass (st a)).

Definition pass_time (a : t) : t :=
  if within_park (st a) then
    let s := set_place (current_location (st a)) (current_action (st a))
               (time_spent_at_current_location (st a) + 1) (st a) in
    match expedited_pass s with
    | [] => with_state s a
    | _ => with_state (set_expedited_return_time
                         ((fun val => val - 1) <$> expedited_return_time s) s) a
    end
  else a.

(** Actions *)

Definition leave_park (time : Z) (a : t) : t :=
  with_state
    (set_place (Some "outside park"%string) None 0
       (set_presence false (arrival_time (st a)) (Some time) (st a))) a.

Definition enter_queue (attraction : string) (time : Z) (a : t) : t :=
  with_state (set_place (Some attraction) (Some queueing) 0 (st a)) a.

Definition begin_activity (activity : string) (time : Z) (a : t) : t :=
  with_state (set_place (Some activity) (Some browsing) 0 (st a)) a.

Definition get_pass (attraction : string) (time : Z) (a : t) : t :=
  let s := set_place (Some "gate"%string) (Some getting_pass) 0 (st a) in
  with_state (set_expedited_pass (expedited_pass s ++ [attraction]) s) a.

Definition assign_expedited_return_time (expedited_wait_time : Z) (a : t) : t :=
  let s := set_expedited_return_time
             (expedited_return_time (st a) ++ [expedited_wait_time]) (st a) in
  with_state (set_place (current_location s) (Some idling)
                (time_spent_at_current_location s) s) a.

(** The index kept by the loops of [return_exp_pass] and
    [agent_boarded_attraction]: the last position of [attraction]. *)
Fixpoint last_index (attraction : string) (ind : nat) (l : list string)
    (ind_to_remove : option nat) : option nat :=
  match l with
  | [] => ind_to_remove
  | attraction_pass :: l' =>
      last_index attraction (S ind) l'
        (if decide (attraction_pass = attraction) then Some ind else ind_to_remove)
  end.

Definition return_exp_pass (attraction : string) (a : t) : Result t :=
  ind_to_remove ← or_raise TypeError
                    (last_index attraction 0 (expedited_pass (st a)) None);
  p ← list_del ind_to_remove (expedited_pass (st a));
  r ← list_del ind_to_remove (expedited_return_time (st a));
  Ok (with_state (set_expedited_return_time r (set_expedited_pass p (st a))) a).

Definition agent_exited_attraction (name : string) (time : Z) (a : t) : Result t :=
  let s := set_place (Some "gate"%string) (Some idling)
             (time_spent_at_current_location (st a)) (st a) in
  times_completed ← dict_item name (attractions s);
  let s := set_attractions (dict_set name (times_completed + 1) (attractions s)) s in
  Ok (with_state (set_place (current_location s) (current_action s) 0 s) a).

Definition agent_boarded_attraction (name : string) (time : Z) (a : t)
    : Result (t * bool) :=
  if bool_decide (name ∈ expedited_pass (st a)) then
    s ← match last_index name 0 (expedited_pass (st a)) None with
        | Some ind_to_remove =>
            p ← list_del ind_to_remove (expedited_pass (st a));
            r ← list_del ind_to_remove (expedited_return_time (st a));
            Ok (set_expedited_return_time r (set_expedited_pass p (st a)))
        | None => Ok (st a)
        end;
    Ok (with_state (set_place (Some name) (Some riding) 0 s) a, true)
  else
    Ok (with_state (set_place (Some name) (Some riding) 0 (st a)) a, false).

Definition agent_exited_activity (name : string) (time : Z) (a : t) : Result t :=
  let s := set_place (Some "gate"%string) (Some idling)
             (time_spent_at_current_location (st a)) (st a) in
  '(times_visited, time_spent) ← dict_item name (activities s);
  let s := set_activities (dict_set name (times_visited + 1, time_spent) (activities s)) s in
  Ok (with_state (set_place (current_location s) (current_action s) 0 s) a).

Section WithRandom.
Context `{RandomSource}.

Definition select_behavior_archetype (agent_id : nat)
    (behavior_archetype_distribution : dict string Z) : M (option string) :=
  rng ← Random.uniform 0 (inject_Z (sumZ (dict_values behavior_archetype_distribution)));
  mret (select_below rng 0
          (prod_map id inject_Z <$> behavior_archetype_distribution)).

Definition select_age_class (agent_id : nat) (behavior_archetype_dict : Behavior.parameters)
    : M (option age_class) :=
  let age_class_distribution :=
    [ (no_child_rides, Behavior.percent_no_child_rides behavior_archetype_dict);
      (no_adult_rides, Behavior.percent_no_adult_rides behavior_archetype_dict);
      (no_preference, Behavior.percent_no_preference behavior_archetype_dict) ] in
  rng ← Random.uniform 0 (sumQ (age_class_distribution.*2));
  mret (select_below rng 0 age_class_distribution).

Definition initialize_agent (seed : Z) (behavior_archetype_distribution : dict string Z)
    (exp_ability : bool) (exp_wait_threshold exp_limit : Z) (agent_id : nat)
    (attraction_names activity_names : list string) : M t :=
  let attractions :=
    foldl (fun d attraction => dict_set attraction 0 d) [] attraction_names in
  let activities :=
    foldl (fun d activity => dict_set activity (0, 0) d) [] activity_names in
  behavior_archetype ← select_behavior_archetype agent_id behavior_archetype_distribution;
  parameters ← lift (or_raise KeyError
                       (b ← behavior_archetype;
                        dict_get b Behavior.BEHAVIOR_ARCHETYPE_PARAMETERS));
  cls ← select_age_class agent_id parameters;
  cls ← lift (or_raise AssertionError cls);
  rng ← lift (default_rng (seed + Z.of_nat agent_id));
  x ← lift (rng_normal rng
              (inject_Z (Behavior.stay_time_preference parameters))
              (inject_Z (Behavior.stay_time_preference parameters) / 4));
  let stay_time_preference := py_int (Qmax_py x 0) in
  mret {| agent_id := agent_id;
          random_seed := seed;
          st := {| arrival_time := None; exit_time := None; within_park := false;
                   current_location := None; current_action := None;
                   time_spent_at_current_location := 0;
                   expedited_return_time := []; expedited_pass := [];
                   expedited_pass_ability := exp_ability;
                   exp_wait_threshold := exp_wait_threshold;
                   exp_limit := exp_limit;
                   attractions := attractions; activities := activities;
                   age := cls |};
          bhv := {| archetype := default ""%string behavior_archetype;
                    stay_time_preference := stay_time_preference;
                    allow_repeats := Behavior.allow_repeats parameters;
                    attraction_preference := Behavior.attraction_preference parameters;
                    wait_threshold := Behavior.wait_threshold parameters |} |}.

(** [Agent(random_seed)] followed by [initialize_agent(...)]. *)
Definition create (seed : Z) (behavior_archetype_distribution : dict string Z)
    (exp_ability : bool) (exp_wait_threshold exp_limit : Z) (agent_id : nat)
    (attraction_names activity_names : list string) : M t :=
  _ ← lift init_check;
  initialize_agent seed behavior_archetype_distribution exp_ability
    exp_wait_threshold exp_limit agent_id attraction_names activity_names.

Definition decide_to_leave_park (time : Z) (a : t)
    : Result (option decision * option string) :=
  if bool_decide (Some time ≠ arrival_time (st a)) then
    arrival ← or_raise TypeError (arrival_time (st a));
    let actual_preference_value := (time - arrival) - stay_time_preference (bhv a) in
    rng ← default_rng (random_seed a + Z.of_nat (agent_id a) + time);
    x ← rng_normal rng 0 1;
    let normal_coinflip := (x * 60)%Q in
    if Qlt_bool normal_coinflip (inject_Z actual_preference_value)
    then Ok (Some leaving, Some "gate"%string)
    else Ok (None, None)
  else Ok (None, None).

Definition select_activity_decision (activities_dict : dict string Activity.t)
    : M (option string) :=
  let activity_popularity_distribution :=
    prod_map id Activity.popularity <$> activities_dict in
  rng ← Random.uniform 0 (inject_Z (sumZ (activity_popularity_distribution.*2)));
  mret (select_below rng 0 (prod_map id inject_Z <$> activity_popularity_distribution)).

(** The attractions the agent may choose from; the list is empty when
    the agent prefers an activity. *)
Definition decide_attraction_or_activity (attractions_dict : dict string Attraction.t) (a : t)
    : M (bool * list string) :=
  coinflip ← Random.uniform 0 1;
  if Qle_bool coinflip (attraction_preference (bhv a)) then
    valid_attractions ←
      lift (if allow_repeats (bhv a) then
              filter_by_age (age (st a)) attractions_dict
                (filter (fun attraction => not_in_passes a attraction)
                   (dict_keys attractions_dict))
            else
              filter_by_age (age (st a)) attractions_dict
                ((filter (fun '(attraction, times_completed) =>
                            times_completed = 0 ∧ not_in_passes a attraction)
                    (attractions (st a))).*1));
    mret (match valid_attractions with
          | [] => (false, [])
          | _ => (true, valid_attractions)
          end)
  else mret (false, []).

(** One pass of the [while] loop of [select_attraction_decision];
    [desired] is the value of [desired_attraction] left by the
    previous pass, [again] is the rest of the loop, entered after
    [valid_attractions.remove(desired_attraction)]. *)
Definition select_attraction_pass (a : t)
    (attractions_dict : dict string Attraction.t) (attraction_wait_times : dict string Q)
    (valid_attractions : list string) (desired : option string)
    (again : list string → option string → M (option decision * option string))
    : M (option decision * option string) :=
  let attraction_popularity_distribution :=
    prod_map id Attraction.popularity <$>
      filter (fun '(attraction_name, _) => attraction_name ∈ valid_attractions)
        attractions_dict in
  rng ← Random.uniform 0
          (inject_Z (sumZ (attraction_popularity_distribution.*2)));
  let desired := select_between rng 0 0 attraction_popularity_distribution desired in
  desired_attraction ← lift (or_raise UnboundLocalError desired);
  wait ← lift (dict_item desired_attraction attraction_wait_times);
  wants_pass ←
    (if Qlt_bool (inject_Z (exp_wait_threshold (st a))) wait
        && expedited_pass_ability (st a)
        && (len (expedited_pass (st a)) <? exp_limit (st a))
     then
       x ← lift (dict_item desired_attraction attractions_dict);
       mret (Attraction.expedited_queue x
             && Qlt_bool 0 (Attraction.exp_queue_passes x))
     else mret false);
  if wants_pass : bool then mret (Some get_pass_, Some desired_attraction)
  else
    x ← lift (dict_item desired_attraction attractions_dict);
    if Qlt_bool (inject_Z (wait_threshold (bhv a) + Attraction.popularity x * 6)) wait
    then
      valid_attractions ← lift (list_remove desired_attraction valid_attractions);
      again valid_attractions (Some desired_attraction)
    else if existsb (fun rt => Qlt_bool (inject_Z rt)
                                 (wait + inject_Z (Attraction.run_time x)))
              (expedited_return_time (st a))
    then
      valid_attractions ← lift (list_remove desired_attraction valid_attractions);
      again valid_attractions (Some desired_attraction)
    else mret (Some traveling, Some desired_attraction).

(** [while len(valid_attractions) > 0 and not action]. Every pass that
    does not return removes one name from [valid_attractions]: the
    fuel is the length of that list. *)
Fixpoint select_attraction_loop (fuel : nat) (a : t)
    (attractions_dict : dict string Attraction.t) (attraction_wait_times : dict string Q)
    (valid_attractions : list string) (desired : option string)
    : M (option decision * option string) :=
  match valid_attractions with
  | [] => mret (None, None)
  | _ =>
    match fuel with
    | O => raise OutOfFuel
    | S fuel' =>
        select_attraction_pass a attractions_dict attraction_wait_times
          valid_attractions desired
          (select_attraction_loop fuel' a attractions_dict attraction_wait_times)
    end
  end.

Definition select_attraction_decision (wait_fuel : nat) (a : t)
    (valid_attractions : list string) (attractions_dict : dict string Attraction.t)
    : M (option decision * option string) :=
  attraction_wait_times ←
    lift (mapR (fun '(attraction_name, attraction) =>
                  w ← Attraction.get_wait_time wait_fuel attraction;
                  Ok (attraction_name, w))
            attractions_dict);
  select_attraction_loop (length valid_attractions) a attractions_dict
    attraction_wait_times valid_attractions None.

Definition make_attraction_activity_decision (wait_fuel : nat) (a : t)
    (activities_dict : dict string Activity.t) (attractions_dict : dict string Attraction.t)
    : M (option decision * option string) :=
  '(wants_attraction, valid_attractions) ←
    decide_attraction_or_activity attractions_dict a;
  if wants_attraction : bool then
    '(action, location) ←
      select_attraction_decision wait_fuel a valid_attractions attractions_dict;
    match action with
    | None =>
        selected_activity ← select_activity_decision activities_dict;
        mret (Some traveling, selected_activity)
    | Some _ => mret (action, location)
    end
  else
    selected_activity ← select_activity_decision activities_dict;
    mret (Some traveling, selected_activity).

(** The first assignment, made when the park is closed, is overwritten
    by the result of [decide_to_leave_park]. *)
Definition make_state_change_decision (wait_fuel : nat) (a : t)
    (attractions_dict : dict string Attraction.t) (activities_dict : dict string Activity.t)
    (time : Z) (park_closed : bool) : M (option decision * option string) :=
  let '(action, location) :=
    if park_closed then (Some leaving, Some "gate"%string) else (None, None) in
  '(action, location) ← lift (decide_to_leave_park time a);
  match action with
  | None =>
      make_attraction_activity_decision wait_fuel a activities_dict attractions_dict
  | Some _ => mret (action, location)
  end.

End WithRandom.

End Agent.

(** ** The park ([Code/park.py]) *)

Module Park.

Record history : Type := {
  total_active_agents : gmap Z Z;
  distributed_passes : Z;
  redeemed_passes : Z
}.

Record t : Type := {
  (* static *)
  attraction_list : list Attraction.characteristics;
  activity_list : list Activity.characteristics;
  random_seed : Z;
  (* dynamic *)
  schedule : dict Z Z;
  agents : list Agent.t;
  attractions : dict string Attraction.t;
  activities : dict string Activity.t;
  hist : history;
  time : Z;
  arrival_index : Z;
  park_close : option Z
}.

Definition init (attraction_list : list Attraction.characteristics)
    (activity_list : list Activity.characteristics) (random_seed : Z) : t :=
  {| attraction_list := attraction_list; activity_list := activity_list;
     random_seed := random_seed;
     schedule := []; agents := []; attractions := []; activities := [];
     hist := {| total_active_agents := ∅; distributed_passes := 0;
                redeemed_passes := 0 |};
     time := 0; arrival_index := 0; park_close := None |}.

Definition set_lists (al : list Attraction.characteristics)
    (cl : list Activity.characteristics) (p : t) : t :=
  {| attraction_list := al; activity_list := cl;
     random_seed := random_seed p; schedule := schedule p; agents := agents p;
     attractions := attractions p; activities := activities p; hist := hist p;
     time := time p; arrival_index := arrival_index p; park_close := park_close p |}.

Definition set_schedule (s : dict Z Z) (p : t) : t :=
  {| attraction_list := attraction_list p; activity_list := activity_list p;
     random_seed := random_seed p; schedule := s; agents := agents p;
     attractions := attractions p; activities := activities p; hist := hist p;
     time := time p; arrival_index := arrival_index p; park_close := park_close p |}.

Definition set_agents (v : list Agent.t) (p : t) : t :=
  {| attraction_list := attraction_list p; activity_list := activity_list p;
     random_seed := random_seed p; schedule := schedule p; agents := v;
     attractions := attractions p; activities := activities p; hist := hist p;
     time := time p; arrival_index := arrival_index p; park_close := park_close p |}.

Definition set_attractions (v : dict string Attraction.t) (p : t) : t :=
  {| attraction_list := attraction_list p; activity_list := activity_list p;
     random_seed := random_seed p; schedule := schedule p; agents := agents p;
     attractions := v; activities := activities p; hist := hist p;
     time := time p; arrival_index := arrival_index p; park_close := park_close p |}.

Definition set_activities (v : dict string Activity.t) (p : t) : t :=
  {| attraction_list := attraction_list p; activity_list := activity_list p;
     random_seed := random_seed p; schedule := schedule p; agents := agents p;
     attractions := attractions p; activities := v; hist := hist p;
     time := time p; arrival_index := arrival_index p; park_close := park_close p |}.

Definition set_hist (v : history) (p : t) : t :=
  {| attraction_list := attraction_list p; activity_list := activity_list p;
     random_seed := random_seed p; schedule := schedule p; agents := agents p;
     attractions := attractions p; activities := activities p; hist := v;
     time := time p; arrival_index := arrival_index p; park_close := park_close p |}.

Definition set_clock (time arrival_index : Z) (p : t) : t :=
  {| attraction_list := attraction_list p; activity_list := activity_list p;
     random_seed := random_seed p; schedule := schedule p; agents := agents p;
     attractions := attractions p; activities := activities p; hist := hist p;
     time := time; arrival_index := arrival_index; park_close := park_close p |}.

Definition set_park_close (v : option Z) (p : t) : t :=
  {| attraction_list := attraction_list p; activity_list := activity_list p;
     random_seed := random_seed p; schedule := schedule p; agents := agents p;
     attractions := attractions p; activities := activities p; hist := hist p;
     time := time p; arrival_index := arrival_index p; park_close := v |}.

(** [self.agents[k]] and the write back of the agent found there. *)
Definition agent_item (k : Z) (p : t) : Result Agent.t :=
  if k <? 0 then Raise KeyError else or_raise KeyError (agents p !! Z.to_nat k).

Definition put_agent (k : nat) (a : Agent.t) (p : t) : t :=
  set_agents (<[k := a]> (agents p)) p.

Definition put_attraction (k : string) (a : Attraction.t) (p : t) : t :=
  set_attractions (dict_set k a (attractions p)) p.

Definition put_activity (k : string) (a : Activity.t) (p : t) : t :=
  set_activities (dict_set k a (activities p)) p.

(** [self.agents.update({agent_id: agent})] *)
Definition update_agents (agent_id : nat) (a : Agent.t) (p : t) : t :=
  if decide (agent_id < length (agents p))%nat
  then put_agent agent_id a p
  else set_agents (agents p ++ [a]) p.

(** [sorted(l, key=...)]: a stable insertion sort. *)
Fixpoint insert_by {A} (key : A → Z) (x : A) (l : list A) : list A :=
  match l with
  | [] => [x]
  | y :: l' => if key x <=? key y then x :: l else y :: insert_by key x l'
  end.

Definition sorted_by {A} (key : A → Z) (l : list A) : list A :=
  foldr (insert_by key) [] l.

Definition generate_attractions (p : t) : Result t :=
  let p := set_lists (sorted_by Attraction.c_popularity (attraction_list p))
             (activity_list p) p in
  foldR (fun p attraction =>
           a ← Attraction.init attraction;
           Ok (put_attraction (Attraction.c_name attraction) a p))
        p (attraction_list p).

Definition generate_activities (p : t) : Result t :=
  let p := set_lists (attraction_list p)
             (sorted_by Activity.c_popularity (activity_list p)) p in
  foldR (fun p activity =>
           a ← Activity.init activity (Some (random_seed p));
           Ok (put_activity (Activity.c_name activity) a p))
        p (activity_list p).

Definition get_idle_agent_ids (p : t) : list nat :=
  (filter (fun '(_, agent) =>
             Agent.within_park (Agent.st agent) = true
             ∧ Agent.current_action (Agent.st agent) = Some Agent.idling)
     (imap (fun agent_id agent => (agent_id, agent)) (agents p))).*1.

Definition calculate_total_active_agents (p : t) : t :=
  let active_agents :=
    len (filter (fun agent => Agent.within_park (Agent.st agent) = true) (agents p)) in
  set_hist {| total_active_agents := <[time p := active_agents]> (total_active_agents (hist p));
              distributed_passes := distributed_passes (hist p);
              redeemed_passes := redeemed_passes (hist p) |} p.

Definition count_distributed_pass (p : t) : t :=
  set_hist {| total_active_agents := total_active_agents (hist p);
              distributed_passes := distributed_passes (hist p) + 1;
              redeemed_passes := redeemed_passes (hist p) |} p.

Definition count_redeemed_pass (p : t) : t :=
  set_hist {| total_active_agents := total_active_agents (hist p);
              distributed_passes := distributed_passes (hist p);
              redeemed_passes := redeemed_passes (hist p) + 1 |} p.

(** [for attraction in agent.state["expedited_pass"]: ...] of
    [update_park_state]: the loop reads position [ind] of the list that
    its body shortens. *)
Fixpoint return_passes (fuel : nat) (ind : nat) (agent_id : nat) (p : t) : Result t :=
  agent ← agent_item (Z.of_nat agent_id) p;
  match Agent.expedited_pass (Agent.st agent) !! ind with
  | None => Ok p
  | Some attraction =>
      match fuel with
      | O => Raise OutOfFuel
      | S fuel' =>
          x ← dict_item attraction (attractions p);
          x ← Attraction.return_pass (Agent.agent_id agent) x;
          let p := put_attraction attraction x p in
          agent ← Agent.return_exp_pass attraction agent;
          let p := put_agent agent_id agent p in
          return_passes fuel' (S ind) agent_id p
      end
  end.

Section WithRandom.
Context `{RandomSource}.

(** The [if perfect_arrivals:] correction loops: [count] times, a
    minute with a positive count is drawn and changed by [delta]. *)
Fixpoint correct_schedule (count : nat) (delta : Z) (schedule : dict Z Z)
    : M (dict Z Z) :=
  match count with
  | O => mret schedule
  | S count' =>
      rng_key ← Random.choice (filter (fun '(key, val) => val > 0) schedule).*1;
      val ← lift (dict_item rng_key schedule);
      correct_schedule count' delta (dict_set rng_key (val + delta) schedule)
  end.

(** The first loop of [generate_arrival_schedule]: the arrivals of every
    minute are drawn, hour by hour, and the first hour without arrivals
    fixes the closing time. *)
Definition sample_arrivals (arrival_seed : dict string Z) (total_daily_agents : Z)
    (p : t) : Result t :=
  let operating_hours := len arrival_seed in
  foldR (fun p '(hour, key) =>
           arrival_pct ← dict_item key arrival_seed;
           let p :=
             if (arrival_pct =? 0)
                && negb (match park_close p with
                         | None => false
                         | Some c => negb (c =? 0)
                         end)
             then set_park_close (Some (hour * 60)) p else p in
           let total_hour_agents :=
             (inject_Z total_daily_agents * inject_Z arrival_pct * (1 # 100))%Q in
           let expected_minute_agents := (total_hour_agents / 60)%Q in
           rng ← default_rng (random_seed p + hour);
           minute_arrivals ← rng_poisson rng expected_minute_agents;
           Ok (foldl (fun p '(minute, arrivals) =>
                        let exact_minute := hour * 60 + minute in
                        set_schedule (dict_set exact_minute arrivals (schedule p)) p)
                 p (zip (seqZ 0 60) minute_arrivals)))
        p (zip (seqZ 0 operating_hours) (dict_keys arrival_seed)).

(** The body of [if perfect_arrivals:]. *)
Definition enforce_perfect_arrivals (total_daily_agents : Z) (p : t) : M t :=
  let actual_total_daily_agents := sumZ (dict_values (schedule p)) in
  let dif := actual_total_daily_agents - total_daily_agents in
  s ← (if 0 <? dif then correct_schedule (Z.to_nat dif) (-1) (schedule p)
       else mret (schedule p));
  s ← (if dif <? 0 then correct_schedule (Z.to_nat (dif * -1)) 1 s
       else mret s);
  if bool_decide (sumZ (dict_values s) = total_daily_agents)
  then mret (set_schedule s p)
  else raise AssertionError.

Definition generate_arrival_schedule (arrival_seed : dict string Z)
    (total_daily_agents : Z) (perfect_arrivals : bool) (p : t) : M t :=
  if bool_decide (sumZ (dict_values arrival_seed) ≠ 100) then raise AssertionError
  else
    let operating_hours := len arrival_seed in
    if 24 <? operating_hours then raise AssertionError
    else
      p ← lift (sample_arrivals arrival_seed total_daily_agents p);
      _ ← Random.seed (random_seed p);
      if perfect_arrivals then enforce_perfect_arrivals total_daily_agents p
      else mret p.

Definition generate_agents (behavior_archetype_distribution : dict string Z)
    (exp_ability_pct : Q) (exp_wait_threshold exp_limit : Z) (p : t) : M t :=
  if bool_decide (sumZ (dict_values behavior_archetype_distribution) ≠ 100)
  then raise AssertionError
  else
    let total_agents := sumZ (dict_values (schedule p)) in
    foldM (fun p agent_id =>
             _ ← Random.seed (random_seed p + Z.of_nat agent_id);
             r ← Random.uniform 0 1;
             let exp_ability := Qlt_bool r exp_ability_pct in
             agent ← Agent.create (random_seed p) behavior_archetype_distribution
                       exp_ability exp_wait_threshold exp_limit agent_id
                       (Attraction.c_name <$> attraction_list p)
                       (Activity.c_name <$> activity_list p);
             mret (update_agents agent_id agent p))
          p (seq 0 (Z.to_nat total_agents)).

Definition update_park_state (fuel : nat) (agent_id : nat)
    (action : option Agent.decision) (location : option string) (time : Z)
    (p : t) : M t :=
  p ← (if decide (action = Some Agent.leaving) then
         agent ← lift (agent_item (Z.of_nat agent_id) p);
         p ← lift (match Agent.expedited_pass (Agent.st agent) with
                   | [] => Ok p
                   | passes => return_passes (length passes) 0 agent_id p
                   end);
         agent ← lift (agent_item (Z.of_nat agent_id) p);
         mret (put_agent agent_id (Agent.leave_park time agent) p)
       else mret p);
  p ← (if decide (action = Some Agent.traveling) then
         p ← (if dict_mem location (attractions p) then
                location ← lift (or_raise KeyError location);
                agent ← lift (agent_item (Z.of_nat agent_id) p);
                let agent := Agent.enter_queue location time agent in
                let p := put_agent agent_id agent p in
                x ← lift (dict_item location (attractions p));
                mret (put_attraction location
                        (Attraction.add_to_queue (Agent.agent_id agent) x) p)
              else mret p);
         (if dict_mem location (activities p) then
            location ← lift (or_raise KeyError location);
            agent ← lift (agent_item (Z.of_nat agent_id) p);
            let agent := Agent.begin_activity location time agent in
            let p := put_agent agent_id agent p in
            x ← lift (dict_item location (activities p));
            x ← Activity.add_to_activity (Agent.agent_id agent)
                  (Agent.expedited_return_time (Agent.st agent)) x;
            mret (put_activity location x p)
          else mret p)
       else mret p);
  if decide (action = Some Agent.get_pass_) then
    location ← lift (or_raise KeyError location);
    agent ← lift (agent_item (Z.of_nat agent_id) p);
    let agent := Agent.get_pass location time agent in
    let p := put_agent agent_id agent p in
    x ← lift (dict_item location (attractions p));
    let x := Attraction.remove_pass x in
    '(x, expedited_wait_time) ← lift (Attraction.add_to_exp_queue fuel (Agent.agent_id agent) x);
    let p := put_attraction location x p in
    mret (put_agent agent_id
            (Agent.assign_expedited_return_time expedited_wait_time agent) p)
  else mret p.

(** The first loop of [step]: the new arrivals enter. *)
Definition admit_arrivals (total_arrivals : Z) (p : t) : Result t :=
  foldR (fun p' new_arrival_index =>
           let agent_index := arrival_index p + new_arrival_index in
           agent ← agent_item agent_index p';
           Ok (put_agent (Z.to_nat agent_index) (Agent.arrive_at_park (time p) agent) p'))
        p (seqZ 0 total_arrivals).

(** The first statements of [step], up to
    [self.arrival_index += total_arrivals]. *)
Definition allow_new_arrivals (p : t) : Result t :=
  total_arrivals ← dict_item (time p) (schedule p);
  p ← admit_arrivals total_arrivals p;
  Ok (set_clock (time p) (arrival_index p + total_arrivals) p).

(** The body of the second loop of [step]: one idle agent decides and
    the park is updated. [self.park_close <= self.time] is evaluated
    for every agent. *)
Definition decide_and_update (fuel : nat) (p : t) (agent_id : nat) : M t :=
  agent ← lift (agent_item (Z.of_nat agent_id) p);
  park_close ← lift (or_raise TypeError (park_close p));
  let park_closed := park_close <=? time p in
  '(action, location) ←
    Agent.make_state_change_decision fuel agent (attractions p) (activities p)
      (time p) park_closed;
  let p := if decide (action = Some Agent.get_pass_)
           then count_distributed_pass p else p in
  update_park_state fuel agent_id action location (time p) p.

(** The body of the third loop of [step]: one attraction runs. *)
Definition process_attraction (p : t) (attraction_name : string) : Result t :=
  attraction ← dict_item attraction_name (attractions p);
  '(attraction, (exiting_agents, loaded_agents)) ←
    Attraction.step (time p) (park_close p) attraction;
  let p := put_attraction attraction_name attraction p in
  p ← foldR (fun p agent_id =>
               agent ← agent_item (Z.of_nat agent_id) p;
               agent ← Agent.agent_exited_attraction attraction_name (time p) agent;
               Ok (put_agent agent_id agent p))
         p exiting_agents;
  foldR (fun p agent_id =>
           agent ← agent_item (Z.of_nat agent_id) p;
           p ← (if decide (Agent.current_action (Agent.st agent) = Some Agent.browsing)
                then
                  (* force exit if expedited queue estimate was too high *)
                  location ← or_raise KeyError (Agent.current_location (Agent.st agent));
                  activity ← dict_item location (activities p);
                  activity ← Activity.force_exit agent_id activity;
                  let p := put_activity location activity p in
                  agent ← Agent.agent_exited_activity location (time p) agent;
                  Ok (put_agent agent_id agent p)
                else Ok p);
           agent ← agent_item (Z.of_nat agent_id) p;
           '(agent, redeem) ← Agent.agent_boarded_attraction attraction_name (time p) agent;
           let p := put_agent agent_id agent p in
           Ok (if redeem : bool then count_redeemed_pass p else p))
        p loaded_agents.

(** The body of the fourth loop of [step]: one activity runs. *)
Definition process_activity (p : t) (activity_name : string) : Result t :=
  activity ← dict_item activity_name (activities p);
  '(activity, exiting_agents) ← Activity.step (time p) activity;
  let p := put_activity activity_name activity p in
  foldR (fun p agent_id =>
           agent ← agent_item (Z.of_nat agent_id) p;
           agent ← Agent.agent_exited_activity activity_name (time p) agent;
           Ok (put_agent agent_id agent p))
        p exiting_agents.

(** The last loops of [step]: the clocks advance and the histories
    are stored. *)
Definition pass_time (fuel : nat) (p : t) : Result t :=
  let p := set_agents (Agent.pass_time <$> agents p) p in
  xs ← mapR (fun '(attraction_name, attraction) =>
               x ← Attraction.store_history fuel (time p) (Attraction.pass_time attraction);
               Ok (attraction_name, x))
          (attractions p);
  let p := set_attractions xs p in
  Ok (set_activities
        (prod_map id (fun activity =>
                        Activity.store_history (time p) (Activity.pass_time activity))
           <$> activities p) p).

(** [step]: a minute of time passes. *)
Definition step (fuel : nat) (p : t) : M t :=
  (* allow new arrivals to enter *)
  p ← lift (allow_new_arrivals p);
  (* get idle agents *)
  let idle_agent_ids := get_idle_agent_ids p in
  (* get idle activity action *)
  p ← foldM (decide_and_update fuel) p idle_agent_ids;
  (* process attractions *)
  p ← lift (foldR process_attraction p (dict_keys (attractions p)));
  (* process activities *)
  p ← lift (foldR process_activity p (dict_keys (activities p)));
  (* update time counters and history *)
  p ← lift (pass_time fuel p);
  let p := calculate_total_active_agents p in
  mret (set_clock (time p + 1) (arrival_index p) p).

(** [n] calls of [step]. *)
Fixpoint steps (fuel : nat) (n : nat) (p : t) : M t :=
  match n with
  | O => mret p
  | S n' => p ← step fuel p; steps fuel n' p
  end.

End WithRandom.

End Park.

(** ** A random source that replays given draws

    The draws of the global generators are read from lists (a list that
    is used up yields [0]); the fresh generators are given as functions
    of their seed. *)

Module Scripted.

Record py : Type := { uniforms : list Q; indices : list nat }.

Definition source (seeded : Z → py) (normal : Z → Q) (poisson : Z → Q → list Z)
    : RandomSource :=
  {| py_state := py;
     py_seed := seeded;
     py_random := fun s =>
       (hd 0%Q (uniforms s), {| uniforms := tl (uniforms s); indices := indices s |});
     py_randbits := fun s =>
       (hd 0%nat (indices s), {| uniforms := uniforms s; indices := tl (indices s) |});
     np_state := list Q;
     np_global_normal := fun s => (hd 0%Q s, tl s);
     np_seeded_normal := normal;
     np_seeded_poisson := poisson |}.

End Scripted.

(** ** Reachable parks and the properties kept by the engine *)

(** An attraction is well formed when its capacity is not negative and
    its expedited seat ratio lies in [0, 1]. *)
Definition well_formed (a : Attraction.t) : Prop :=
  (0 <= Attraction.capacity a)%Q
  ∧ (0 <= Attraction.exp_queue_ratio a)%Q ∧ (Attraction.exp_queue_ratio a <= 1)%Q.

(** The occupants fit the capacity. *)
Definition occupancy_ok (a : Attraction.t) : Prop :=
  (inject_Z (len (Attraction.agents_in_attraction a)) <= Attraction.capacity a)%Q.

(** No attraction twice among the held passes, and as many return
    countdowns as passes. *)
Definition passes_ok (a : Agent.t) : Prop :=
  NoDup (Agent.expedited_pass (Agent.st a))
  ∧ length (Agent.expedited_pass (Agent.st a))
    = length (Agent.expedited_return_time (Agent.st a)).

(** The held passes with their countdowns, read by position. *)
Definition pass_countdowns (a : Agent.t) : list (string * Z) :=
  zip (Agent.expedited_pass (Agent.st a)) (Agent.expedited_return_time (Agent.st a)).

(** The passes and the countdowns of [b] are the two columns of
    [pairs]: entry by entry, each pass stands with its countdown. *)
Definition holds (b : Agent.t) (pairs : list (string * Z)) : Prop :=
  Agent.expedited_pass (Agent.st b) = pairs.*1
  ∧ Agent.expedited_return_time (Agent.st b) = pairs.*2.

(** The budget of issuable passes is used up: an attraction with an
    expedited queue has none left. *)
Definition spent (a : Attraction.t) : Prop :=
  Attraction.expedited_queue a = true → Attraction.exp_queue_passes a = 0%Q.

(** The parks produced by the constructor and the public methods of
    [Park], called in any order with any arguments. *)
Inductive reachable `{RandomSource} : Park.t → Prop :=
  | reach_init attraction_list activity_list seed :
      reachable (Park.init attraction_list activity_list seed)
  | reach_arrival_schedule p arrival_seed total perfect s p' s' :
      reachable p →
      Park.generate_arrival_schedule arrival_seed total perfect p s = Ok (p', s') →
      reachable p'
  | reach_agents p distribution pct threshold limit s p' s' :
      reachable p →
      Park.generate_agents distribution pct threshold limit p s = Ok (p', s') →
      reachable p'
  | reach_attractions p p' :
      reachable p → Park.generate_attractions p = Ok p' → reachable p'
  | reach_activities p p' :
      reachable p → Park.generate_activities p = Ok p' → reachable p'
  | reach_step p fuel s p' s' :
      reachable p → Park.step fuel p s = Ok (p', s') → reachable p'.

(** The two properties over the registries of a park. *)
Definition seats_respected (a : Attraction.t) : Prop :=
  well_formed a → occupancy_ok a.

Definition attractions_ok (p : Park.t) : Prop :=
  Forall (fun kv => seats_respected kv.2) (Park.attractions p).

Definition agents_ok (p : Park.t) : Prop :=
  Forall passes_ok (Park.agents p).

(** The soonest positive deadline, as the specification words the cap of
    a stay. *)
Definition soonest_positive (deadlines : list Z) : option Z :=
  match filter (fun d => 0 < d) deadlines with
  | [] => None
  | d :: ds => Some (Activity.list_min d ds)
  end.

(** A property of the agents and a property of the attractions that
    hold throughout the registries of a park. *)
Definition kept (PA : Agent.t → Prop) (PX : Attraction.t → Prop) (p : Park.t) : Prop :=
  Forall PA (Park.agents p) ∧ Forall (fun kv => PX kv.2) (Park.attractions p).

(** The arrival schedule of a park: distinct minutes, no negative count. *)
Definition schedule_ok (p : Park.t) : Prop :=
  NoDup (dict_keys (Park.schedule p)) ∧ Forall (fun kv => 0 ≤ kv.2) (Park.schedule p).

(** The characteristics of an attraction, which no method changes. *)
Definition same_characteristics (a b : Attraction.t) : Prop :=
  Attraction.name a = Attraction.name b
  ∧ Attraction.run_time a = Attraction.run_time b
  ∧ Attraction.capacity a = Attraction.capacity b
  ∧ Attraction.popularity a = Attraction.popularity b
  ∧ Attraction.child_eligible a = Attraction.child_eligible b
  ∧ Attraction.adult_eligible a = Attraction.adult_eligible b
  ∧ Attraction.expedited_queue a = Attraction.expedited_queue b
  ∧ Attraction.exp_queue_ratio a = Attraction.exp_queue_ratio b.

(** The stay recorded by [add_to_activity] as the specification words
    it: the drawn stay, capped by the soonest positive deadline floored
    at 1; a deadline that is zero or negative plays no part. *)
Definition capped_by_positive_deadlines (deadlines : list Z) (drawn recorded : Z) : Prop :=
  ∀ d, soonest_positive deadlines = Some d → recorded = Z.min (Z.max 1 d) drawn.

(** The result of a computation, without the state of the generators. *)
Definition value `{RandomSource} {A} (r : Result (A * rand_state)) : Result A :=
  match r with Ok (a, _) => Ok a | Raise e => Raise e end.

(** ** Notions used by the properties of the methods *)

(** The visitors of an activity and their remaining times are two lists
    read by position: they are aligned when they have the same length. *)
Definition aligned (a : Activity.t) : Prop :=
  length (Activity.visitors a) = length (Activity.visitor_time_remaining a).

(** The visitors with their remaining time, split into those whose time
    is up and the others. *)
Definition finished (a : Activity.t) : list (nat * Z) :=
  filter (fun p => p.2 = 0) (zip (Activity.visitors a) (Activity.visitor_time_remaining a)).
Definition staying (a : Activity.t) : list (nat * Z) :=
  filter (fun p => p.2 ≠ 0) (zip (Activity.visitors a) (Activity.visitor_time_remaining a)).

(** The second, fourth, ... elements of a list. *)
Fixpoint every_other {A} (l : list A) : list A :=
  match l with
  | _ :: y :: l' => y :: every_other l'
  | _ => []
  end.

(** Every pass the agent holds is known to its attraction: the
    attraction exists and the agent stands in its expedited queue. *)
Definition passes_queued (p : Park.t) (a : Agent.t) : Prop :=
  ∀ name, name ∈ Agent.expedited_pass (Agent.st a) →
    ∃ x, dict_get name (Park.attractions p) = Some x
         ∧ Agent.agent_id a ∈ Attraction.exp_queue x.

(** The [time_spent] entry of every activity in the history of an
    agent is still zero. *)
Definition time_spent_unset (a : Agent.t) : Prop :=
  Forall (fun kv => kv.2.2 = 0) (Agent.activities (Agent.st a)).

(** The behavior of an agent is that of an archetype of
    [BEHAVIOR_ARCHETYPE_PARAMETERS], with a drawn stay preference that
    is not negative. *)
Definition of_archetype (a : Agent.t) : Prop :=
  ∃ parameters,
    dict_get (Agent.archetype (Agent.bhv a)) Behavior.BEHAVIOR_ARCHETYPE_PARAMETERS
    = Some parameters
    ∧ Agent.allow_repeats (Agent.bhv a) = Behavior.allow_repeats parameters
    ∧ Agent.attraction_preference (Agent.bhv a) = Behavior.attraction_preference parameters
    ∧ Agent.wait_threshold (Agent.bhv a) = Behavior.wait_threshold parameters
    ∧ 0 ≤ Agent.stay_time_preference (Agent.bhv a).

(** An agent inside the park has arrived and is doing something. *)
Definition present (a : Agent.t) : Prop :=
  Agent.within_park (Agent.st a) = true →
  is_Some (Agent.arrival_time (Agent.st a))
  ∧ is_Some (Agent.current_action (Agent.st a)).

(** [bool(park_close)]: [None] and [0] are false. *)
Definition truthy (c : option Z) : bool :=
  match c with None => false | Some c => negb (c =? 0) end.

(** An agent as [initialize_agent] leaves it: outside the park, with no
    pass, under the given id. *)
Definition fresh_agent (k : nat) (a : Agent.t) : Prop :=
  Agent.agent_id a = k
  ∧ Agent.within_park (Agent.st a) = false
  ∧ Agent.current_action (Agent.st a) = None
  ∧ Agent.expedited_pass (Agent.st a) = []
  ∧ Agent.expedited_return_time (Agent.st a) = [].

(** What a minute of simulation leaves alone: the schedule, the closing
    time, the seed, the number of agents and the names of the
    attractions and of the activities. *)
Definition layout (p : Park.t)
    : dict Z Z * option Z * Z * nat * list string * list string :=
  (Park.schedule p, Park.park_close p, Park.random_seed p,
   length (Park.agents p), dict_keys (Park.attractions p), dict_keys (Park.activities p)).

(** The parks with the clock and the layout of [p]. *)
Definition beside (p q : Park.t) : Prop :=
  Park.time q = Park.time p ∧ Park.arrival_index q = Park.arrival_index p
  ∧ layout q = layout p.

(** ** Scenarios *)

Module Scenario.

(** Every draw of [random.random()] is one half, every standard normal
    draw of a fresh generator is zero, and the Poisson sample of the
    first hour is [arrivals], followed by zeros; the samples of the
    other hours are zero. *)
Definition halves : Scripted.py :=
  {| Scripted.uniforms := repeat (1 # 2)%Q 4000; Scripted.indices := [] |}.

Definition source (base : Z) (arrivals : list Z) : RandomSource :=
  Scripted.source (fun _ => halves) (fun _ => 0%Q)
    (fun seed lam => if seed =? base then take 60 (arrivals ++ repeat 0 60%nat)
                     else repeat 0 60%nat).

(** The state of the global generators at the start of a run: every
    standard normal draw of numpy's global generator is [z]. *)
Definition start (base : Z) (arrivals : list Z) (z : Q) : @rand_state (source base arrivals) :=
  @Build_rand_state (source base arrivals) halves (repeat z 4000).

Definition shops : Activity.characteristics :=
  {| Activity.c_name := "Shops"; Activity.c_popularity := 5; Activity.c_mean_time := 10 |}.

Definition coaster : Attraction.characteristics :=
  {| Attraction.c_name := "Coaster"; Attraction.c_run_time := 10;
     Attraction.c_hourly_throughput := 60; Attraction.c_popularity := 10;
     Attraction.c_child_eligible := true; Attraction.c_adult_eligible := true;
     Attraction.c_expedited_queue := false;
     Attraction.c_expedited_queue_ratio := 0 |}.

Definition express : Attraction.characteristics :=
  {| Attraction.c_name := "Express"; Attraction.c_run_time := 5;
     Attraction.c_hourly_throughput := 24; Attraction.c_popularity := 10;
     Attraction.c_child_eligible := true; Attraction.c_adult_eligible := true;
     Attraction.c_expedited_queue := true;
     Attraction.c_expedited_queue_ratio := (1 # 2) |}.

Definition enthusiasts : dict string Z := [("ride_enthusiast", 100)]%string.

(** A park built by the four generators. *)
Definition build (arrivals : list Z) (attraction_list : list Attraction.characteristics)
    (activity_list : list Activity.characteristics) (seed : Z)
    (arrival_seed : dict string Z) (total : Z) (perfect : bool)
    : M (H := source seed arrivals) Park.t :=
  p ← Park.generate_arrival_schedule arrival_seed total perfect
         (Park.init attraction_list activity_list seed);
  p ← Park.generate_agents enthusiasts 1 0 1 p;
  p ← lift (Park.generate_attractions p);
  lift (Park.generate_activities p).

(** The park after [n] minutes. *)
Definition run (arrivals : list Z) (attraction_list : list Attraction.characteristics)
    (activity_list : list Activity.characteristics) (seed : Z)
    (arrival_seed : dict string Z) (total : Z) (n : nat) (z : Q)
    : Result (Park.t * rand_state) :=
  (p ← build arrivals attraction_list activity_list seed arrival_seed total false;
   Park.steps 100 n p) (start seed arrivals z).

(** Opening hours: all arrivals in the first hour, then nine hours
    without arrivals. *)
Definition ten_hours : dict string Z :=
  [ ("h0", 100); ("h1", 0); ("h2", 0); ("h3", 0); ("h4", 0);
    ("h5", 0); ("h6", 0); ("h7", 0); ("h8", 0); ("h9", 0) ]%string.

(** Opening hours: arrivals in the first two hours, closed in the
    third. *)
Definition two_hours : dict string Z := [ ("h0", 50); ("h1", 50); ("h2", 0) ]%string.

(** Opening hours without an hour of zero arrivals. *)
Definition one_hour : dict string Z := [ ("h0", 100) ]%string.

(** An enthusiast who arrived at minute 0 and idles at the gate. *)
Definition visitor (seed : Z) : Agent.t :=
  {| Agent.agent_id := 0;
     Agent.random_seed := seed;
     Agent.st := {| Agent.arrival_time := Some 0; Agent.exit_time := None;
                    Agent.within_park := true;
                    Agent.current_location := Some "gate"%string;
                    Agent.current_action := Some Agent.idling;
                    Agent.time_spent_at_current_location := 0;
                    Agent.expedited_return_time := [];
                    Agent.expedited_pass := [];
                    Agent.expedited_pass_ability := true;
                    Agent.exp_wait_threshold := 0;
                    Agent.exp_limit := 1;
                    Agent.attractions := [("Coaster", 0)]%string;
                    Agent.activities := [("Shops", (0, 0))]%string;
                    Agent.age := Agent.no_adult_rides |};
     Agent.bhv := {| Agent.archetype := "ride_enthusiast";
                     Agent.stay_time_preference := 540;
                     Agent.allow_repeats := true;
                     Agent.attraction_preference := (6 # 10);
                     Agent.wait_threshold := 480 |} |}.

(** The coaster with 25 agents in its standby queue and [remaining]
    minutes left in the current run. *)
Definition coaster_queue (remaining : Z) : Attraction.t :=
  Attraction.set_run_time_remaining remaining
    (Attraction.set_queue (seq 0 25) (Attraction.initialize_attraction coaster)).

Definition park_of {A} (r : Result (Park.t * A)) : Park.t :=
  match r with
  | Ok (p, _) => p
  | Raise _ => Park.init [] [] 0
  end.

(** Six agents arrive in the first minute at a park with the express
    ride and the shops; the park after eight minutes, its ride and its
    first agent, who holds a pass for the ride. *)
Definition busy : Result (Park.t * rand_state) :=
  run [6] [express] [shops] 0 two_hours 6 8 1.

Definition busy_ride : Attraction.t :=
  default (Attraction.initialize_attraction express)
    (dict_get "Express"%string (Park.attractions (park_of busy))).

Definition busy_agent : Agent.t :=
  default (visitor 0) (Park.agents (park_of busy) !! 0%nat).

(** One agent arrives in the second minute at a park whose opening
    hours have no hour of zero arrivals. *)
Definition unclosed (n : nat) : Result (Park.t * rand_state) :=
  run [0; 1] [coaster] [shops] 0 one_hour 1 n 1.

End Scenario.

(** ** Cases of the methods *)

Module Cases.

(** The express ride when a run completes: two riders, three agents in
    the expedited queue and four in the standby queue. *)
Definition express_ready : Attraction.t :=
  Attraction.set_agents_in_attraction [8; 9]%nat
    (Attraction.set_exp_queue [1; 2; 3]%nat
       (Attraction.set_queue [4; 5; 6; 7]%nat
          (Attraction.initialize_attraction Scenario.express))).

(** An attraction without a seat: its hourly throughput is zero. *)
Definition no_seats : Attraction.t :=
  Attraction.initialize_attraction
    {| Attraction.c_name := "Carousel"; Attraction.c_run_time := 5;
       Attraction.c_hourly_throughput := 0; Attraction.c_popularity := 1;
       Attraction.c_child_eligible := true; Attraction.c_adult_eligible := true;
       Attraction.c_expedited_queue := true;
       Attraction.c_expedited_queue_ratio := (1 # 2) |}.

(** A ride of two seats that gives a twentieth of them to the expedited
    queue. *)
Definition rapids : Attraction.characteristics :=
  {| Attraction.c_name := "Rapids"; Attraction.c_run_time := 5;
     Attraction.c_hourly_throughput := 24; Attraction.c_popularity := 3;
     Attraction.c_child_eligible := true; Attraction.c_adult_eligible := true;
     Attraction.c_expedited_queue := true;
     Attraction.c_expedited_queue_ratio := (1 # 20) |}.

(** That ride with three agents in its expedited queue. *)
Definition rapids_queue : Attraction.t :=
  Attraction.set_exp_queue [1; 2; 3]%nat (Attraction.initialize_attraction rapids).

(** The shops with three visitors: the first and the last have no time
    left. *)
Definition shoppers : Activity.t :=
  Activity.set_visitors [4; 7; 9]%nat [0; 3; 0]
    (Activity.initialize_activity Scenario.shops (Some 0)).

Definition stalls : dict string Activity.t := [("Shops"%string, shoppers)].

(** An enthusiast who holds a pass for the express ride and one for the
    rapids. *)
Definition holder : Agent.t :=
  Agent.with_state
    (Agent.set_expedited_return_time [12; 30]
       (Agent.set_expedited_pass ["Express"; "Rapids"]%string
          (Agent.st (Scenario.visitor 0))))
    (Scenario.visitor 0).

(** A park whose only agent is that holder, who stands in the expedited
    queue of both rides. *)
Definition lobby : Park.t :=
  Park.set_agents [holder]
    (Park.set_attractions
       [("Express"%string,
         Attraction.set_exp_queue [0%nat] (Attraction.initialize_attraction Scenario.express));
        ("Rapids"%string,
         Attraction.set_exp_queue [0%nat] (Attraction.initialize_attraction rapids))]
       (Park.init [Scenario.express; rapids] [Scenario.shops] 0)).

(** The park of the busy scenario when it opens. *)
Definition opening : Park.t :=
  Scenario.park_of
    (Scenario.run [6] [Scenario.express] [Scenario.shops] 0 Scenario.two_hours 6 0 1).

(** A park with three scheduled arrivals and no agent yet. *)
Definition planned : Park.t :=
  Park.set_schedule [(0, 2); (1, 1)] (Park.init [Scenario.coaster] [Scenario.shops] 0).

(** A slow ride of two seats with an expedited queue. *)
Definition falls : Attraction.characteristics :=
  {| Attraction.c_name := "Falls"; Attraction.c_run_time := 20;
     Attraction.c_hourly_throughput := 6; Attraction.c_popularity := 4;
     Attraction.c_child_eligible := true; Attraction.c_adult_eligible := true;
     Attraction.c_expedited_queue := true;
     Attraction.c_expedited_queue_ratio := (1 # 2) |}.

(** Six agents, who may hold two passes each, arrive in the first minute
    at a park with the express ride, the falls and the shops: the park
    after [n] minutes. *)
Definition tour (n : nat) : Result (Park.t * @rand_state (Scenario.source 0 [6])) :=
  (p ← Park.generate_arrival_schedule (H := Scenario.source 0 [6]) Scenario.two_hours 6 false
         (Park.init [Scenario.express; falls] [Scenario.shops] 0);
   p ← Park.generate_agents Scenario.enthusiasts 1 0 2 p;
   p ← lift (Park.generate_attractions p);
   p ← lift (Park.generate_activities p);
   Park.steps 100 n p) (Scenario.start 0 [6] 1).

(** That park after eight minutes and its first agent, who holds a pass
    for each ride. *)
Definition touring : Park.t := Scenario.park_of (tour 8).

Definition tourist : Agent.t :=
  default (Scenario.visitor 0) (Park.agents touring !! 0%nat).

(** An enthusiast who arrived at minute [arrival] and idles at the gate
    with the given passes and countdowns. *)
Definition idler (agent_id : nat) (arrival : Z) (passes : list string) (times : list Z)
    : Agent.t :=
  {| Agent.agent_id := agent_id;
     Agent.random_seed := 0;
     Agent.st :=
       Agent.set_attractions [("Express"%string, 0)]
         (Agent.set_presence true (Some arrival) None
            (Agent.set_expedited_return_time times
               (Agent.set_expedited_pass passes (Agent.st (Scenario.visitor 0)))));
     Agent.bhv := Agent.bhv (Scenario.visitor 0) |}.

(** The express ride in the middle of a run, with no pass left to issue
    and agent 0 in its expedited queue. *)
Definition express_closed : Attraction.t :=
  Attraction.set_run_time_remaining 3
    (Attraction.set_exp_queue_passes_distributed 1
       (Attraction.set_exp_queue [0%nat]
          (Attraction.initialize_attraction Scenario.express))).

(** A park at minute 600, closed since minute 60: agent 0, who arrived
    at minute 0, holds a pass for the express ride; agent 1 arrived at
    minute 590 and holds none. *)
Definition after_hours : Park.t :=
  Park.set_park_close (Some 60)
    (Park.set_clock 600 2
       (Park.set_schedule [(600, 0)]
          (Park.set_agents [idler 0 0 ["Express"%string] [5]; idler 1 590 [] []]
             (Park.set_activities
                [("Shops"%string, Activity.initialize_activity Scenario.shops (Some 0))]
                (Park.set_attractions [("Express"%string, express_closed)]
                   (Park.init [Scenario.express] [Scenario.shops] 0)))))).

(** The budget of issuable passes of an attraction of the park. *)
Definition budget (name : string) (p : Park.t) : option Q :=
  Attraction.exp_queue_passes <$> dict_get name (Park.attractions p).

End Cases.

(** * Properties *)

(** ** Results and the monad *)

Lemma bind_Ok {A B} (f : A → Result B) (m : Result A) (b : B) :
  m ≫= f = Ok b → ∃ a, m = Ok a ∧ f a = Ok b.
Proof. destruct m as [a|e]; simpl; [eauto | discriminate]. Qed.

Lemma or_raise_Ok {A} (e : PyError) (o : option A) (a : A) :
  or_raise e o = Ok a → o = Some a.
Proof. destruct o; simpl; congruence. Qed.

Lemma dict_item_Ok `{EqDecision K} {V} (k : K) (d : dict K V) (v : V) :
  dict_item k d = Ok v → dict_get k d = Some v.
Proof. apply or_raise_Ok. Qed.

Section MonadFacts.
Context `{RandomSource}.

Lemma M_bind_Ok {A B} (f : A → M B) (m : M A) s b s' :
  (m ≫= f) s = Ok (b, s') → ∃ a s1, m s = Ok (a, s1) ∧ f a s1 = Ok (b, s').
Proof.
  unfold mbind, M_bind. destruct (m s) as [[a s1]|e]; [eauto | discriminate].
Qed.

Lemma lift_Ok {A} (r : Result A) s a s' :
  lift r s = Ok (a, s') → r = Ok a ∧ s' = s.
Proof. unfold lift. destruct r; intros [= -> ->] || discriminate. auto. Qed.

Lemma mret_Ok {A} (x : A) s a s' :
  mret (M := M) x s = Ok (a, s') → a = x ∧ s' = s.
Proof. unfold mret, M_ret. intros [= -> ->]. auto. Qed.

Lemma raise_Ok {A} e s (r : A * rand_state) : raise e s = Ok r → False.
Proof. discriminate. Qed.

Lemma foldM_inv {A B} (P : B → Prop) (f : B → A → M B) (l : list A) :
  (∀ b x s b' s', P b → x ∈ l → f b x s = Ok (b', s') → P b') →
  ∀ b s b' s', P b → foldM f b l s = Ok (b', s') → P b'.
Proof.
  induction l as [|x l IH]; intros Hf b s b' s' Hb Hr; simpl in Hr.
  - apply mret_Ok in Hr as [-> _]. done.
  - apply M_bind_Ok in Hr as (b1 & s1 & H1 & H2).
    eapply IH; [| |exact H2].
    + intros; eapply Hf; eauto. by right.
    + eapply Hf; eauto. by left.
Qed.

End MonadFacts.

Lemma foldR_inv {A B} (P : B → Prop) (f : B → A → Result B) (l : list A) :
  (∀ b x b', P b → x ∈ l → f b x = Ok b' → P b') →
  ∀ b b', P b → foldR f b l = Ok b' → P b'.
Proof.
  induction l as [|x l IH]; intros Hf b b' Hb Hr; simpl in Hr.
  - by injection Hr as <-.
  - apply bind_Ok in Hr as (b1 & H1 & H2).
    eapply IH; [| |exact H2].
    + intros; eapply Hf; eauto. by right.
    + eapply Hf; eauto. by left.
Qed.

(** Inversion of a successful computation, one bind at a time. *)
Ltac inv_ok H :=
  let a := fresh "x" in
  let s := fresh "s" in
  let H1 := fresh "E" in
  first
    [ apply M_bind_Ok in H as (a & s & H1 & H)
    | apply bind_Ok in H as (a & H1 & H) ].

(** ** Numbers *)

Lemma Qlt_bool_iff (a b : Q) : Qlt_bool a b = true ↔ (a < b)%Q.
Proof.
  unfold Qlt_bool. rewrite negb_true_iff. split.
  - intros Hf. apply Qnot_le_lt. intros Hle. apply Qle_bool_iff in Hle. congruence.
  - intros Hlt. destruct (Qle_bool b a) eqn:E; [|done].
    apply Qle_bool_iff in E. exfalso. by apply (Qlt_not_le a b).
Qed.

Lemma Qlt_bool_false (a b : Q) : Qlt_bool a b = false ↔ (b <= a)%Q.
Proof.
  unfold Qlt_bool. rewrite negb_false_iff. apply Qle_bool_iff.
Qed.

(** [int(x)] is the floor of a float that is not negative. *)
Lemma py_int_floor (x : Q) : (0 <= x)%Q → py_int x = Qfloor x.
Proof.
  destruct x as [n d]. unfold Qle, py_int, Qfloor. simpl. intros Hn.
  rewrite Z.quot_div_nonneg; lia.
Qed.

Lemma py_int_nonneg (x : Q) : (0 <= x)%Q → 0 ≤ py_int x.
Proof.
  intros Hx. rewrite py_int_floor by done.
  change 0 with (Qfloor 0). by apply Qfloor_resp_le.
Qed.

Lemma py_int_le (x : Q) : (0 <= x)%Q → (inject_Z (py_int x) <= x)%Q.
Proof. intros Hx. rewrite py_int_floor by done. apply Qfloor_le. Qed.

(** ** Wait times of an attraction without an expedited queue *)

Lemma py_floordiv_Ok (a b : Q) :
  ¬ (b == 0)%Q → py_floordiv a b = Ok (inject_Z (Qfloor (a / b))).
Proof.
  intros Hb. unfold py_floordiv.
  destruct (Qeq_bool b 0) eqn:E; [|done].
  apply Qeq_bool_iff in E. contradiction.
Qed.

Lemma py_floordiv_zero (a b : Q) :
  (b == 0)%Q → py_floordiv a b = Raise ZeroDivisionError.
Proof.
  intros Hb. unfold py_floordiv. apply Qeq_bool_iff in Hb. by rewrite Hb.
Qed.

(** The capacity of an attraction with a run of 10 minutes and an hourly
    throughput of 60 is 10. *)
Lemma capacity_10_60 (c : Attraction.characteristics) :
  Attraction.c_run_time c = 10 → Attraction.c_hourly_throughput c = 60 →
  (Attraction.capacity (Attraction.initialize_attraction c) == 10)%Q.
Proof. intros Hr Ht. simpl. rewrite Hr, Ht. reflexivity. Qed.

(** C7. Without an expedited queue, [get_wait_time] returns
    (standby_queue_length // capacity) × run_time + run_time_remaining
    (the floor division is defined when the capacity is not zero); for an
    attraction built with run_time 10 and hourly_throughput 60, whose
    capacity is 10, and a standby queue of 25 agents, this is 20 plus
    the current run_time_remaining. *)
Theorem get_wait_time_standby_only :
  (∀ (fuel : nat) (a : Attraction.t),
     Attraction.expedited_queue a = false →
     ¬ (Attraction.capacity a == 0)%Q →
     ∃ w, Attraction.get_wait_time fuel a = Ok w
          ∧ (w == inject_Z (Qfloor (inject_Z (len (Attraction.queue a))
                                    / Attraction.capacity a))
                  * inject_Z (Attraction.run_time a)
                  + inject_Z (Attraction.run_time_remaining a))%Q)
  ∧ (∀ (fuel : nat) (c : Attraction.characteristics) (a : Attraction.t),
       Attraction.c_run_time c = 10 →
       Attraction.c_hourly_throughput c = 60 →
       Attraction.c_expedited_queue c = false →
       same_characteristics (Attraction.initialize_attraction c) a →
       length (Attraction.queue a) = 25%nat →
       ∃ w, Attraction.get_wait_time fuel a = Ok w
            ∧ (w == 20 + inject_Z (Attraction.run_time_remaining a))%Q).
Proof.
  assert (Hgen : ∀ (fuel : nat) (a : Attraction.t),
     Attraction.expedited_queue a = false →
     ¬ (Attraction.capacity a == 0)%Q →
     ∃ w, Attraction.get_wait_time fuel a = Ok w
          ∧ (w == inject_Z (Qfloor (inject_Z (len (Attraction.queue a))
                                    / Attraction.capacity a))
                  * inject_Z (Attraction.run_time a)
                  + inject_Z (Attraction.run_time_remaining a))%Q).
  { intros fuel a He Hc. unfold Attraction.get_wait_time. rewrite He.
    rewrite py_floordiv_Ok by done. simpl. eexists; split; reflexivity. }
  split; [exact Hgen|].
  intros fuel c a Hr Ht He (_ & Hrun & Hcap & _ & _ & _ & Hexp & _) Hlen.
  assert (Hc10 : (Attraction.capacity a == 10)%Q).
  { rewrite <- Hcap. by apply capacity_10_60. }
  destruct (Hgen fuel a) as (w & Hw & Heq).
  - rewrite <- Hexp. exact He.
  - rewrite Hc10. discriminate.
  - exists w. split; [exact Hw|]. rewrite Heq.
    unfold len. rewrite Hlen, <- Hrun. simpl Attraction.run_time. rewrite Hr.
    assert (Hfl : Qfloor (inject_Z (Z.of_nat 25) / Attraction.capacity a) = 2).
    { rewrite Hc10. reflexivity. }
    rewrite Hfl. reflexivity.
Qed.

(** C8. Without an expedited queue, [get_exp_wait_time] returns 0 in
    every state. *)
Theorem get_exp_wait_time_without_expedited_queue (fuel : nat) (a : Attraction.t) :
  Attraction.expedited_queue a = false →
  Attraction.get_exp_wait_time fuel a = Ok 0.
Proof. intros He. unfold Attraction.get_exp_wait_time. by rewrite He. Qed.

(** ** The expedited-pass budget *)

Lemma run_cycle_exp_queue_passes (a : Attraction.t) :
  Attraction.exp_queue_passes (Attraction.run_cycle a).1 = Attraction.exp_queue_passes a.
Proof. unfold Attraction.run_cycle. by destruct (_ =? _). Qed.

(** C5, amended. With an expedited queue and at or after closing,
    [step] returns and leaves the budget of issuable passes at 0. *)
Theorem step_after_close_budget_zero (a : Attraction.t) (time park_close : Z) :
  Attraction.expedited_queue a = true →
  park_close ≤ time →
  ∃ a' out, Attraction.step time (Some park_close) a = Ok (a', out)
            ∧ Attraction.exp_queue_passes a' = 0%Q.
Proof.
  intros He Hle. unfold Attraction.step, Attraction.refresh_passes.
  rewrite He. simpl.
  destruct (time <? park_close) eqn:E; [apply Z.ltb_lt in E; lia|].
  simpl. destruct (Attraction.run_cycle _) as [a' out] eqn:Hc.
  exists a', out. split; [done|].
  change a' with (a', out).1. rewrite <- Hc.
  by rewrite run_cycle_exp_queue_passes.
Qed.

(** C5, as stated, fails: the budget does not stay at 0 after closing.
    At minute 600 of a park closed since minute 60, the budget of the
    express ride is 0; agent 0 leaves and hands back its pass, which
    makes the budget 1, and in the same minute agent 1 is issued that
    pass. *)
Lemma budget_positive_after_closing :
  Park.park_close Cases.after_hours = Some 60
  ∧ Park.time Cases.after_hours = 600
  ∧ Cases.budget "Express" Cases.after_hours = Some 0%Q
  ∧ Cases.budget "Express"
      <$> value (Park.update_park_state (H := Scenario.source 0 []) 100 0
                   (Some Agent.leaving) (Some "gate"%string) 600 Cases.after_hours
                   (Scenario.start 0 [] 0))
    = Ok (Some 1%Q)
  ∧ (fun p => (pass_countdowns <$> Park.agents p, Park.distributed_passes (Park.hist p)))
      <$> value (Park.step (H := Scenario.source 0 []) 100 Cases.after_hours
                   (Scenario.start 0 [] 0))
    = Ok ([[]; [("Express"%string, 2)]],
          Park.distributed_passes (Park.hist Cases.after_hours) + 1).
Proof. repeat split; vm_compute; reflexivity. Qed.

(** ** The stay at an activity *)

Lemma list_min_le (d : Z) (ds : list Z) :
  Activity.list_min d ds ≤ d ∧ ∀ x, x ∈ ds → Activity.list_min d ds ≤ x.
Proof.
  unfold Activity.list_min. revert d.
  induction ds as [|y ds IH]; intros d; simpl.
  - split; [lia|]. intros x Hx. by apply elem_of_nil in Hx.
  - destruct (IH (d `min` y)) as [H1 H2]. split; [lia|].
    intros x Hx. apply elem_of_cons in Hx as [->|Hx]; [lia|by apply H2].
Qed.

Lemma list_min_elem_of (d : Z) (ds : list Z) : Activity.list_min d ds ∈ d :: ds.
Proof.
  unfold Activity.list_min. revert d.
  induction ds as [|y ds IH]; intros d; simpl; [by left|].
  specialize (IH (d `min` y)). apply elem_of_cons in IH as [Heq|Hin].
  - rewrite Heq. destruct (Z.min_spec d y) as [[_ ->]|[_ ->]]; [by left|right; by left].
  - right. by right.
Qed.

Lemma py_int_max_1 (x : Q) : 1 ≤ py_int (Qmax_py x 1).
Proof.
  assert (Hge : (1 <= Qmax_py x 1)%Q).
  { unfold Qmax_py. destruct (Qlt_bool x 1) eqn:E; [apply Qle_refl|].
    by apply Qlt_bool_false in E. }
  rewrite py_int_floor.
  - change 1 with (Qfloor 1) at 1. by apply Qfloor_resp_le.
  - eapply Qle_trans; [|exact Hge]. discriminate.
Qed.

Section StayTime.
Context `{RandomSource}.

Lemma draw_stay_time_ge_1 (agent_id : nat) (a : Activity.t) s stay s' :
  Activity.draw_stay_time agent_id a s = Ok (stay, s') → 1 ≤ stay.
Proof.
  unfold Activity.draw_stay_time. intros Hd.
  destruct (Activity.seed_is_set _).
  - inv_ok Hd. inv_ok Hd. apply mret_Ok in Hd as [-> _]. apply py_int_max_1.
  - inv_ok Hd. apply mret_Ok in Hd as [-> _]. apply py_int_max_1.
Qed.

(** C6, amended. When the agent holds return deadlines, the recorded
    stay is min(drawn stay, max(1, soonest)), where soonest is the
    minimum of all held deadlines: it is at least 1 and at most
    max(1, d) for every held deadline d, hence at most the soonest
    positive deadline; a held deadline that is zero or negative makes
    the stay 1 minute. *)
Theorem add_to_activity_stay_capped (agent_id : nat) (deadlines : list Z)
    (a : Activity.t) s a' s' :
  deadlines ≠ [] →
  Activity.add_to_activity agent_id deadlines a s = Ok (a', s') →
  ∃ drawn soonest stay,
    Activity.draw_stay_time agent_id a s = Ok (drawn, s')
    ∧ soonest ∈ deadlines
    ∧ (∀ d, d ∈ deadlines → soonest ≤ d)
    ∧ stay = Z.min drawn (Z.max 1 soonest)
    ∧ Activity.visitors a' = Activity.visitors a ++ [agent_id]
    ∧ Activity.visitor_time_remaining a' = Activity.visitor_time_remaining a ++ [stay]
    ∧ 1 ≤ stay
    ∧ (∀ d, d ∈ deadlines → stay ≤ Z.max 1 d)
    ∧ ((∃ d, d ∈ deadlines ∧ d ≤ 0) → stay = 1).
Proof.
  intros Hne Ha. unfold Activity.add_to_activity in Ha.
  inv_ok Ha. apply mret_Ok in Ha as [-> <-].
  pose proof (draw_stay_time_ge_1 _ _ _ _ _ E) as Hge.
  destruct deadlines as [|d ds]; [done|].
  exists x, (Activity.list_min d ds), (Activity.cap_stay_time (d :: ds) x). simpl.
  destruct (list_min_le d ds) as [H1 H2].
  assert (Hall : ∀ y, y ∈ d :: ds → Activity.list_min d ds ≤ y).
  { intros y Hy. apply elem_of_cons in Hy as [->|Hy]; [done|by apply H2]. }
  split; [done|]. split; [apply list_min_elem_of|]. split; [exact Hall|].
  split; [lia|]. split; [done|]. split; [done|]. split; [lia|]. split.
  - intros y Hy. specialize (Hall y Hy). lia.
  - intros (y & Hy & Hle). specialize (Hall y Hy). lia.
Qed.

End StayTime.

(** C6, as stated, fails: with the deadlines -5 and 30 and a drawn stay
    of 20 minutes, the soonest positive deadline is 30 but the recorded
    stay is 1, not 20. *)
Lemma add_to_activity_negative_deadline_caps :
  let a := Activity.initialize_activity Scenario.shops (Some 0) in
  let r := Activity.add_to_activity (H := Scenario.source 0 []) 3 [-5; 30] a
             (Scenario.start 0 [] 2) in
  value (Activity.draw_stay_time (H := Scenario.source 0 []) 3 a (Scenario.start 0 [] 2))
    = Ok 20
  ∧ (Activity.visitor_time_remaining <$> value r) = Ok [1]
  ∧ soonest_positive [-5; 30] = Some 30
  ∧ ¬ capped_by_positive_deadlines [-5; 30] 20 1.
Proof.
  repeat split; try reflexivity.
  intros Hc. specialize (Hc 30 eq_refl). discriminate.
Qed.

(** ** The decision of an idle agent when the park has closed *)

Section ClosedPark.
Context `{RandomSource}.

(** [make_state_change_decision] does not depend on [park_closed]. *)
Lemma make_state_change_decision_ignores_park_closed (fuel : nat) (a : Agent.t)
    (attractions_dict : dict string Attraction.t)
    (activities_dict : dict string Activity.t) (time : Z) (park_closed : bool) :
  Agent.make_state_change_decision fuel a attractions_dict activities_dict time park_closed
  = Agent.make_state_change_decision fuel a attractions_dict activities_dict time false.
Proof. unfold Agent.make_state_change_decision. by destruct park_closed. Qed.

End ClosedPark.

(** C1 fails on the code. An idle agent who arrived at minute 0 and
    prefers to stay 540 minutes decides at minute 60, in a closed park
    and with a leave draw of 0, to travel to the shops. *)
Theorem closed_park_agent_keeps_visiting :
  let activities := [("Shops"%string, Activity.initialize_activity Scenario.shops (Some 7))] in
  Agent.decide_to_leave_park (H := Scenario.source 7 []) 60 (Scenario.visitor 7)
    = Ok (None, None)
  ∧ value (Agent.make_state_change_decision (H := Scenario.source 7 []) 100
             (Scenario.visitor 7) [] activities 60 true (Scenario.start 7 [] 0))
    = Ok (Some Agent.traveling, Some "Shops"%string).
Proof. split; reflexivity. Qed.

(** ** The arrival schedule *)

(** C4 fails on the code. With all arrivals in one hour, a daily total of
    1 and exact arrivals requested, a Poisson sample of sixty zeros makes
    [generate_arrival_schedule] raise [IndexError]: no minute has a
    positive count to choose from. *)
Theorem generate_arrival_schedule_empty_choice :
  np_seeded_poisson (RandomSource := Scenario.source 0 []) 0 (1 # 60) = repeat 0 60%nat
  ∧ Park.generate_arrival_schedule (H := Scenario.source 0 []) Scenario.one_hour 1 true
      (Park.init [] [] 0) (Scenario.start 0 [] 0)
    = Raise IndexError.
Proof. split; reflexivity. Qed.

(** ** Reproducibility and the base seed *)

Section Seeds.
Context `{RandomSource}.

(** With a seed other than 0 the stay is a function of the seed and of
    the agent: numpy's global generator is not read. *)
Lemma draw_stay_time_seeded (agent_id : nat) (a : Activity.t) (seed : Z) s1 s2 :
  Activity.random_seed a = Some seed → seed ≠ 0 →
  value (Activity.draw_stay_time agent_id a s1)
  = value (Activity.draw_stay_time agent_id a s2).
Proof.
  intros Hs Hne. unfold Activity.draw_stay_time, Activity.seed_is_set.
  rewrite Hs. destruct (seed =? 0) eqn:E; [apply Z.eqb_eq in E; done|]. simpl.
  unfold mbind, M_bind, lift.
  destruct (default_rng _); [|done].
  destruct (rng_normal _ _ _); done.
Qed.

(** With the seed 0 the stay is drawn from numpy's global generator. *)
Lemma draw_stay_time_seed_zero (agent_id : nat) (a : Activity.t) s :
  Activity.random_seed a = Some 0 →
  Activity.draw_stay_time agent_id a s
  = (x ← np_random_normal (Activity.mean_time a) (Activity.mean_time a / 2);
     mret (py_int (Qmax_py x 1))) s.
Proof. intros Hs. unfold Activity.draw_stay_time. by rewrite Hs. Qed.

End Seeds.

(** C3 fails on the code for the base seed 0. Two runs of the same park
    (one activity, one agent arriving at minute 0, base seed 0) from the
    same state of Python's generator differ in the draws of numpy's
    global generator only; after 545 minutes the agent is still in the
    park at minute 544 in one run and has left in the other. *)
Theorem seed_zero_runs_differ :
  let run z := Scenario.run [1] [] [Scenario.shops] 0 Scenario.ten_hours 1 545 z in
  let active r := Park.total_active_agents (Park.hist (Scenario.park_of r)) !! 544 in
  is_Ok (run (-9 # 10)%Q) = true ∧ is_Ok (run 1%Q) = true
  ∧ active (run (-9 # 10)%Q) = Some 1 ∧ active (run 1%Q) = Some 0.
Proof. vm_compute. repeat split; reflexivity. Qed.

(** ** Seats and capacity *)

Lemma len_app {A} (l k : list A) : len (l ++ k) = len l + len k.
Proof. unfold len. rewrite length_app. lia. Qed.

Lemma slice_to_from {A} (n : Z) (l : list A) : slice_to n l ++ slice_from n l = l.
Proof. apply take_drop. Qed.

Lemma len_slice_to {A} (n : Z) (l : list A) :
  0 ≤ n → len (slice_to n l) ≤ n ∧ len (slice_to n l) ≤ len l.
Proof.
  intros Hn. unfold slice_to, slice_stop, len.
  destruct (n <? 0) eqn:E; [apply Z.ltb_lt in E; lia|].
  rewrite length_take. lia.
Qed.

Lemma ratio_seats (cap r : Q) :
  (0 <= cap)%Q → (0 <= r)%Q → (r <= 1)%Q → (0 <= cap * r)%Q ∧ (cap * r <= cap)%Q.
Proof. intros. split; nra. Qed.

Lemma Zle_Qle_inj (x y : Z) : x ≤ y → (inject_Z x <= inject_Z y)%Q.
Proof. intros Hxy. by rewrite <- Zle_Qle. Qed.

(** The load of a completed run. *)
Lemma load_bounds (a : Attraction.t) :
  well_formed a →
  len (Attraction.expedited_agents_to_load a)
    ≤ Qfloor (Attraction.capacity a * Attraction.exp_queue_ratio a)
  ∧ (inject_Z (len (Attraction.expedited_agents_to_load a ++ Attraction.agents_to_load a))
     <= Attraction.capacity a)%Q.
Proof.
  intros (Hcap & Hr0 & Hr1).
  destruct (ratio_seats _ _ Hcap Hr0 Hr1) as [Hs0 Hs1].
  set (m := Attraction.max_exp_queue_agents a).
  assert (Hm0 : 0 ≤ m) by (by apply py_int_nonneg).
  assert (Hmf : m = Qfloor (Attraction.capacity a * Attraction.exp_queue_ratio a))
    by (by apply py_int_floor).
  assert (Hmq : (inject_Z m <= Attraction.capacity a)%Q).
  { eapply Qle_trans; [apply py_int_le; exact Hs0|exact Hs1]. }
  destruct (len_slice_to m (Attraction.exp_queue a) Hm0) as [He1 He2].
  unfold Attraction.expedited_agents_to_load. fold m.
  split; [by rewrite <- Hmf|].
  rewrite len_app, inject_Z_plus.
  unfold Attraction.agents_to_load, Attraction.max_queue_agents. fold m.
  destruct (len (Attraction.exp_queue a) <? m) eqn:E.
  - apply Z.ltb_lt in E.
    set (y := (Attraction.capacity a - inject_Z (len (Attraction.exp_queue a)))%Q).
    assert (Hy : (0 <= y)%Q).
    { unfold y. apply Zle_Qle_inj in He2.
      assert ((inject_Z (len (Attraction.exp_queue a)) <= inject_Z m)%Q)
        by (apply Zle_Qle_inj; lia).
      lra. }
    destruct (len_slice_to (py_int y) (Attraction.queue a) (py_int_nonneg y Hy)) as [Hq _].
    apply Zle_Qle_inj in Hq. apply Zle_Qle_inj in He2.
    pose proof (py_int_le y Hy). unfold y in *. lra.
  - apply Z.ltb_ge in E.
    set (y := (Attraction.capacity a - inject_Z m)%Q).
    assert (Hy : (0 <= y)%Q) by (unfold y; lra).
    destruct (len_slice_to (py_int y) (Attraction.queue a) (py_int_nonneg y Hy)) as [Hq _].
    apply Zle_Qle_inj in Hq. apply Zle_Qle_inj in He1.
    pose proof (py_int_le y Hy). unfold y in *. lra.
Qed.

(** No method but [step] writes the occupants, and none writes the
    capacity or the ratio. *)
Lemma seats_respected_ext (a b : Attraction.t) :
  Attraction.capacity b = Attraction.capacity a →
  Attraction.exp_queue_ratio b = Attraction.exp_queue_ratio a →
  Attraction.agents_in_attraction b = Attraction.agents_in_attraction a →
  seats_respected a → seats_respected b.
Proof.
  unfold seats_respected, well_formed, occupancy_ok.
  intros -> -> ->. done.
Qed.

Lemma add_to_queue_seats agent_id a :
  seats_respected a → seats_respected (Attraction.add_to_queue agent_id a).
Proof. by apply seats_respected_ext. Qed.

Lemma remove_pass_seats a :
  seats_respected a → seats_respected (Attraction.remove_pass a).
Proof. by apply seats_respected_ext. Qed.

Lemma add_to_exp_queue_seats fuel agent_id a a' w :
  Attraction.add_to_exp_queue fuel agent_id a = Ok (a', w) →
  seats_respected a → seats_respected a'.
Proof.
  unfold Attraction.add_to_exp_queue. intros Hr. inv_ok Hr.
  injection Hr as <- _. by apply seats_respected_ext.
Qed.

Lemma return_pass_seats agent_id a a' :
  Attraction.return_pass agent_id a = Ok a' →
  seats_respected a → seats_respected a'.
Proof.
  unfold Attraction.return_pass. intros Hr. inv_ok Hr.
  injection Hr as <-. by apply seats_respected_ext.
Qed.

Lemma pass_time_seats a :
  seats_respected a → seats_respected (Attraction.pass_time a).
Proof. by apply seats_respected_ext. Qed.

Lemma store_history_seats fuel time a a' :
  Attraction.store_history fuel time a = Ok a' →
  seats_respected a → seats_respected a'.
Proof.
  unfold Attraction.store_history. intros Hr. inv_ok Hr. inv_ok Hr.
  injection Hr as <-. by apply seats_respected_ext.
Qed.

Lemma refresh_passes_fields time park_close a a' :
  Attraction.refresh_passes time park_close a = Ok a' →
  ∃ v, a' = Attraction.set_exp_queue_passes v a.
Proof.
  unfold Attraction.refresh_passes. intros Hr.
  destruct (Attraction.expedited_queue a).
  - inv_ok Hr. destruct (time <? x).
    + inv_ok Hr. injection Hr as <-. eauto.
    + injection Hr as <-. eauto.
  - injection Hr as <-. exists (Attraction.exp_queue_passes a). by destruct a.
Qed.

Lemma run_cycle_seats a :
  seats_respected a → seats_respected (Attraction.run_cycle a).1.
Proof.
  intros Ha. unfold Attraction.run_cycle.
  destruct (Attraction.run_time_remaining a =? 0); [|done].
  intros Hwf. unfold occupancy_ok. simpl.
  by apply (load_bounds a).
Qed.

Lemma step_seats time park_close a a' out :
  Attraction.step time park_close a = Ok (a', out) →
  seats_respected a → seats_respected a'.
Proof.
  unfold Attraction.step. intros Hr Ha. inv_ok Hr.
  apply refresh_passes_fields in E as [v ->].
  injection Hr as Hr. change a' with (a', out).1. rewrite <- Hr.
  apply run_cycle_seats. by apply (seats_respected_ext a).
Qed.

(** What a [step] moves. *)
Lemma step_load time park_close a a' exiting loaded :
  well_formed a →
  Attraction.step time park_close a = Ok (a', (exiting, loaded)) →
  ∃ from_exp from_standby,
    Attraction.exp_queue a = from_exp ++ Attraction.exp_queue a'
    ∧ Attraction.queue a = from_standby ++ Attraction.queue a'
    ∧ loaded = from_exp ++ from_standby
    ∧ len from_exp ≤ Qfloor (Attraction.capacity a * Attraction.exp_queue_ratio a)
    ∧ (Attraction.run_time_remaining a = 0 →
       Attraction.agents_in_attraction a' = loaded
       ∧ exiting = Attraction.agents_in_attraction a).
Proof.
  intros Hwf. unfold Attraction.step. intros Hr. inv_ok Hr.
  apply refresh_passes_fields in E as [v ->].
  pose proof (proj1 (load_bounds a Hwf)) as Hexp.
  assert (H0 : 0 ≤ Qfloor (Attraction.capacity a * Attraction.exp_queue_ratio a)).
  { destruct Hwf as (Hc & Hr0 & Hr1).
    change 0 with (Qfloor 0). apply Qfloor_resp_le. by apply ratio_seats. }
  remember (Qfloor (Attraction.capacity a * Attraction.exp_queue_ratio a)) as seats.
  injection Hr as Hr. revert Hr. unfold Attraction.run_cycle. simpl.
  destruct (Attraction.run_time_remaining a =? 0) eqn:E.
  - intros [= <- <- <-]. simpl.
    exists (Attraction.expedited_agents_to_load a), (Attraction.agents_to_load a).
    repeat split; [symmetry; apply slice_to_from ..|done].
  - intros [= <- <- <-]. exists [], []. apply Z.eqb_neq in E. done.
Qed.

(** ** The pass asked for by a decision *)

Lemma filterR_subseteq {A} (f : A → Result bool) (l l' : list A) :
  filterR f l = Ok l' → l' ⊆ l.
Proof.
  revert l'. induction l as [|x l IH]; intros l' Hr; simpl in Hr.
  - by injection Hr as <-.
  - inv_ok Hr. inv_ok Hr. injection Hr as <-.
    specialize (IH _ E0). destruct x0.
    + intros y [->|Hy]%elem_of_cons; [by left|right; by apply IH].
    + intros y Hy. right. by apply IH.
Qed.

Lemma list_remove_subseteq `{EqDecision A} (x : A) (l l' : list A) :
  list_remove x l = Ok l' → l' ⊆ l.
Proof.
  unfold list_remove. destruct (list_index x l); [|done].
  intros [= <-]. apply list_subseteq_delete.
Qed.

Lemma list_remove_length `{EqDecision A} (x : A) (l l' : list A) :
  list_remove x l = Ok l' → length l = S (length l').
Proof.
  unfold list_remove. destruct (list_index x l) as [i|] eqn:E; [|done].
  intros [= <-].
  assert (Hi : is_Some (l !! i)).
  { clear -E. revert i E. induction l as [|y l IH]; intros i E; [done|].
    simpl in E. destruct (decide (y = x)).
    - injection E as <-. by eexists.
    - destruct (list_index x l) as [j|] eqn:Ej; [|done].
      injection E as <-. by apply IH. }
  rewrite length_delete by done.
  apply lookup_lt_is_Some in Hi. lia.
Qed.

Lemma select_between_cases {K} (rng floor ceiling : Q) (distribution : list (K * Z))
    (desired : option K) (k : K) :
  Agent.select_between rng floor ceiling distribution desired = Some k →
  desired = Some k ∨ k ∈ distribution.*1.
Proof.
  revert floor ceiling desired.
  induction distribution as [|[k' w] d IH]; intros floor ceiling desired Hs; simpl in Hs.
  - by left.
  - apply IH in Hs as [Hs|Hs].
    + destruct (_ && _).
      * injection Hs as <-. right. simpl. by left.
      * by left.
    + right. simpl. by right.
Qed.

Section Decision.
Context `{RandomSource}.

(** The names a pass of the selection loop can choose are valid names
    or the name left by the previous pass. *)
Lemma select_attraction_loop_get_pass (P : string → Prop) (fuel : nat) (a : Agent.t)
    (attractions_dict : dict string Attraction.t) (attraction_wait_times : dict string Q) :
  ∀ (valid_attractions : list string) (desired : option string) s loc s',
    (∀ x, x ∈ valid_attractions → P x) →
    (∀ x, desired = Some x → P x) →
    Agent.select_attraction_loop fuel a attractions_dict attraction_wait_times
      valid_attractions desired s = Ok ((Some Agent.get_pass_, loc), s') →
    ∃ l, loc = Some l ∧ P l.
Proof.
  induction fuel as [|fuel IH]; intros valid desired s loc s' Hv Hd Hr.
  - destruct valid; simpl in Hr; [|done].
    apply mret_Ok in Hr as [[=] _].
  - destruct valid as [|v0 valid]; simpl in Hr.
    { apply mret_Ok in Hr as [[=] _]. }
    unfold Agent.select_attraction_pass in Hr.
    inv_ok Hr. inv_ok Hr. apply lift_Ok in E0 as [E0 ->].
    apply or_raise_Ok in E0.
    assert (HP : P x0).
    { apply select_between_cases in E0 as [E0|E0]; [by apply Hd|].
      apply Hv. apply list_elem_of_fmap in E0 as ([k w] & -> & Hk).
      apply list_elem_of_fmap in Hk as ([k' x'] & [= -> ->] & Hk).
      apply list_elem_of_filter in Hk as [Hk _]. exact Hk. }
    inv_ok Hr. inv_ok Hr.
    destruct x2.
    { apply mret_Ok in Hr as [[= ->] _]. eauto. }
    inv_ok Hr.
    assert (Hagain : ∀ t1,
      (lift (list_remove x0 (v0 :: valid)) ≫=
         (fun valid_attractions =>
            Agent.select_attraction_loop fuel a attractions_dict attraction_wait_times
              valid_attractions (Some x0))) t1 = Ok ((Some Agent.get_pass_, loc), s') →
      ∃ l, loc = Some l ∧ P l).
    { intros t1 Hl. inv_ok Hl. apply lift_Ok in E4 as [E4 ->].
      eapply IH; [| |exact Hl].
      - intros y Hy. apply Hv. by eapply list_remove_subseteq.
      - by intros y [= <-]. }
    match type of Hr with (if ?c then _ else _) _ = _ => destruct c end;
      [exact (Hagain _ Hr)|].
    match type of Hr with (if ?c then _ else _) _ = _ => destruct c end;
      [exact (Hagain _ Hr)|].
    apply mret_Ok in Hr as [[=] _].
Qed.

Lemma valid_attractions_not_held (attractions_dict : dict string Attraction.t)
    (a : Agent.t) s wants valid s' :
  Agent.decide_attraction_or_activity attractions_dict a s = Ok ((wants, valid), s') →
  ∀ x, x ∈ valid → x ∉ Agent.expedited_pass (Agent.st a).
Proof.
  unfold Agent.decide_attraction_or_activity. intros Hr. inv_ok Hr.
  destruct (Qle_bool _ _).
  - inv_ok Hr. apply lift_Ok in E0 as [E0 ->].
    assert (Hx : ∀ y, y ∈ x0 → y ∉ Agent.expedited_pass (Agent.st a)).
    { intros y Hy.
      assert (Hsub : ∀ l, Agent.filter_by_age (Agent.age (Agent.st a)) attractions_dict l
                          = Ok x0 → y ∈ l).
      { intros l. unfold Agent.filter_by_age.
        destruct (Agent.age _); intros Hf;
          try (apply filterR_subseteq in Hf; by apply Hf).
        by injection Hf as ->. }
      destruct (Agent.allow_repeats _); apply Hsub in E0.
      - apply list_elem_of_filter in E0 as [E0 _].
        unfold Agent.not_in_passes in E0. by apply bool_decide_unpack in E0.
      - apply list_elem_of_fmap in E0 as ([k w] & -> & Hk).
        apply list_elem_of_filter in Hk as [[_ Hk] _].
        unfold Agent.not_in_passes in Hk. by apply bool_decide_unpack in Hk. }
    destruct x0; apply mret_Ok in Hr as [[= -> ->] _]; [|exact Hx].
    intros y Hy. by apply elem_of_nil in Hy.
  - apply mret_Ok in Hr as [[= -> ->] _].
    intros y Hy. by apply elem_of_nil in Hy.
Qed.

(** A decision to get a pass names an attraction for which the agent
    holds no pass. *)
Lemma decision_get_pass_not_held (fuel : nat) (a : Agent.t)
    (attractions_dict : dict string Attraction.t)
    (activities_dict : dict string Activity.t) (time : Z) (park_closed : bool)
    s loc s' :
  Agent.make_state_change_decision fuel a attractions_dict activities_dict time
    park_closed s = Ok ((Some Agent.get_pass_, loc), s') →
  ∃ l, loc = Some l ∧ l ∉ Agent.expedited_pass (Agent.st a).
Proof.
  rewrite make_state_change_decision_ignores_park_closed.
  unfold Agent.make_state_change_decision. intros Hr. inv_ok Hr.
  apply lift_Ok in E as [E ->]. destruct x as [action location].
  assert (Hleave : action = Some Agent.leaving ∨ action = None).
  { unfold Agent.decide_to_leave_park in E.
    destruct (bool_decide _); [|injection E as <- _; by right].
    inv_ok E. inv_ok E. inv_ok E.
    destruct (Qlt_bool _ _); injection E as <- _; auto. }
  destruct Hleave as [-> | ->].
  { apply mret_Ok in Hr as [[=] _]. }
  unfold Agent.make_attraction_activity_decision in Hr. inv_ok Hr.
  destruct x as [wants valid].
  pose proof (valid_attractions_not_held _ _ _ _ _ _ E0) as Hvalid.
  destruct wants.
  - inv_ok Hr. destruct x as [action location'].
    destruct action as [d|].
    + apply mret_Ok in Hr as [[= <- ->] _].
      unfold Agent.select_attraction_decision in E1. inv_ok E1.
      eapply select_attraction_loop_get_pass; [| |exact E1]; [exact Hvalid|done].
    + inv_ok Hr. apply mret_Ok in Hr as [[=] _].
  - inv_ok Hr. apply mret_Ok in Hr as [[=] _].
Qed.

End Decision.

(** ** Properties kept by every step of the engine *)

Lemma dict_get_elem_of `{EqDecision K} {V} (k : K) (d : dict K V) (v : V) :
  dict_get k d = Some v → (k, v) ∈ d.
Proof.
  induction d as [|[k' v'] d IH]; simpl; [done|].
  destruct (decide (k' = k)) as [->|].
  - intros [= ->]. by left.
  - intros Hd. right. by apply IH.
Qed.

Lemma Forall_dict_set `{EqDecision K} {V} (P : V → Prop) (k : K) (v : V) (d : dict K V) :
  Forall (fun kv => P kv.2) d → P v → Forall (fun kv => P kv.2) (dict_set k v d).
Proof.
  intros Hd Hv. induction d as [|[k' v'] d IH]; simpl.
  - by constructor.
  - inversion_clear Hd. destruct (decide (k' = k)); constructor; auto.
Qed.

Lemma Forall_dict_item `{EqDecision K} {V} (P : V → Prop) (k : K) (v : V) (d : dict K V) :
  Forall (fun kv => P kv.2) d → dict_item k d = Ok v → P v.
Proof.
  intros Hd Hk. apply dict_item_Ok, dict_get_elem_of in Hk.
  rewrite Forall_forall in Hd. by apply (Hd (k, v)).
Qed.

Lemma mapR_Forall {A B} (P : A → Prop) (Q : B → Prop) (f : A → Result B) (l : list A) l' :
  (∀ x y, P x → f x = Ok y → Q y) →
  Forall P l → mapR f l = Ok l' → Forall Q l'.
Proof.
  intros Hf. revert l'. induction l as [|x l IH]; intros l' Hl Hr; simpl in Hr.
  - injection Hr as <-. constructor.
  - inversion_clear Hl. inv_ok Hr. inv_ok Hr. injection Hr as <-.
    constructor; eauto.
Qed.

Tactic Notation "bind_ok" hyp(H) "as" simple_intropattern(a) ident(E) :=
  cbv beta iota zeta in H;
  first
    [ let s := fresh "s" in
      apply M_bind_Ok in H as (a & s & E & H);
      try (apply lift_Ok in E as [E ->]); cbv beta iota zeta in H
    | apply bind_Ok in H as (a & E & H); cbv beta iota zeta in H ].

Ltac ret_ok H := cbv beta iota zeta in H; apply mret_Ok in H as [-> _].

Section Preservation.
Context `{RandomSource}.
Variable PA : Agent.t → Prop.
Variable PX : Attraction.t → Prop.

Hypothesis PA_create :
  ∀ seed distribution ability threshold limit agent_id names1 names2 s a s',
    Agent.create seed distribution ability threshold limit agent_id names1 names2 s
    = Ok (a, s') → PA a.
Hypothesis PA_arrive : ∀ t a, PA a → PA (Agent.arrive_at_park t a).
Hypothesis PA_leave : ∀ t a, PA a → PA (Agent.leave_park t a).
Hypothesis PA_enter_queue : ∀ l t a, PA a → PA (Agent.enter_queue l t a).
Hypothesis PA_begin_activity : ∀ l t a, PA a → PA (Agent.begin_activity l t a).
Hypothesis PA_get_pass : ∀ l t w a,
  PA a → l ∉ Agent.expedited_pass (Agent.st a) →
  PA (Agent.assign_expedited_return_time w (Agent.get_pass l t a)).
Hypothesis PA_return : ∀ l a a', Agent.return_exp_pass l a = Ok a' → PA a → PA a'.
Hypothesis PA_exited_attraction : ∀ l t a a',
  Agent.agent_exited_attraction l t a = Ok a' → PA a → PA a'.
Hypothesis PA_boarded : ∀ l t a a' b,
  Agent.agent_boarded_attraction l t a = Ok (a', b) → PA a → PA a'.
Hypothesis PA_exited_activity : ∀ l t a a',
  Agent.agent_exited_activity l t a = Ok a' → PA a → PA a'.
Hypothesis PA_pass_time : ∀ a, PA a → PA (Agent.pass_time a).

Hypothesis PX_init : ∀ c, PX (Attraction.initialize_attraction c).
Hypothesis PX_add_to_queue : ∀ i x, PX x → PX (Attraction.add_to_queue i x).
Hypothesis PX_remove_pass : ∀ x, PX x → PX (Attraction.remove_pass x).
Hypothesis PX_add_to_exp_queue : ∀ fuel i x x' w,
  Attraction.add_to_exp_queue fuel i x = Ok (x', w) → PX x → PX x'.
Hypothesis PX_return_pass : ∀ i x x',
  Attraction.return_pass i x = Ok x' → PX x → PX x'.
Hypothesis PX_step : ∀ t c x x' out,
  Attraction.step t c x = Ok (x', out) → PX x → PX x'.
Hypothesis PX_pass_time : ∀ x, PX x → PX (Attraction.pass_time x).
Hypothesis PX_store_history : ∀ fuel t x x',
  Attraction.store_history fuel t x = Ok x' → PX x → PX x'.

Lemma kept_put_agent k a p : kept PA PX p → PA a → kept PA PX (Park.put_agent k a p).
Proof. intros [Ha Hx] Hk. split; [by apply Forall_insert|done]. Qed.

Lemma kept_put_attraction k x p : kept PA PX p → PX x → kept PA PX (Park.put_attraction k x p).
Proof. intros [Ha Hx] Hk. split; [done|by apply Forall_dict_set]. Qed.

Lemma kept_agent_item k p a : kept PA PX p → Park.agent_item k p = Ok a → PA a.
Proof.
  intros [Ha _]. unfold Park.agent_item. destruct (k <? 0); [done|].
  intros Hk%or_raise_Ok. rewrite Forall_lookup in Ha. eauto.
Qed.

Lemma kept_attraction_item k p x :
  kept PA PX p → dict_item k (Park.attractions p) = Ok x → PX x.
Proof. intros [_ Hx]. by apply Forall_dict_item. Qed.

Lemma kept_admit_arrivals n p p' :
  kept PA PX p → Park.admit_arrivals n p = Ok p' → kept PA PX p'.
Proof.
  unfold Park.admit_arrivals. intros Hp. apply foldR_inv; [|done].
  intros b i b' Hb _ Hr. bind_ok Hr as agent Ha. injection Hr as <-.
  apply kept_put_agent; [done|]. eapply PA_arrive, kept_agent_item; eauto.
Qed.

Lemma kept_allow_new_arrivals p p' :
  kept PA PX p → Park.allow_new_arrivals p = Ok p' → kept PA PX p'.
Proof.
  unfold Park.allow_new_arrivals. intros Hp Hr.
  bind_ok Hr as n Hn. bind_ok Hr as p1 Hp1. injection Hr as <-.
  by eapply (kept_admit_arrivals _ _ p1) in Hp.
Qed.

Lemma kept_return_passes fuel : ∀ ind agent_id p p',
  kept PA PX p → Park.return_passes fuel ind agent_id p = Ok p' → kept PA PX p'.
Proof.
  induction fuel as [|fuel IH]; intros ind agent_id p p' Hp Hr; simpl in Hr.
  - bind_ok Hr as agent Ha. destruct (_ !! _); [done|]. by injection Hr as <-.
  - bind_ok Hr as agent Ha.
    destruct (_ !! _) as [attraction|]; [|by injection Hr as <-].
    bind_ok Hr as x Hx. bind_ok Hr as x' Hx'. bind_ok Hr as agent' Ha'.
    eapply IH; [|exact Hr].
    apply kept_put_agent.
    + apply kept_put_attraction; [done|].
      eapply PX_return_pass; [exact Hx'|]. by eapply kept_attraction_item.
    + eapply PA_return; [exact Ha'|]. by eapply kept_agent_item.
Qed.

Lemma kept_leaving agent_id time p s p' s' :
  kept PA PX p →
  (agent ← lift (Park.agent_item (Z.of_nat agent_id) p);
   p ← lift (match Agent.expedited_pass (Agent.st agent) with
             | [] => Ok p
             | passes => Park.return_passes (length passes) 0 agent_id p
             end);
   agent ← lift (Park.agent_item (Z.of_nat agent_id) p);
   mret (Park.put_agent agent_id (Agent.leave_park time agent) p)) s = Ok (p', s') →
  kept PA PX p'.
Proof.
  intros Hp Hr. bind_ok Hr as agent Ha. bind_ok Hr as p1 Hp1.
  bind_ok Hr as agent' Ha'. ret_ok Hr.
  assert (kept PA PX p1).
  { destruct (Agent.expedited_pass _); [by injection Hp1 as <-|].
    by eapply kept_return_passes. }
  apply kept_put_agent; [done|]. eapply PA_leave, kept_agent_item; eauto.
Qed.

Lemma kept_traveling agent_id location time p s p' s' :
  kept PA PX p →
  (p ← (if dict_mem location (Park.attractions p) then
          location ← lift (or_raise KeyError location);
          agent ← lift (Park.agent_item (Z.of_nat agent_id) p);
          let agent := Agent.enter_queue location time agent in
          let p := Park.put_agent agent_id agent p in
          x ← lift (dict_item location (Park.attractions p));
          mret (Park.put_attraction location
                  (Attraction.add_to_queue (Agent.agent_id agent) x) p)
        else mret p);
   (if dict_mem location (Park.activities p) then
      location ← lift (or_raise KeyError location);
      agent ← lift (Park.agent_item (Z.of_nat agent_id) p);
      let agent := Agent.begin_activity location time agent in
      let p := Park.put_agent agent_id agent p in
      x ← lift (dict_item location (Park.activities p));
      x ← Activity.add_to_activity (Agent.agent_id agent)
            (Agent.expedited_return_time (Agent.st agent)) x;
      mret (Park.put_activity location x p)
    else mret p)) s = Ok (p', s') →
  kept PA PX p'.
Proof.
  intros Hp Hr. bind_ok Hr as p1 Hp1.
  assert (kept PA PX p1).
  { destruct (dict_mem location (Park.attractions p)); [|by ret_ok Hp1].
    bind_ok Hp1 as l Hl. bind_ok Hp1 as agent Ha.  bind_ok Hp1 as x Hx.
    ret_ok Hp1.
    assert (PA (Agent.enter_queue l time agent))
      by (eapply PA_enter_queue, kept_agent_item; eauto).
    apply kept_put_attraction; [by apply kept_put_agent|].
    apply PX_add_to_queue.
    eapply kept_attraction_item; [|exact Hx]. by apply kept_put_agent. }
  destruct (dict_mem location (Park.activities p1)); [|by ret_ok Hr].
  bind_ok Hr as l Hl. bind_ok Hr as agent Ha. bind_ok Hr as x Hx.
  bind_ok Hr as x' Hx'. ret_ok Hr.
  assert (PA (Agent.begin_activity l time agent))
    by (eapply PA_begin_activity, kept_agent_item; eauto).
  by apply (kept_put_agent agent_id _ p1).
Qed.

Lemma kept_get_pass fuel agent_id location time p s p' s' :
  kept PA PX p →
  (∀ a, Park.agent_item (Z.of_nat agent_id) p = Ok a →
        ∃ l, location = Some l ∧ l ∉ Agent.expedited_pass (Agent.st a)) →
  (location ← lift (or_raise KeyError location);
   agent ← lift (Park.agent_item (Z.of_nat agent_id) p);
   let agent := Agent.get_pass location time agent in
   let p := Park.put_agent agent_id agent p in
   x ← lift (dict_item location (Park.attractions p));
   let x := Attraction.remove_pass x in
   '(x, expedited_wait_time) ←
     lift (Attraction.add_to_exp_queue fuel (Agent.agent_id agent) x);
   let p := Park.put_attraction location x p in
   mret (Park.put_agent agent_id
           (Agent.assign_expedited_return_time expedited_wait_time agent) p)) s
  = Ok (p', s') →
  kept PA PX p'.
Proof.
  intros [Hpa Hpx] Hpass Hr. bind_ok Hr as l Hl. apply or_raise_Ok in Hl.
  bind_ok Hr as agent Ha.
  destruct (Hpass _ Ha) as (l' & Hl' & Hnot).
  assert (l' = l) as -> by congruence.
  bind_ok Hr as x Hx. bind_ok Hr as [x' w] Hx'. ret_ok Hr.
  split; simpl.
  - rewrite list_insert_insert_eq. apply Forall_insert; [done|].
    apply PA_get_pass; [|done]. by eapply (kept_agent_item _ p).
  - apply Forall_dict_set; [done|].
    eapply PX_add_to_exp_queue; [exact Hx'|]. apply PX_remove_pass.
    by eapply (kept_attraction_item l p).
Qed.

Lemma kept_update_park_state fuel agent_id action location time p s p' s' :
  kept PA PX p →
  (action = Some Agent.get_pass_ →
   ∀ a, Park.agent_item (Z.of_nat agent_id) p = Ok a →
        ∃ l, location = Some l ∧ l ∉ Agent.expedited_pass (Agent.st a)) →
  Park.update_park_state fuel agent_id action location time p s = Ok (p', s') →
  kept PA PX p'.
Proof.
  intros Hp Hpass Hr. unfold Park.update_park_state in Hr.
  bind_ok Hr as p1 Hp1. bind_ok Hr as p2 Hp2.
  destruct action as [[| |]|].
  - destruct (decide _) as [_|]; [|done].
    destruct (decide _) as [|_]; [done|]. ret_ok Hp2.
    destruct (decide _) as [|_]; [done|]. ret_ok Hr.
    by eapply kept_leaving.
  - destruct (decide _) as [|_]; [done|]. ret_ok Hp1.
    destruct (decide _) as [_|]; [|done].
    destruct (decide _) as [|_]; [done|]. ret_ok Hr.
    by eapply kept_traveling.
  - destruct (decide _) as [|_]; [done|]. ret_ok Hp1.
    destruct (decide _) as [|_]; [done|]. ret_ok Hp2.
    destruct (decide _) as [_|]; [|done].
    eapply kept_get_pass; [done| |exact Hr]. by apply Hpass.
  - destruct (decide _) as [|_]; [done|]. ret_ok Hp1.
    destruct (decide _) as [|_]; [done|]. ret_ok Hp2.
    destruct (decide _) as [|_]; [done|]. by ret_ok Hr.
Qed.

Lemma kept_decide_and_update fuel p agent_id s p' s' :
  kept PA PX p → Park.decide_and_update fuel p agent_id s = Ok (p', s') → kept PA PX p'.
Proof.
  intros Hp Hr. unfold Park.decide_and_update in Hr.
  bind_ok Hr as agent Ha. bind_ok Hr as close Hc.
  bind_ok Hr as [action location] Hd.
  eapply kept_update_park_state; [| |exact Hr].
  - by destruct (decide _).
  - intros -> a Ha'.
    assert (a = agent) as ->.
    { unfold Park.agent_item in Ha, Ha'.
      destruct (decide _); simpl in Ha'; congruence. }
    by eapply decision_get_pass_not_held.
Qed.

Lemma kept_process_attraction p attraction_name p' :
  kept PA PX p → Park.process_attraction p attraction_name = Ok p' → kept PA PX p'.
Proof.
  intros Hp Hr. unfold Park.process_attraction in Hr.
  bind_ok Hr as x Hx. bind_ok Hr as [x' [exiting loaded]] Hx'.
  bind_ok Hr as p1 Hp1.
  assert (Hk1 : kept PA PX p1).
  { revert Hp1. apply foldR_inv.
    - intros b i b' Hb _ Hi. bind_ok Hi as agent Ha. bind_ok Hi as agent' Ha'.
      injection Hi as <-. apply kept_put_agent; [done|].
      eapply PA_exited_attraction; [exact Ha'|]. by eapply kept_agent_item.
    - apply kept_put_attraction; [done|].
      eapply PX_step; [exact Hx'|]. by eapply kept_attraction_item. }
  revert Hr. apply foldR_inv; [|done].
  intros b i b' Hb _ Hi. bind_ok Hi as agent Ha. bind_ok Hi as b1 Hb1.
  bind_ok Hi as agent1 Ha1. bind_ok Hi as [agent2 redeem] Ha2.
  injection Hi as <-.
  assert (kept PA PX b1).
  { destruct (decide _); [|by injection Hb1 as <-].
    bind_ok Hb1 as l Hl. bind_ok Hb1 as activity Hact.
    bind_ok Hb1 as activity' Hact'. bind_ok Hb1 as agent' Ha'.
    injection Hb1 as <-. apply (kept_put_agent i _ (Park.put_activity l activity' b)); [done|].
    eapply PA_exited_activity; [exact Ha'|]. by eapply kept_agent_item. }
  assert (kept PA PX (Park.put_agent i agent2 b1)).
  { apply kept_put_agent; [done|].
    eapply PA_boarded; [exact Ha2|]. by eapply kept_agent_item. }
  by destruct redeem.
Qed.

Lemma kept_process_activity p activity_name p' :
  kept PA PX p → Park.process_activity p activity_name = Ok p' → kept PA PX p'.
Proof.
  intros Hp Hr. unfold Park.process_activity in Hr.
  bind_ok Hr as x Hx. bind_ok Hr as [x' exiting] Hx'.
  revert Hr. apply foldR_inv; [|done].
  intros b i b' Hb _ Hi. bind_ok Hi as agent Ha. bind_ok Hi as agent' Ha'.
  injection Hi as <-. apply kept_put_agent; [done|].
  eapply PA_exited_activity; [exact Ha'|]. by eapply kept_agent_item.
Qed.

Lemma kept_pass_time fuel p p' :
  kept PA PX p → Park.pass_time fuel p = Ok p' → kept PA PX p'.
Proof.
  intros [Ha Hx] Hr. unfold Park.pass_time in Hr.
  bind_ok Hr as xs Hxs. injection Hr as <-. split; simpl.
  - apply Forall_fmap. eapply Forall_impl; [exact Ha|]. intros a. apply PA_pass_time.
  - revert Hxs.
    apply (mapR_Forall (fun kv => PX kv.2) (fun kv => PX kv.2)); [|exact Hx].
    intros [k x] [k' x'] Hk Hs. bind_ok Hs as y Hy. injection Hs as <- <-.
    simpl. eapply PX_store_history; [exact Hy|]. by apply PX_pass_time.
Qed.

Lemma kept_step fuel p s p' s' :
  kept PA PX p → Park.step fuel p s = Ok (p', s') → kept PA PX p'.
Proof.
  intros Hp Hr. unfold Park.step in Hr.
  bind_ok Hr as p1 Hp1. apply kept_allow_new_arrivals in Hp1; [|done].
  bind_ok Hr as p2 Hp2.
  assert (Hk2 : kept PA PX p2).
  { revert Hp2. apply foldM_inv; [|done].
    intros b i s1 b' s1' Hb _. by apply kept_decide_and_update. }
  bind_ok Hr as p3 Hp3.
  assert (Hk3 : kept PA PX p3).
  { revert Hp3. apply foldR_inv; [|done].
    intros b i b' Hb _. by apply kept_process_attraction. }
  bind_ok Hr as p4 Hp4.
  assert (Hk4 : kept PA PX p4).
  { revert Hp4. apply foldR_inv; [|done].
    intros b i b' Hb _. by apply kept_process_activity. }
  bind_ok Hr as p5 Hp5. apply kept_pass_time in Hp5; [|done].
  by ret_ok Hr.
Qed.

Lemma kept_fill_hour (hour : Z) (l : list (Z * Z)) : ∀ p,
  kept PA PX p →
  kept PA PX (foldl (fun p '(minute, arrivals) =>
                 Park.set_schedule
                   (dict_set (hour * 60 + minute) arrivals (Park.schedule p)) p) p l).
Proof.
  induction l as [|[m n] l IH]; intros p Hp; [done|]. simpl. by apply IH.
Qed.

Lemma kept_generate_arrival_schedule arrival_seed total perfect p s p' s' :
  kept PA PX p →
  Park.generate_arrival_schedule arrival_seed total perfect p s = Ok (p', s') →
  kept PA PX p'.
Proof.
  intros Hp Hr. unfold Park.generate_arrival_schedule in Hr.
  destruct (bool_decide _); [done|].
  destruct (24 <? _); [done|].
  bind_ok Hr as p1 Hp1.
  assert (Hk1 : kept PA PX p1).
  { revert Hp1. apply foldR_inv; [|done].
    intros b [hour key] b' Hb _ Hi. bind_ok Hi as pct Hpct.
    bind_ok Hi as rng Hrng. bind_ok Hi as arrivals Harr. injection Hi as <-.
    apply kept_fill_hour. destruct (_ && _); exact Hb. }
  bind_ok Hr as u Hu. destruct perfect; [|by ret_ok Hr].
  unfold Park.enforce_perfect_arrivals in Hr.
  bind_ok Hr as sch1 Hs1. bind_ok Hr as sch2 Hs2.
  destruct (bool_decide _); [by ret_ok Hr|done].
Qed.

Lemma kept_generate_agents distribution pct threshold limit p s p' s' :
  kept PA PX p →
  Park.generate_agents distribution pct threshold limit p s = Ok (p', s') →
  kept PA PX p'.
Proof.
  intros Hp Hr. unfold Park.generate_agents in Hr.
  destruct (bool_decide _); [done|].
  revert Hr. apply foldM_inv; [|done].
  intros b i s1 b' s1' Hb _ Hi. bind_ok Hi as u Hu. bind_ok Hi as r Hr.
  bind_ok Hi as agent Ha. ret_ok Hi.
  apply PA_create in Ha. unfold Park.update_agents.
  destruct (decide _); [by apply kept_put_agent|].
  destruct Hb as [Hb1 Hb2]. split; [|done]. simpl.
  apply Forall_app. split; [done|]. by constructor.
Qed.

Lemma kept_generate_attractions p p' :
  kept PA PX p → Park.generate_attractions p = Ok p' → kept PA PX p'.
Proof.
  intros Hp Hr. unfold Park.generate_attractions in Hr.
  revert Hr. apply foldR_inv; [|done].
  intros b c b' Hb _ Hi. bind_ok Hi as a Ha. injection Hi as <-.
  apply kept_put_attraction; [done|].
  unfold Attraction.init in Ha. destruct (bool_decide _); [done|].
  injection Ha as <-. apply PX_init.
Qed.

Lemma kept_generate_activities p p' :
  kept PA PX p → Park.generate_activities p = Ok p' → kept PA PX p'.
Proof.
  intros Hp Hr. unfold Park.generate_activities in Hr.
  revert Hr. apply foldR_inv; [|done].
  intros b c b' Hb _ Hi. bind_ok Hi as a Ha. by injection Hi as <-.
Qed.

(** Every reachable park keeps the two properties. *)
Lemma reachable_kept p : reachable p → kept PA PX p.
Proof.
  induction 1.
  - split; constructor.
  - by eapply kept_generate_arrival_schedule.
  - by eapply kept_generate_agents.
  - by eapply kept_generate_attractions.
  - by eapply kept_generate_activities.
  - by eapply kept_step.
Qed.

End Preservation.

(** ** Held passes *)

Lemma list_del_Ok {A} (i : nat) (l l' : list A) :
  list_del i l = Ok l' → l' = delete i l ∧ (i < length l)%nat.
Proof. unfold list_del. destruct (decide _); [|done]. by intros [= <-]. Qed.

Lemma passes_ok_delete (i : nat) (passes passes' : list string) (times times' : list Z) :
  NoDup passes → length passes = length times →
  list_del i passes = Ok passes' → list_del i times = Ok times' →
  NoDup passes' ∧ length passes' = length times'.
Proof.
  intros Hnd Hlen [-> Hi]%list_del_Ok [-> Hj]%list_del_Ok. split.
  - eapply sublist_NoDup; [exact Hnd|apply sublist_delete].
  - rewrite !length_delete by (by apply lookup_lt_is_Some). lia.
Qed.

Lemma passes_ok_ext (a b : Agent.t) :
  Agent.expedited_pass (Agent.st b) = Agent.expedited_pass (Agent.st a) →
  Agent.expedited_return_time (Agent.st b) = Agent.expedited_return_time (Agent.st a) →
  passes_ok a → passes_ok b.
Proof. unfold passes_ok. by intros -> ->. Qed.

Lemma passes_ok_arrive t a : passes_ok a → passes_ok (Agent.arrive_at_park t a).
Proof. by apply passes_ok_ext. Qed.

Lemma passes_ok_leave t a : passes_ok a → passes_ok (Agent.leave_park t a).
Proof. by apply passes_ok_ext. Qed.

Lemma passes_ok_enter_queue l t a : passes_ok a → passes_ok (Agent.enter_queue l t a).
Proof. by apply passes_ok_ext. Qed.

Lemma passes_ok_begin_activity l t a :
  passes_ok a → passes_ok (Agent.begin_activity l t a).
Proof. by apply passes_ok_ext. Qed.

Lemma passes_ok_get_pass l t w a :
  passes_ok a → l ∉ Agent.expedited_pass (Agent.st a) →
  passes_ok (Agent.assign_expedited_return_time w (Agent.get_pass l t a)).
Proof.
  intros [Hnd Hlen] Hl. unfold passes_ok. simpl. split.
  - apply NoDup_app. repeat split; [done| |apply NoDup_singleton].
    intros x Hx ->%list_elem_of_singleton. done.
  - rewrite !length_app, Hlen. done.
Qed.

Lemma passes_ok_return l a a' :
  Agent.return_exp_pass l a = Ok a' → passes_ok a → passes_ok a'.
Proof.
  unfold Agent.return_exp_pass. intros Hr [Hnd Hlen].
  bind_ok Hr as i Hi. bind_ok Hr as passes' Hp. bind_ok Hr as times' Ht.
  injection Hr as <-. unfold passes_ok. simpl. by eapply passes_ok_delete.
Qed.

Lemma passes_ok_exited_attraction l t a a' :
  Agent.agent_exited_attraction l t a = Ok a' → passes_ok a → passes_ok a'.
Proof.
  unfold Agent.agent_exited_attraction. intros Hr.
  bind_ok Hr as n Hn. injection Hr as <-. by apply passes_ok_ext.
Qed.

Lemma passes_ok_exited_activity l t a a' :
  Agent.agent_exited_activity l t a = Ok a' → passes_ok a → passes_ok a'.
Proof.
  unfold Agent.agent_exited_activity. intros Hr.
  bind_ok Hr as [n m] Hn. injection Hr as <-. by apply passes_ok_ext.
Qed.

Lemma passes_ok_boarded l t a a' b :
  Agent.agent_boarded_attraction l t a = Ok (a', b) → passes_ok a → passes_ok a'.
Proof.
  unfold Agent.agent_boarded_attraction. intros Hr [Hnd Hlen].
  destruct (bool_decide _).
  - bind_ok Hr as st' Hs. injection Hr as <- _.
    destruct (Agent.last_index _ _ _ _) as [i|].
    + bind_ok Hs as passes' Hp. bind_ok Hs as times' Ht. injection Hs as <-.
      unfold passes_ok. simpl. by eapply passes_ok_delete.
    + injection Hs as <-. done.
  - injection Hr as <- _. done.
Qed.

Lemma passes_ok_pass_time a : passes_ok a → passes_ok (Agent.pass_time a).
Proof.
  intros [Hnd Hlen]. unfold Agent.pass_time.
  destruct (Agent.within_park _); [|done]. simpl.
  destruct (Agent.expedited_pass (Agent.st a)) eqn:E; unfold passes_ok; simpl.
  - by rewrite E.
  - rewrite E, length_fmap. done.
Qed.

Lemma seats_respected_init c : seats_respected (Attraction.initialize_attraction c).
Proof. intros (Hcap & _). exact Hcap. Qed.

Section Engine.
Context `{RandomSource}.

Lemma passes_ok_create seed distribution ability threshold limit agent_id
    names1 names2 s a s' :
  Agent.create seed distribution ability threshold limit agent_id names1 names2 s
  = Ok (a, s') → passes_ok a.
Proof.
  unfold Agent.create, Agent.initialize_agent. intros Hr.
  bind_ok Hr as u Hu. bind_ok Hr as archetype Harch. bind_ok Hr as parameters Hpar.
  bind_ok Hr as cls Hcls. bind_ok Hr as cls' Hcls'. bind_ok Hr as rng Hrng.
  bind_ok Hr as x Hx. ret_ok Hr. split; [constructor|done].
Qed.

(** Every agent of a reachable park holds each pass once, with one
    countdown for each pass. *)
Lemma reachable_agents_ok (p : Park.t) : reachable p → agents_ok p.
Proof.
  intros Hp.
  apply (reachable_kept passes_ok (fun _ => True)) in Hp; [by destruct Hp|..];
    eauto using passes_ok_create, passes_ok_arrive, passes_ok_leave,
      passes_ok_enter_queue, passes_ok_begin_activity, passes_ok_get_pass,
      passes_ok_return, passes_ok_exited_attraction, passes_ok_boarded,
      passes_ok_exited_activity, passes_ok_pass_time.
Qed.

(** The occupants of every attraction of a reachable park fit. *)
Lemma reachable_attractions_ok (p : Park.t) : reachable p → attractions_ok p.
Proof.
  intros Hp.
  apply (reachable_kept (fun _ => True) seats_respected) in Hp; [by destruct Hp|..];
    eauto using seats_respected_init, add_to_queue_seats, remove_pass_seats,
      add_to_exp_queue_seats, return_pass_seats, step_seats, pass_time_seats,
      store_history_seats.
Qed.

End Engine.

(** ** Reachable parks *)

Section Reachable.
Context `{RandomSource}.

Lemma reachable_steps (fuel n : nat) : ∀ p s p' s',
  reachable p → Park.steps fuel n p s = Ok (p', s') → reachable p'.
Proof.
  induction n as [|n IH]; intros p s p' s' Hp Hr; simpl in Hr.
  - by ret_ok Hr.
  - bind_ok Hr as p1 Hp1. eapply IH; [|exact Hr]. by eapply reach_step.
Qed.

Lemma well_formed_init (c : Attraction.characteristics) :
  0 ≤ Attraction.c_hourly_throughput c → 0 ≤ Attraction.c_run_time c →
  (0 <= Attraction.c_expedited_queue_ratio c)%Q →
  (Attraction.c_expedited_queue_ratio c <= 1)%Q →
  well_formed (Attraction.initialize_attraction c).
Proof.
  intros Ht Hr H0 H1. repeat split; [|done..]. simpl.
  apply Zle_Qle_inj in Ht, Hr. simpl in Ht, Hr.
  apply Qmult_le_0_compat; [done|].
  apply Qle_shift_div_l; [reflexivity|]. by rewrite Qmult_0_l.
Qed.

(** C2. In every reachable park, the occupants of every attraction
    whose capacity is not negative and whose ratio lies in [0, 1] are
    at most as many as its capacity, before and after every [step];
    and a [step] moves a prefix of the expedited queue, of at most
    floor(capacity × expedited_queue_ratio) agents, and a prefix of the
    standby queue into the occupants. *)
Theorem occupancy_within_capacity (p : Park.t) (k : string) (a : Attraction.t) :
  reachable p →
  dict_get k (Park.attractions p) = Some a →
  well_formed a →
  occupancy_ok a
  ∧ ∀ time park_close a' exiting loaded,
      Attraction.step time park_close a = Ok (a', (exiting, loaded)) →
      occupancy_ok a'
      ∧ ∃ from_exp from_standby,
          Attraction.exp_queue a = from_exp ++ Attraction.exp_queue a'
          ∧ Attraction.queue a = from_standby ++ Attraction.queue a'
          ∧ loaded = from_exp ++ from_standby
          ∧ len from_exp
            ≤ Qfloor (Attraction.capacity a * Attraction.exp_queue_ratio a)
          ∧ (Attraction.run_time_remaining a = 0 →
             Attraction.agents_in_attraction a' = loaded
             ∧ exiting = Attraction.agents_in_attraction a).
Proof.
  intros Hp Hk Hwf.
  assert (Ha : seats_respected a).
  { apply reachable_attractions_ok in Hp. unfold attractions_ok in Hp.
    rewrite Forall_forall in Hp. apply dict_get_elem_of in Hk.
    by apply (Hp (k, a)). }
  split; [by apply Ha|].
  intros time park_close a' exiting loaded Hs. split.
  - pose proof (step_seats _ _ _ _ _ Hs Ha) as Ha'. apply Ha'.
    unfold Attraction.step in Hs. bind_ok Hs as a1 Ha1.
    apply refresh_passes_fields in Ha1 as [v ->].
    injection Hs as Hs. revert Hs. unfold Attraction.run_cycle. simpl.
    destruct (_ =? 0); intros [= <- _ _]; exact Hwf.
  - by eapply step_load.
Qed.

End Reachable.

Lemma reachable_run arrivals attraction_list activity_list seed arrival_seed total n z p s :
  Scenario.run arrivals attraction_list activity_list seed arrival_seed total n z
  = Ok (p, s) →
  reachable (H := Scenario.source seed arrivals) p.
Proof.
  unfold Scenario.run, Scenario.build. intros Hr.
  bind_ok Hr as p4 Hp4. bind_ok Hp4 as p1 Hp1. bind_ok Hp4 as p2 Hp2.
  bind_ok Hp4 as p3 Hp3. apply lift_Ok in Hp4 as [Hp4 _].
  eapply reachable_steps; [|exact Hr].
  eapply reach_activities; [|exact Hp4].
  eapply reach_attractions; [|exact Hp3].
  eapply reach_agents; [|exact Hp2].
  eapply reach_arrival_schedule; [|exact Hp1].
  apply reach_init.
Qed.

(** ** The closing time *)

Lemma park_close_fill_hour (hour : Z) (l : list (Z * Z)) : ∀ p,
  Park.park_close
    (foldl (fun p '(minute, arrivals) =>
              Park.set_schedule
                (dict_set (hour * 60 + minute) arrivals (Park.schedule p)) p) p l)
  = Park.park_close p.
Proof.
  induction l as [|[m n] l IH]; intros p; [done|]. simpl. by rewrite IH.
Qed.

Lemma park_close_allow_new_arrivals (p p' : Park.t) :
  Park.allow_new_arrivals p = Ok p' → Park.park_close p' = Park.park_close p.
Proof.
  unfold Park.allow_new_arrivals. intros Hr.
  bind_ok Hr as n Hn. bind_ok Hr as p1 Hp1. injection Hr as <-. simpl.
  revert Hp1. unfold Park.admit_arrivals.
  apply (foldR_inv (fun b => Park.park_close b = Park.park_close p)); [|done].
  intros b i b' Hb _ Hi. bind_ok Hi as agent Ha. by injection Hi as <-.
Qed.

Lemma idle_agent_registered (p : Park.t) (agent_id : nat) :
  agent_id ∈ Park.get_idle_agent_ids p →
  ∃ agent, Park.agent_item (Z.of_nat agent_id) p = Ok agent.
Proof.
  unfold Park.get_idle_agent_ids. intros Hi.
  apply list_elem_of_fmap in Hi as ([i a] & -> & Hi).
  apply list_elem_of_filter in Hi as [_ Hi].
  apply elem_of_lookup_imap in Hi as (j & b & Heq & Hj).
  injection Heq as -> ->. simpl.
  exists b. unfold Park.agent_item.
  destruct (Z.of_nat j <? 0) eqn:E; [apply Z.ltb_lt in E; lia|].
  by rewrite Nat2Z.id, Hj.
Qed.

Section ClosingTime.
Context `{RandomSource}.

Lemma lift_bind {A B} (a : A) (f : A → M B) s : (lift (Ok a) ≫= f) s = f a s.
Proof. reflexivity. Qed.

Lemma M_bind_Raise {A B} (m : M A) (f : A → M B) s e :
  m s = Raise e → (m ≫= f) s = Raise e.
Proof. unfold mbind, M_bind. by intros ->. Qed.

(** C10, amended. When no hour of the arrival table has percentage
    zero, [generate_arrival_schedule] leaves [park_close] at [None];
    and while [park_close] is [None], every [step] in which an agent
    is idle once the arrivals have entered raises a [TypeError]. *)
Theorem step_without_park_close :
  (∀ arrival_seed total perfect p s p' s',
     Park.park_close p = None →
     Forall (fun kv => kv.2 ≠ 0) arrival_seed →
     Park.generate_arrival_schedule arrival_seed total perfect p s = Ok (p', s') →
     Park.park_close p' = None)
  ∧ (∀ fuel p s p1,
       Park.park_close p = None →
       Park.allow_new_arrivals p = Ok p1 →
       Park.get_idle_agent_ids p1 ≠ [] →
       Park.step fuel p s = Raise TypeError).
Proof.
  split.
  - intros arrival_seed total perfect p s p' s' Hc Hnz Hr.
    unfold Park.generate_arrival_schedule in Hr.
    destruct (bool_decide _); [done|]. destruct (24 <? _); [done|].
    bind_ok Hr as p1 Hp1.
    assert (Hc1 : Park.park_close p1 = None).
    { revert Hp1. apply (foldR_inv (fun b => Park.park_close b = None)); [|done].
      intros b [hour key] b' Hb _ Hi. bind_ok Hi as pct Hpct.
      bind_ok Hi as rng Hrng. bind_ok Hi as arrivals Harr. injection Hi as <-.
      rewrite park_close_fill_hour.
      apply dict_item_Ok, dict_get_elem_of in Hpct.
      rewrite Forall_forall in Hnz. specialize (Hnz _ Hpct). simpl in Hnz.
      apply Z.eqb_neq in Hnz. by rewrite Hnz. }
    bind_ok Hr as u Hu. destruct perfect; [|by ret_ok Hr].
    unfold Park.enforce_perfect_arrivals in Hr.
    bind_ok Hr as sch1 Hs1. bind_ok Hr as sch2 Hs2.
    destruct (bool_decide _); [by ret_ok Hr|done].
  - intros fuel p s p1 Hc Hp1 Hidle.
    pose proof (park_close_allow_new_arrivals _ _ Hp1) as Hc1. rewrite Hc in Hc1.
    unfold Park.step. rewrite Hp1.
    destruct (Park.get_idle_agent_ids p1) as [|i ids] eqn:Hids; [done|].
    destruct (idle_agent_registered p1 i) as [agent Ha]; [rewrite Hids; by left|].
    rewrite lift_bind. apply M_bind_Raise. rewrite Hids. simpl.
    apply M_bind_Raise.
    unfold Park.decide_and_update. rewrite Ha, lift_bind, Hc1. reflexivity.
Qed.

End ClosingTime.

(** C10, as stated, fails: the opening hours have no hour of zero
    arrivals and [park_close] is [None], yet the first [step], in which
    nobody is in the park, completes; the second, in which an agent
    arrives, raises [TypeError]. *)
Lemma step_defined_with_park_close_unset :
  Forall (fun kv => kv.2 ≠ 0) Scenario.one_hour
  ∧ is_Ok (Scenario.unclosed 0) = true
  ∧ Park.park_close (Scenario.park_of (Scenario.unclosed 0)) = None
  ∧ is_Ok (Scenario.unclosed 1) = true
  ∧ value (Scenario.unclosed 2) = Raise TypeError.
Proof.
  split; [by repeat constructor|]. vm_compute. repeat split; reflexivity.
Qed.

(** ** The exact daily total *)

Lemma dict_set_keys `{EqDecision K} {V} (k : K) (v v' : V) (d : dict K V) :
  dict_get k d = Some v' → dict_keys (dict_set k v d) = dict_keys d.
Proof.
  unfold dict_keys. induction d as [|[k0 v0] d IH]; simpl; [done|].
  destruct (decide (k0 = k)) as [->|]; [done|].
  intros Hd. rewrite !fmap_cons. f_equal. by apply IH.
Qed.

Lemma sumZ_cons (x : Z) (l : list Z) : sumZ (x :: l) = x + sumZ l.
Proof. reflexivity. Qed.

Lemma dict_set_sum (k : Z) (v v' : Z) (d : dict Z Z) :
  dict_get k d = Some v' →
  sumZ (dict_values (dict_set k v d)) = sumZ (dict_values d) + (v - v').
Proof.
  unfold dict_values. induction d as [|[k0 v0] d IH]; simpl; [done|].
  destruct (decide (k0 = k)) as [->|].
  - intros [= ->]. unfold sumZ. csimpl. lia.
  - intros Hd. specialize (IH Hd). unfold sumZ in *. csimpl. lia.
Qed.

Lemma dict_get_NoDup `{EqDecision K} {V} (k : K) (v : V) (d : dict K V) :
  NoDup (dict_keys d) → (k, v) ∈ d → dict_get k d = Some v.
Proof.
  unfold dict_keys. induction d as [|[k0 v0] d IH]; simpl.
  - intros _ Hin. by apply elem_of_nil in Hin.
  - intros Hnd Hin. apply NoDup_cons in Hnd as [Hk0 Hnd].
    apply elem_of_cons in Hin as [[= -> ->]|Hin].
    + by rewrite decide_True.
    + destruct (decide (k0 = k)) as [->|]; [|by apply IH].
      exfalso. apply Hk0. apply list_elem_of_fmap. by exists (k, v).
Qed.

Lemma sum_positive_bucket (d : dict Z Z) :
  Forall (fun kv => 0 ≤ kv.2) d → 0 < sumZ (dict_values d) →
  filter (fun '(key, val) => val > 0) d ≠ [].
Proof.
  intros Hd Hs.
  assert (Hex : ∃ kv, kv ∈ d ∧ kv.2 > 0).
  { revert Hs. unfold dict_values. induction Hd as [|[k v] d Hv Hd IH].
    - simpl. lia.
    - rewrite fmap_cons, sumZ_cons. simpl in *. intros Hs.
      destruct (decide (v > 0)).
      + exists (k, v). split; [by left|done].
      + destruct IH as (kv & Hin & Hpos); [lia|].
        exists kv. split; [by right|done]. }
  destruct Hex as ([k v] & Hin & Hpos). intros Hnil.
  assert (Hf : (k, v) ∈ filter (fun '(key, val) => val > 0) d)
    by (by apply list_elem_of_filter).
  rewrite Hnil in Hf. by apply elem_of_nil in Hf.
Qed.

Section Corrections.
Context `{RandomSource}.

Lemma M_bind_eq {A B} (m : M A) (f : A → M B) s a s1 :
  m s = Ok (a, s1) → (m ≫= f) s = f a s1.
Proof. unfold mbind, M_bind. by intros ->. Qed.

Lemma choice_elem_of {A} (l : list A) s :
  l ≠ [] → ∃ x s', Random.choice l s = Ok (x, s') ∧ x ∈ l.
Proof.
  intros Hl. destruct l as [|x l]; [done|]. unfold Random.choice.
  destruct (py_randbits (py s)) as [r p]. eexists _, _. split; [done|].
  apply list_elem_of_In, nth_In. apply Nat.mod_upper_bound. done.
Qed.

(** A correction by [delta] of a schedule with a minute of positive
    count succeeds; it keeps the counts at or above zero and moves the
    sum by [delta] each time. *)
Lemma correct_schedule_spec (count : nat) (delta : Z) : ∀ (schedule : dict Z Z) s,
  NoDup (dict_keys schedule) →
  Forall (fun kv => 0 ≤ kv.2) schedule →
  (delta = 1 ∧ (count = 0%nat ∨ 0 < sumZ (dict_values schedule))
   ∨ delta = -1 ∧ Z.of_nat count ≤ sumZ (dict_values schedule)) →
  ∃ schedule' s',
    Park.correct_schedule count delta schedule s = Ok (schedule', s')
    ∧ dict_keys schedule' = dict_keys schedule
    ∧ Forall (fun kv => 0 ≤ kv.2) schedule'
    ∧ sumZ (dict_values schedule') = sumZ (dict_values schedule) + delta * Z.of_nat count.
Proof.
  induction count as [|count IH]; intros schedule s Hnd Hpos Hd.
  - exists schedule, s. repeat split; [done..|lia].
  - simpl.
    assert (Hsum : 0 < sumZ (dict_values schedule)) by (destruct Hd as [[_ [|]]|[_ ?]]; lia).
    destruct (choice_elem_of (filter (fun '(key, val) => val > 0) schedule).*1 s)
      as (k & s1 & Hc & Hk).
    { intros Hnil. apply fmap_nil_inv in Hnil. by apply sum_positive_bucket in Hnil. }
    apply list_elem_of_fmap in Hk as ([k' v] & -> & Hk).
    apply list_elem_of_filter in Hk as [Hv Hk]. simpl.
    pose proof (dict_get_NoDup _ _ _ Hnd Hk) as Hget. simpl in Hc.
    rewrite (M_bind_eq _ _ _ _ _ Hc).
    rewrite (M_bind_eq _ _ s1 v s1) by (unfold lift, dict_item; by rewrite Hget).
    assert (Hv' : 0 ≤ v + delta) by (destruct Hd as [[-> _]|[-> _]]; lia).
    destruct (IH (dict_set k' (v + delta) schedule) s1) as (sch' & s' & Hr & Hkeys & Hpos' & Hsum').
    + by rewrite (dict_set_keys _ _ v).
    + by apply Forall_dict_set.
    + rewrite (dict_set_sum _ _ v) by done.
      destruct Hd as [[-> _]|[-> ?]]; [left|right]; split; try done; lia.
    + exists sch', s'. split; [exact Hr|]. split.
      { by rewrite Hkeys, (dict_set_keys _ _ v). }
      split; [done|]. rewrite Hsum', (dict_set_sum _ _ v) by done. lia.
Qed.

End Corrections.

Lemma dict_set_NoDup `{EqDecision K} {V} (k : K) (v : V) (d : dict K V) :
  NoDup (dict_keys d) → NoDup (dict_keys (dict_set k v d)).
Proof.
  unfold dict_keys. induction d as [|[k0 v0] d IH]; csimpl.
  - intros _. apply NoDup_singleton.
  - intros [Hk0 Hnd]%NoDup_cons. destruct (decide (k0 = k)) as [->|Hne]; csimpl.
    + by apply NoDup_cons.
    + apply NoDup_cons. split; [|by apply IH].
      intros Hin. apply list_elem_of_fmap in Hin as ([k1 v1] & -> & Hin).
      apply Hk0. clear -Hin Hne. simpl in *.
      induction d as [|[k2 v2] d IH]; simpl in Hin.
      * apply list_elem_of_singleton in Hin as [= -> _]. done.
      * destruct (decide (k2 = k)) as [->|].
        -- apply elem_of_cons in Hin as [[= -> _]|Hin]; [done|]. csimpl. right.
           apply list_elem_of_fmap. by exists (k1, v1).
        -- apply elem_of_cons in Hin as [[= -> _]|Hin]; csimpl; [by left|right; by apply IH].
Qed.

Lemma dict_get_keys `{EqDecision K} {V} (k : K) (d : dict K V) :
  k ∈ dict_keys d → ∃ v, dict_get k d = Some v ∧ (k, v) ∈ d.
Proof.
  unfold dict_keys. induction d as [|[k0 v0] d IH]; csimpl.
  - intros Hin. by apply elem_of_nil in Hin.
  - intros Hin. destruct (decide (k0 = k)) as [->|Hne].
    + exists v0. split; [done|by left].
    + apply elem_of_cons in Hin as [->|Hin]; [done|].
      destruct (IH Hin) as (v & Hv & Hin'). exists v. split; [done|by right].
Qed.

Lemma foldR_Ok {A B} (P : B → Prop) (f : B → A → Result B) (l : list A) :
  (∀ b x, P b → x ∈ l → ∃ b', f b x = Ok b' ∧ P b') →
  ∀ b, P b → ∃ b', foldR f b l = Ok b' ∧ P b'.
Proof.
  induction l as [|x l IH]; intros Hf b Hb; simpl.
  - by exists b.
  - destruct (Hf b x Hb) as (b1 & -> & Hb1); [by left|]. simpl.
    apply IH; [|done]. intros b0 y Hb0 Hy. apply Hf; [done|by right].
Qed.

Lemma sumZ_nonneg (d : dict Z Z) :
  Forall (fun kv => 0 ≤ kv.2) d → 0 ≤ sumZ (dict_values d).
Proof.
  unfold dict_values. induction 1 as [|[k v] d Hv Hd IH]; [done|].
  rewrite fmap_cons, sumZ_cons. simpl in *. lia.
Qed.

Lemma sum_zero_no_bucket (d : dict Z Z) :
  Forall (fun kv => 0 ≤ kv.2) d → sumZ (dict_values d) = 0 →
  filter (fun '(key, val) => val > 0) d = [].
Proof.
  induction 1 as [|[k v] d Hv Hd IH]; [done|]. unfold dict_values.
  rewrite fmap_cons, sumZ_cons. intros Hzero. simpl in Hv, Hzero.
  pose proof (sumZ_nonneg d Hd) as Hd0. unfold dict_values in Hd0.
  unfold dict. rewrite filter_cons_False by lia. apply IH. unfold dict_values. lia.
Qed.

Lemma schedule_ok_fill_hour (hour : Z) (l : list (Z * Z)) : ∀ p,
  Forall (fun kv => 0 ≤ kv.2) l → schedule_ok p →
  schedule_ok
    (foldl (fun p '(minute, arrivals) =>
              Park.set_schedule
                (dict_set (hour * 60 + minute) arrivals (Park.schedule p)) p) p l)
  ∧ Park.random_seed
      (foldl (fun p '(minute, arrivals) =>
                Park.set_schedule
                  (dict_set (hour * 60 + minute) arrivals (Park.schedule p)) p) p l)
    = Park.random_seed p.
Proof.
  induction l as [|[m n] l IH]; intros p Hl Hp; [done|]. simpl.
  inversion_clear Hl as [|? ? Hn Hl']. simpl in Hn.
  destruct (IH (Park.set_schedule
                  (dict_set (hour * 60 + m) n (Park.schedule p)) p) Hl') as [H1 H2].
  - destruct Hp as [Hnd Hpos]. split; simpl.
    + by apply dict_set_NoDup.
    + by apply Forall_dict_set.
  - by split.
Qed.

Lemma Forall_zip_snd {A B} (P : B → Prop) (l : list A) (k : list B) :
  Forall P k → Forall (fun x => P x.2) (zip l k).
Proof.
  intros Hk. revert l. induction Hk as [|y k Hy Hk IH]; intros [|x l]; simpl; constructor; auto.
Qed.

Section Exact.
Context `{RandomSource}.

(** The Poisson samples are not negative. *)
Hypothesis poisson_nonneg : ∀ seed lam, Forall (fun n => 0 ≤ n) (np_seeded_poisson seed lam).

Lemma sample_arrivals_Ok (arrival_seed : dict string Z) (total : Z) (p : Park.t) :
  Forall (fun kv => 0 ≤ kv.2) arrival_seed →
  0 ≤ total → 0 ≤ Park.random_seed p → schedule_ok p →
  ∃ p0, Park.sample_arrivals arrival_seed total p = Ok p0 ∧ schedule_ok p0.
Proof.
  intros Hpct Htot Hseed Hp. unfold Park.sample_arrivals.
  match goal with |- ∃ p0, foldR ?f _ ?l = _ ∧ _ =>
    assert (Hfold : ∃ b', foldR f p l = Ok b'
              ∧ (schedule_ok b' ∧ Park.random_seed b' = Park.random_seed p))
  end; [|destruct Hfold as (p0 & Hr & Hp0 & _); by exists p0].
  apply (foldR_Ok (fun b => schedule_ok b ∧ Park.random_seed b = Park.random_seed p));
    [|by split].
  intros b [hour key] [Hb Hbs] Hin.
  assert (Hhour : 0 ≤ hour).
  { apply elem_of_zip_l in Hin. apply elem_of_seqZ in Hin. lia. }
  apply elem_of_zip_r in Hin. apply dict_get_keys in Hin as (pct & Hget & Hin).
  unfold dict_item. rewrite Hget. simpl.
  match goal with |- context [if ?c then Park.set_park_close ?v b else b] =>
    set (b1 := if c then Park.set_park_close v b else b) end.
  assert (Hb1 : schedule_ok b1 ∧ Park.random_seed b1 = Park.random_seed p).
  { unfold b1. by destruct (_ && _). }
  destruct Hb1 as [Hb1 Hb1s].
  unfold default_rng. rewrite Hb1s.
  destruct (Park.random_seed p + hour <? 0) eqn:E; [apply Z.ltb_lt in E; lia|]. simpl.
  unfold rng_poisson.
  assert (Hlam : Qlt_bool (inject_Z total * inject_Z pct * (1 # 100) / 60) 0 = false).
  { apply Qlt_bool_false.
    rewrite Forall_forall in Hpct. specialize (Hpct _ Hin). simpl in Hpct.
    apply Zle_Qle_inj in Htot, Hpct. simpl in Htot, Hpct.
    apply Qle_shift_div_l; [reflexivity|]. rewrite Qmult_0_l.
    apply Qmult_le_0_compat; [|discriminate].
    by apply Qmult_le_0_compat. }
  rewrite Hlam. simpl. eexists. split; [reflexivity|].
  destruct (schedule_ok_fill_hour hour
              (zip (seqZ 0 60) (np_seeded_poisson (Park.random_seed p + hour)
                 (inject_Z total * inject_Z pct * (1 # 100) / 60))) b1) as [H1 H2].
  - apply Forall_zip_snd, poisson_nonneg.
  - done.
  - split; [exact H1|]. etrans; [exact H2|exact Hb1s].
Qed.

(** The correction reaches the exact total, and no count goes below
    zero, when some sampled minute is positive or the total is zero. *)
Lemma enforce_perfect_arrivals_exact (total : Z) (p : Park.t) s :
  schedule_ok p → 0 ≤ total →
  ¬ (sumZ (dict_values (Park.schedule p)) = 0 ∧ 0 < total) →
  ∃ p' s',
    Park.enforce_perfect_arrivals total p s = Ok (p', s')
    ∧ sumZ (dict_values (Park.schedule p')) = total
    ∧ schedule_ok p'.
Proof.
  intros [Hnd Hpos] Htot Hcase. unfold Park.enforce_perfect_arrivals.
  pose proof (sumZ_nonneg _ Hpos) as Hact.
  set (actual := sumZ (dict_values (Park.schedule p))) in *. cbv zeta.
  destruct (0 <? actual - total) eqn:E1.
  - apply Z.ltb_lt in E1.
    destruct (correct_schedule_spec (Z.to_nat (actual - total)) (-1)
                (Park.schedule p) s) as (sch & s2 & Hc & Hk & Hpos2 & Hsum2);
      [done|done|right; split; [done|fold actual; lia]|].
    rewrite (M_bind_eq _ _ _ _ _ Hc).
    destruct (actual - total <? 0) eqn:E2; [apply Z.ltb_lt in E2; lia|].
    rewrite (M_bind_eq _ _ s2 sch s2) by reflexivity.
    fold actual in Hsum2. rewrite bool_decide_true by lia.
    eexists _, _. split; [reflexivity|]. unfold schedule_ok. simpl. split; [lia|].
    split; [by rewrite Hk|done].
  - apply Z.ltb_ge in E1.
    rewrite (M_bind_eq _ _ s (Park.schedule p) s) by reflexivity.
    destruct (actual - total <? 0) eqn:E2.
    + apply Z.ltb_lt in E2.
      destruct (correct_schedule_spec (Z.to_nat ((actual - total) * -1)) 1
                  (Park.schedule p) s) as (sch & s2 & Hc & Hk & Hpos2 & Hsum2);
        [done|done| |].
      { left. split; [done|]. right. fold actual.
        destruct (decide (actual = 0)) as [Hz|]; [|lia].
        exfalso. apply Hcase. split; [done|lia]. }
      rewrite (M_bind_eq _ _ _ _ _ Hc). fold actual in Hsum2.
      rewrite bool_decide_true by lia.
      eexists _, _. split; [reflexivity|]. unfold schedule_ok. simpl. split; [lia|].
      split; [by rewrite Hk|done].
    + apply Z.ltb_ge in E2.
      rewrite (M_bind_eq _ _ s (Park.schedule p) s) by reflexivity.
      fold actual. rewrite bool_decide_true by lia.
      eexists _, _. split; [reflexivity|]. unfold schedule_ok. simpl.
      split; [fold actual; lia|]. by split.
Qed.

(** When every sampled minute is zero and the total is positive, there
    is no minute to choose and [IndexError] is raised. *)
Lemma enforce_perfect_arrivals_empty (total : Z) (p : Park.t) s :
  schedule_ok p → sumZ (dict_values (Park.schedule p)) = 0 → 0 < total →
  Park.enforce_perfect_arrivals total p s = Raise IndexError.
Proof.
  intros [Hnd Hpos] Hzero Htot. unfold Park.enforce_perfect_arrivals.
  cbv zeta. rewrite Hzero.
  destruct (0 <? 0 - total) eqn:E1; [apply Z.ltb_lt in E1; lia|].
  rewrite (M_bind_eq _ _ s (Park.schedule p) s) by reflexivity.
  destruct (0 - total <? 0) eqn:E2; [|apply Z.ltb_ge in E2; lia].
  apply M_bind_Raise.
  destruct (Z.to_nat ((0 - total) * -1)) as [|n] eqn:En; [lia|]. simpl.
  apply M_bind_Raise. unfold Random.choice.
  pose proof (sum_zero_no_bucket _ Hpos Hzero) as Hnil.
  by rewrite Hnil.
Qed.

(** X24. [generate_arrival_schedule] with exact arrivals, for a table of
    percentages that are not negative, a total and a seed that are not
    negative, and Poisson samples that are not negative: the sampling
    returns, and the call returns a schedule that sums to the total with
    no negative count, unless every sampled minute is zero and the total
    is positive, when it raises [IndexError]. *)
Lemma generate_arrival_schedule_exact (arrival_seed : dict string Z) (total : Z)
    (p : Park.t) s :
  sumZ (dict_values arrival_seed) = 100 → len arrival_seed ≤ 24 →
  Forall (fun kv => 0 ≤ kv.2) arrival_seed →
  0 ≤ total → 0 ≤ Park.random_seed p → schedule_ok p →
  ∃ p0, Park.sample_arrivals arrival_seed total p = Ok p0
        ∧ schedule_ok p0
        ∧ (¬ (sumZ (dict_values (Park.schedule p0)) = 0 ∧ 0 < total) →
           ∃ p' s',
             Park.generate_arrival_schedule arrival_seed total true p s = Ok (p', s')
             ∧ sumZ (dict_values (Park.schedule p')) = total
             ∧ schedule_ok p')
        ∧ (sumZ (dict_values (Park.schedule p0)) = 0 → 0 < total →
           Park.generate_arrival_schedule arrival_seed total true p s
           = Raise IndexError).
Proof.
  intros Hsum Hlen Hpct Htot Hseed Hp.
  destruct (sample_arrivals_Ok arrival_seed total p) as (p0 & Hp0 & Hok); [done..|].
  exists p0. split; [done|]. split; [done|].
  assert (Hgen : Park.generate_arrival_schedule arrival_seed total true p s
            = Park.enforce_perfect_arrivals total p0
                {| py := py_seed (Park.random_seed p0); np := np s |}).
  { unfold Park.generate_arrival_schedule.
    rewrite bool_decide_false by (intros Hne; by apply Hne).
    destruct (24 <? len arrival_seed) eqn:E; [apply Z.ltb_lt in E; lia|].
    by rewrite Hp0, lift_bind. }
  rewrite Hgen. split.
  - intros Hcase. by apply enforce_perfect_arrivals_exact.
  - intros Hzero Hpos. by apply enforce_perfect_arrivals_empty.
Qed.

End Exact.

(** ** Runs of an attraction *)

(** X1. A [step] of an attraction loses no agent and keeps the order of
    arrival. When a run completes, the riders leave, the new riders are
    a front part of the expedited queue followed by a front part of the
    standby queue, both queues keep the rest, and the countdown restarts
    at [run_time]; while a run is under way nothing moves. *)
Theorem step_moves_front_of_queues (time : Z) (park_close : option Z)
    (a a' : Attraction.t) (exiting loaded : list nat) :
  Attraction.step time park_close a = Ok (a', (exiting, loaded)) →
  if Attraction.run_time_remaining a =? 0 then
    exiting = Attraction.agents_in_attraction a
    ∧ Attraction.agents_in_attraction a' = loaded
    ∧ Attraction.run_time_remaining a' = Attraction.run_time a
    ∧ ∃ from_exp from_standby,
        loaded = from_exp ++ from_standby
        ∧ Attraction.exp_queue a = from_exp ++ Attraction.exp_queue a'
        ∧ Attraction.queue a = from_standby ++ Attraction.queue a'
  else
    exiting = [] ∧ loaded = []
    ∧ Attraction.agents_in_attraction a' = Attraction.agents_in_attraction a
    ∧ Attraction.exp_queue a' = Attraction.exp_queue a
    ∧ Attraction.queue a' = Attraction.queue a
    ∧ Attraction.run_time_remaining a' = Attraction.run_time_remaining a.
Proof.
  unfold Attraction.step. intros Hr. inv_ok Hr.
  apply refresh_passes_fields in E as [v ->].
  injection Hr as Hr. revert Hr. unfold Attraction.run_cycle. simpl.
  destruct (Attraction.run_time_remaining a =? 0).
  - intros [= <- <- <-]. simpl. repeat split.
    exists (Attraction.expedited_agents_to_load a), (Attraction.agents_to_load a).
    repeat split; symmetry; apply slice_to_from.
  - by intros [= <- <- <-].
Qed.

(** X2. The exceptions of [Attraction.step]. Without an expedited queue
    the call always returns. With one, it raises [TypeError] when the
    closing time is [None], [ZeroDivisionError] when the park is open and
    [run_time] is zero, and returns otherwise. *)
Theorem step_exceptions (time : Z) (park_close : option Z) (a : Attraction.t) :
  (Attraction.expedited_queue a = false →
   Attraction.step time park_close a = Ok (Attraction.run_cycle a))
  ∧ (Attraction.expedited_queue a = true → park_close = None →
     Attraction.step time park_close a = Raise TypeError)
  ∧ (∀ c, Attraction.expedited_queue a = true → park_close = Some c →
          time < c → Attraction.run_time a = 0 →
          Attraction.step time park_close a = Raise ZeroDivisionError)
  ∧ (∀ c, Attraction.expedited_queue a = true → park_close = Some c →
          c ≤ time ∨ Attraction.run_time a ≠ 0 →
          is_Ok (Attraction.step time park_close a) = true).
Proof.
  unfold Attraction.step, Attraction.refresh_passes. repeat split.
  - by intros ->.
  - by intros -> ->.
  - intros c -> -> Hc Hz. simpl.
    assert ((time <? c) = true) as -> by (by apply Z.ltb_lt).
    by rewrite Hz.
  - intros c -> -> Hcase. simpl.
    destruct (time <? c) eqn:E; [|done].
    destruct Hcase as [Hc|Hz]; [apply Z.ltb_lt in E; lia|].
    unfold py_truediv.
    destruct (Qeq_bool (inject_Z (Attraction.run_time a)) 0) eqn:E0; [|done].
    apply Qeq_bool_iff in E0. unfold Qeq in E0. simpl in E0. lia.
Qed.

(** ** The wait loops of an attraction with an expedited queue *)

Lemma Qle_bool_false (a b : Q) : Qle_bool a b = false ↔ (b < a)%Q.
Proof.
  rewrite <- Qlt_bool_iff. unfold Qlt_bool. destruct (Qle_bool a b); simpl; split; done.
Qed.

Lemma Qlt_floor_mult (q c : Q) :
  (0 < c)%Q → (q < inject_Z (Qfloor (q / c) + 1) * c)%Q.
Proof.
  intros Hc. pose proof (Qlt_floor (q / c)) as Hf.
  apply (Qmult_lt_r _ _ c Hc) in Hf.
  assert (Hq : (q / c * c == q)%Q) by (field; lra).
  by rewrite Hq in Hf.
Qed.

(** The standby loop ends: [n] bounds the runs that drain the standby
    queue alone, [m] those that drain the expedited queue. *)
Lemma wait_loop_returns (cap : Q) (e : Z) (sb : Q) :
  (0 < cap)%Q → 0 ≤ e → (sb == cap - inject_Z e)%Q → (0 <= sb)%Q →
  ∀ (fuel n m : nat) (q : Q) (x runs : Z),
    (n + m ≤ fuel)%nat →
    (0 <= q)%Q → (q < inject_Z (Z.of_nat n) * cap)%Q →
    0 ≤ x → (0 < x → x + 1 ≤ Z.of_nat m) →
    ∃ k, Attraction.wait_loop fuel cap e sb q x runs = Ok (runs + k)
         ∧ 0 ≤ k ≤ Z.of_nat (n + m).
Proof.
  intros Hcap He Hsb Hsb0.
  induction fuel as [|fuel IH]; intros n m q x runs Hfuel Hq0 Hqn Hx0 Hxm.
  - assert (n = 0%nat) as -> by lia.
    change (inject_Z (Z.of_nat 0)) with 0%Q in Hqn. exfalso. lra.
  - simpl. destruct (Qle_bool cap q) eqn:Ec.
    2:{ exists 0. split; [by rewrite Z.add_0_r|lia]. }
    apply Qle_bool_iff in Ec.
    assert (Hn : (2 ≤ n)%nat).
    { destruct n as [|[|n]]; [| |lia].
      - change (inject_Z (Z.of_nat 0)) with 0%Q in Hqn. lra.
      - change (inject_Z (Z.of_nat 1)) with 1%Q in Hqn. lra. }
    assert (Hn1 : (inject_Z (Z.of_nat (n - 1)) * cap == inject_Z (Z.of_nat n) * cap - cap)%Q).
    { replace (Z.of_nat (n - 1)) with (Z.of_nat n + -1) by lia.
      rewrite inject_Z_plus. change (inject_Z (-1)) with (-1 # 1)%Q. ring. }
    unfold Attraction.drain_cycle.
    destruct (e <? x) eqn:Ex.
    + apply Z.ltb_lt in Ex.
      destruct (decide (e = 0)) as [->|Hne].
      * (* no seat for the expedited queue: the standby queue drains *)
        assert (Hsbc : (sb == cap)%Q).
        { rewrite Hsb. change (inject_Z 0) with 0%Q. ring. }
        destruct (IH (n - 1)%nat m
                    (if Qlt_bool sb q then (q - sb)%Q else 0%Q) (x - 0) (runs + 1))
          as (k & Hk & Hkb).
        { lia. }
        { destruct (Qlt_bool sb q) eqn:Es; [|lra].
          apply Qlt_bool_iff in Es. lra. }
        { rewrite Hn1. destruct (Qlt_bool sb q) eqn:Es; [lra|].
          assert (1 ≤ Z.of_nat (n - 1)) by lia.
          assert ((inject_Z 1 <= inject_Z (Z.of_nat (n - 1)))%Q) by (by apply Zle_Qle_inj).
          rewrite <- Hn1. change (inject_Z 1) with 1%Q in *. nra. }
        { lia. }
        { lia. }
        exists (k + 1). split; [|lia].
        rewrite Hk. f_equal. lia.
      * destruct (IH n (m - 1)%nat
                    (if Qlt_bool sb q then (q - sb)%Q else 0%Q) (x - e) (runs + 1))
          as (k & Hk & Hkb).
        { lia. }
        { destruct (Qlt_bool sb q) eqn:Es; [|lra].
          apply Qlt_bool_iff in Es. lra. }
        { destruct (Qlt_bool sb q) eqn:Es; lra. }
        { lia. }
        { lia. }
        exists (k + 1). split; [|lia].
        rewrite Hk. f_equal. lia.
    + apply Z.ltb_ge in Ex.
      assert (Hxe : (inject_Z x <= inject_Z e)%Q) by (by apply Zle_Qle_inj).
      assert (Hx0q : (0 <= inject_Z x)%Q) by (by apply (Zle_Qle_inj 0)).
      destruct (decide (x = 0)) as [->|Hxne].
      * destruct (IH (n - 1)%nat m (q - (cap - inject_Z 0))%Q 0 (runs + 1))
          as (k & Hk & Hkb).
        { lia. }
        { change (inject_Z 0) with 0%Q. lra. }
        { rewrite Hn1. change (inject_Z 0) with 0%Q. lra. }
        { lia. }
        { lia. }
        exists (k + 1). split; [|lia].
        rewrite Hk. f_equal. lia.
      * destruct (IH n 0%nat (q - (cap - inject_Z x))%Q 0 (runs + 1))
          as (k & Hk & Hkb).
        { lia. }
        { lra. }
        { lra. }
        { lia. }
        { lia. }
        exists (k + 1). split; [|lia].
        rewrite Hk. f_equal. lia.
Qed.

(** X3. For an attraction with an expedited queue, a positive capacity
    and a ratio in [0, 1], the loop of [get_wait_time] ends: the call
    returns [runs * run_time + run_time_remaining], and [runs] is at most
    the length of the expedited queue plus the number of full loads in
    the standby queue plus two. *)
Theorem get_wait_time_returns (fuel : nat) (a : Attraction.t) :
  Attraction.expedited_queue a = true →
  well_formed a → (0 < Attraction.capacity a)%Q →
  let bound :=
    (length (Attraction.exp_queue a)
     + Z.to_nat (Qfloor (inject_Z (len (Attraction.queue a)) / Attraction.capacity a))
     + 2)%nat in
  (bound ≤ fuel)%nat →
  ∃ runs,
    Attraction.get_wait_time fuel a
    = Ok (inject_Z (runs * Attraction.run_time a + Attraction.run_time_remaining a))
    ∧ 0 ≤ runs ≤ Z.of_nat bound.
Proof.
  intros Hexp (Hc0 & Hr0 & Hr1) Hcap bound Hfuel.
  unfold Attraction.get_wait_time. rewrite Hexp. cbv zeta.
  destruct (ratio_seats _ _ Hc0 Hr0 Hr1) as [Hs0 Hs1].
  set (e := py_int (Attraction.capacity a * Attraction.exp_queue_ratio a)).
  assert (He0 : 0 ≤ e) by (by apply py_int_nonneg).
  assert (Hec : (inject_Z e <= Attraction.capacity a)%Q).
  { eapply Qle_trans; [apply py_int_le; exact Hs0|exact Hs1]. }
  set (q := inject_Z (len (Attraction.queue a))).
  assert (Hq0 : (0 <= q)%Q) by (apply (Zle_Qle_inj 0); unfold len; lia).
  assert (Hf0 : 0 ≤ Qfloor (q / Attraction.capacity a)).
  { change 0 with (Qfloor 0). apply Qfloor_resp_le.
    apply Qle_shift_div_l; [done|]. lra. }
  destruct (wait_loop_returns (Attraction.capacity a) e
              (Attraction.capacity a - inject_Z e) Hcap He0 ltac:(reflexivity) ltac:(lra)
              fuel (Z.to_nat (Qfloor (q / Attraction.capacity a)) + 1)%nat
              (length (Attraction.exp_queue a) + 1)%nat q
              (len (Attraction.exp_queue a)) 0) as (k & Hk & Hkb).
  - unfold bound in Hfuel. fold q in Hfuel. lia.
  - done.
  - replace (Z.of_nat (Z.to_nat (Qfloor (q / Attraction.capacity a)) + 1))
      with (Qfloor (q / Attraction.capacity a) + 1) by lia.
    by apply Qlt_floor_mult.
  - unfold len. lia.
  - unfold len. lia.
  - rewrite Hk. simpl. exists k. split; [done|].
    unfold bound. fold q. lia.
Qed.

Lemma wait_loop_zero_capacity (cap sb : Q) :
  (cap == 0)%Q → (sb == 0)%Q →
  ∀ (fuel : nat) (q : Q) (x runs : Z),
    (0 <= q)%Q → 0 ≤ x →
    Attraction.wait_loop fuel cap 0 sb q x runs = Raise OutOfFuel.
Proof.
  intros Hcap Hsb. induction fuel as [|fuel IH]; intros q x runs Hq Hx; simpl.
  - destruct (Qle_bool cap q) eqn:E; [done|].
    apply Qle_bool_false in E. lra.
  - destruct (Qle_bool cap q) eqn:E; [|apply Qle_bool_false in E; lra].
    unfold Attraction.drain_cycle. destruct (0 <? x) eqn:Ex.
    + apply IH; [|lia]. destruct (Qlt_bool sb q) eqn:Es; [|lra].
      apply Qlt_bool_iff in Es. lra.
    + apply Z.ltb_ge in Ex. assert (x = 0) as -> by lia.
      apply IH; [|lia]. change (inject_Z 0) with 0%Q. lra.
Qed.

Lemma py_int_zero (x : Q) : (x == 0)%Q → py_int x = 0.
Proof.
  unfold Qeq, py_int. simpl. intros Hx.
  assert (Qnum x = 0) as -> by lia. apply Z.quot_0_l. done.
Qed.

(** X4. An attraction of capacity zero has no wait time: without an
    expedited queue [get_wait_time] raises [ZeroDivisionError], and with
    one its loop never ends, whatever the queues are. *)
Theorem get_wait_time_zero_capacity (fuel : nat) (a : Attraction.t) :
  (Attraction.capacity a == 0)%Q →
  Attraction.get_wait_time fuel a
  = if Attraction.expedited_queue a then Raise OutOfFuel else Raise ZeroDivisionError.
Proof.
  intros Hcap. unfold Attraction.get_wait_time.
  destruct (Attraction.expedited_queue a).
  - cbv zeta. rewrite (py_int_zero (Attraction.capacity a * Attraction.exp_queue_ratio a))
      by (rewrite Hcap; ring).
    rewrite (wait_loop_zero_capacity (Attraction.capacity a)
               (Attraction.capacity a - inject_Z 0) Hcap).
    + done.
    + rewrite Hcap. change (inject_Z 0) with 0%Q. ring.
    + apply (Zle_Qle_inj 0). unfold len. lia.
    + unfold len. lia.
  - unfold py_floordiv. apply Qeq_bool_iff in Hcap. by rewrite Hcap.
Qed.

Lemma exp_wait_loop_returns (cap : Q) (e : Z) (sb : Q) :
  (0 < cap)%Q → 1 ≤ e →
  ∀ (fuel : nat) (q : Q) (x runs : Z),
    0 ≤ x ≤ Z.of_nat fuel →
    ∃ k, Attraction.exp_wait_loop fuel cap e sb q x runs = Ok (runs + k)
         ∧ 0 ≤ k ≤ x.
Proof.
  intros Hcap He. induction fuel as [|fuel IH]; intros q x runs Hx; simpl.
  - assert (x = 0) as -> by lia.
    destruct (Qle_bool cap (inject_Z 0)) eqn:E.
    + apply Qle_bool_iff in E. change (inject_Z 0) with 0%Q in E. lra.
    + exists 0. split; [by rewrite Z.add_0_r|lia].
  - destruct (Qle_bool cap (inject_Z x)) eqn:E.
    2:{ exists 0. split; [by rewrite Z.add_0_r|lia]. }
    apply Qle_bool_iff in E.
    assert (Hx1 : 1 ≤ x).
    { destruct (decide (x = 0)) as [->|]; [|lia].
      change (inject_Z 0) with 0%Q in E. lra. }
    unfold Attraction.drain_cycle. destruct (e <? x) eqn:Ex.
    + apply Z.ltb_lt in Ex.
      destruct (IH (if Qlt_bool sb q then (q - sb)%Q else 0%Q) (x - e) (runs + 1))
        as (k & Hk & Hkb); [lia|].
      exists (k + 1). split; [|lia]. rewrite Hk. f_equal. lia.
    + destruct (IH (q - (cap - inject_Z x))%Q 0 (runs + 1))
        as (k & Hk & Hkb); [lia|].
      exists (k + 1). split; [|lia]. rewrite Hk. f_equal. lia.
Qed.

(** X5. When at least one whole seat of each run goes to the expedited
    queue, the loop of [get_exp_wait_time] ends: the call returns
    [runs * run_time + run_time_remaining] with [runs] at most the length
    of the expedited queue. *)
Theorem get_exp_wait_time_returns (fuel : nat) (a : Attraction.t) :
  Attraction.expedited_queue a = true →
  (0 < Attraction.capacity a)%Q →
  1 ≤ py_int (Attraction.capacity a * Attraction.exp_queue_ratio a) →
  (length (Attraction.exp_queue a) ≤ fuel)%nat →
  ∃ runs,
    Attraction.get_exp_wait_time fuel a
    = Ok (runs * Attraction.run_time a + Attraction.run_time_remaining a)
    ∧ 0 ≤ runs ≤ len (Attraction.exp_queue a).
Proof.
  intros Hexp Hcap He Hfuel. unfold Attraction.get_exp_wait_time.
  rewrite Hexp. cbv zeta.
  destruct (exp_wait_loop_returns (Attraction.capacity a)
              (py_int (Attraction.capacity a * Attraction.exp_queue_ratio a))
              (Attraction.capacity a
               - inject_Z (py_int (Attraction.capacity a * Attraction.exp_queue_ratio a)))
              Hcap He fuel (inject_Z (len (Attraction.queue a)))
              (len (Attraction.exp_queue a)) 0) as (k & Hk & Hkb).
  - unfold len. lia.
  - rewrite Hk. simpl. by exists k.
Qed.

Lemma exp_wait_loop_hangs (cap sb : Q) :
  ∀ (fuel : nat) (q : Q) (x runs : Z),
    0 < x → (cap <= inject_Z x)%Q →
    Attraction.exp_wait_loop fuel cap 0 sb q x runs = Raise OutOfFuel.
Proof.
  induction fuel as [|fuel IH]; intros q x runs Hx Hc; simpl.
  - apply Qle_bool_iff in Hc. by rewrite Hc.
  - pose proof Hc as Hc'. apply Qle_bool_iff in Hc'. rewrite Hc'.
    unfold Attraction.drain_cycle.
    assert ((0 <? x) = true) as -> by (by apply Z.ltb_lt).
    apply IH; [lia|]. by rewrite Z.sub_0_r.
Qed.

(** X6. When no whole seat goes to the expedited queue
    ([int(capacity * ratio)] is zero) and the expedited queue holds at
    least one agent and at least [capacity] agents, the loop of
    [get_exp_wait_time] never ends: the queue length it tests is never
    reduced. *)
Theorem get_exp_wait_time_hangs (fuel : nat) (a : Attraction.t) :
  Attraction.expedited_queue a = true →
  py_int (Attraction.capacity a * Attraction.exp_queue_ratio a) = 0 →
  Attraction.exp_queue a ≠ [] →
  (Attraction.capacity a <= inject_Z (len (Attraction.exp_queue a)))%Q →
  Attraction.get_exp_wait_time fuel a = Raise OutOfFuel.
Proof.
  intros Hexp He Hne Hc. unfold Attraction.get_exp_wait_time.
  rewrite Hexp. cbv zeta. rewrite He.
  rewrite exp_wait_loop_hangs.
  - done.
  - unfold len. destruct (Attraction.exp_queue a); [done|]. simpl. lia.
  - done.
Qed.

(** ** Visitors of an activity *)

Lemma foldR_app {A B} (f : B → A → Result B) (l k : list A) (b : B) :
  foldR f b (l ++ k) = (b' ← foldR f b l; foldR f b' k).
Proof.
  revert b. induction l as [|x l IH]; intros b; simpl; [done|].
  destruct (f b x); simpl; [apply IH|done].
Qed.

Lemma list_del_middle {A} (l k : list A) (x : A) :
  list_del (length l) (l ++ x :: k) = Ok (l ++ k).
Proof.
  unfold list_del. rewrite decide_True by (rewrite length_app; simpl; lia).
  f_equal. induction l; simpl; [done|by f_equal].
Qed.

Lemma list_index_None `{EqDecision A} (x : A) (l : list A) :
  list_index x l = None ↔ x ∉ l.
Proof.
  induction l as [|y l IH]; simpl.
  - split; [intros _; apply not_elem_of_nil|done].
  - destruct (decide (y = x)) as [->|Hne].
    + split; [done|]. intros Hx. exfalso. apply Hx. by left.
    + rewrite not_elem_of_cons. destruct (list_index x l); simpl.
      * split; [done|]. intros [_ Hx]. by apply IH in Hx.
      * split; [|done]. intros _. split; [done|by apply IH].
Qed.

Lemma list_index_app_new `{EqDecision A} (x : A) (l : list A) :
  x ∉ l → list_index x (l ++ [x]) = Some (length l).
Proof.
  induction l as [|y l IH]; simpl.
  - intros _. by rewrite decide_True.
  - intros [Hne Hx]%not_elem_of_cons. rewrite decide_False by done.
    by rewrite IH.
Qed.

(** The deletions of [step], from the last position to the first, leave
    the visitors whose time is not up, whatever stands before them. *)
Lemma step_deletions (a : Activity.t) :
  ∀ (vs : list nat) (rem : list Z) (pv : list nat) (pr : list Z),
    length pv = length pr → length vs = length rem →
    ∃ ex,
      Activity.exiting_from (length pv) vs (pr ++ rem) = Ok ex
      ∧ ex.*2 = (filter (fun p => p.2 = 0) (zip vs rem)).*1
      ∧ foldR (fun a '(ind, _) =>
                 v ← list_del ind (Activity.visitors a);
                 w ← list_del ind (Activity.visitor_time_remaining a);
                 Ok (Activity.set_visitors v w a))
          (Activity.set_visitors (pv ++ vs) (pr ++ rem) a) (reverse ex)
        = Ok (Activity.set_visitors
                (pv ++ (filter (fun p => p.2 ≠ 0) (zip vs rem)).*1)
                (pr ++ (filter (fun p => p.2 ≠ 0) (zip vs rem)).*2) a).
Proof.
  induction vs as [|v vs IH]; intros rem pv pr Hp Hl.
  - destruct rem; [|done]. exists []. simpl. done.
  - destruct rem as [|r rem]; [done|]. simpl in Hl.
    destruct (IH rem (pv ++ [v]) (pr ++ [r])) as (ex & Hex & Hout & Hfold).
    { rewrite !length_app. simpl. lia. }
    { lia. }
    rewrite length_app, Nat.add_1_r, <- !(assoc_L (++)) in Hex. simpl in Hex.
    rewrite <- !(assoc_L (++)) in Hfold. simpl in Hfold.
    simpl. rewrite (list_lookup_middle pr rem r (length pv) Hp). simpl.
    rewrite Hex. simpl.
    destruct (r =? 0) eqn:Er.
    + apply Z.eqb_eq in Er. subst r.
      exists ((length pv, v) :: ex). split; [done|].
      rewrite filter_cons_True by done. rewrite (filter_cons_False (λ p, p.2 ≠ 0)) by (simpl; lia).
      split; [csimpl; by rewrite Hout|].
      rewrite reverse_cons, foldR_app, Hfold. simpl.
      rewrite list_del_middle. simpl. rewrite Hp, list_del_middle. done.
    + apply Z.eqb_neq in Er.
      exists ex. split; [done|].
      rewrite filter_cons_False by done. rewrite (filter_cons_True (λ p, p.2 ≠ 0)) by done.
      split; [done|]. rewrite Hfold. done.
Qed.

Lemma step_finished (time : Z) (a : Activity.t) :
  aligned a →
  Activity.step time a
  = Ok (Activity.set_visitors (staying a).*1 (staying a).*2 a, reverse (finished a).*1).
Proof.
  intros Ha. unfold Activity.step.
  destruct (step_deletions a (Activity.visitors a) (Activity.visitor_time_remaining a)
              [] [] eq_refl Ha) as (ex & Hex & Hout & Hfold).
  simpl in Hex, Hfold. rewrite Hex. simpl.
  replace (Activity.set_visitors (Activity.visitors a)
             (Activity.visitor_time_remaining a) a) with a in Hfold by (by destruct a).
  rewrite Hfold. simpl. by rewrite fmap_reverse, Hout.
Qed.

(** X7. [Activity.step] releases exactly the visitors whose remaining
    time is zero, the last to have entered first, and keeps the others
    in order with their remaining times. *)
Theorem step_releases_finished_visitors (time : Z) (a : Activity.t) :
  aligned a →
  ∃ a',
    Activity.step time a = Ok (a', reverse (finished a).*1)
    ∧ zip (Activity.visitors a') (Activity.visitor_time_remaining a') = staying a
    ∧ aligned a'.
Proof.
  intros Ha. rewrite (step_finished time a Ha). eexists. split; [done|].
  unfold aligned. simpl. split; [|by rewrite !length_fmap].
  apply zip_fst_snd.
Qed.

Lemma list_index_lt `{EqDecision A} (x : A) (l : list A) (i : nat) :
  list_index x l = Some i → (i < length l)%nat ∧ l !! i = Some x.
Proof.
  revert i. induction l as [|y l IH]; intros i; simpl; [done|].
  destruct (decide (y = x)) as [->|Hne].
  - intros [= <-]. split; [lia|done].
  - destruct (list_index x l) as [j|]; [|done]. intros [= <-].
    destruct (IH j eq_refl). split; [lia|done].
Qed.

Section Visitors.
Context `{RandomSource}.

(** X8. Every method of an activity that moves visitors keeps the two
    lists aligned: a visitor and its remaining time enter and leave
    together. *)
Theorem activity_methods_keep_aligned (a : Activity.t) :
  aligned a →
  (∀ agent_id deadlines s a' s',
     Activity.add_to_activity agent_id deadlines a s = Ok (a', s') → aligned a')
  ∧ (∀ agent_id a', Activity.force_exit agent_id a = Ok a' → aligned a')
  ∧ (∀ time a' out, Activity.step time a = Ok (a', out) → aligned a')
  ∧ aligned (Activity.pass_time a).
Proof.
  intros Ha. unfold aligned in *. repeat split.
  - intros agent_id deadlines s a' s' Hr. unfold Activity.add_to_activity in Hr.
    bind_ok Hr as stay Hstay. ret_ok Hr. simpl. rewrite !length_app. simpl. lia.
  - intros agent_id a' Hr. unfold Activity.force_exit in Hr.
    bind_ok Hr as ind Hind. bind_ok Hr as v Hv. bind_ok Hr as w Hw.
    injection Hr as <-. simpl.
    apply list_del_Ok in Hv as [-> Hiv]. apply list_del_Ok in Hw as [-> Hiw].
    rewrite !length_delete by (by apply lookup_lt_is_Some_2). lia.
  - intros time a' out Hr. rewrite (step_finished time a Ha) in Hr.
    injection Hr as <- _. simpl. by rewrite !length_fmap.
  - simpl. by rewrite length_fmap.
Qed.

(** X9. [force_exit] raises [ValueError] for an agent that is not a
    visitor, and it undoes [add_to_activity]: an agent that was not a
    visitor, once added and forced out, leaves the visitors and their
    remaining times as they were. *)
Theorem force_exit_undoes_add_to_activity (agent_id : nat) (a : Activity.t) :
  agent_id ∉ Activity.visitors a →
  Activity.force_exit agent_id a = Raise ValueError
  ∧ (aligned a →
     ∀ deadlines s a1 s1,
       Activity.add_to_activity agent_id deadlines a s = Ok (a1, s1) →
       ∃ a2, Activity.force_exit agent_id a1 = Ok a2
             ∧ Activity.visitors a2 = Activity.visitors a
             ∧ Activity.visitor_time_remaining a2 = Activity.visitor_time_remaining a).
Proof.
  intros Hnot. split.
  - unfold Activity.force_exit. apply list_index_None in Hnot. by rewrite Hnot.
  - intros Ha deadlines s a1 s1 Hr. unfold Activity.add_to_activity in Hr.
    bind_ok Hr as stay Hstay. ret_ok Hr.
    unfold Activity.force_exit. simpl.
    rewrite (list_index_app_new _ _ Hnot). simpl.
    rewrite list_del_middle. simpl. rewrite Ha, list_del_middle. simpl.
    eexists. split; [done|]. simpl. by rewrite !app_nil_r.
Qed.

End Visitors.

(** ** Passes handed out and handed back *)

Lemma list_index_Some `{EqDecision A} (x : A) (l : list A) :
  x ∈ l → ∃ i, list_index x l = Some i.
Proof.
  intros Hx. destruct (list_index x l) as [i|] eqn:E; [by exists i|].
  by apply list_index_None in E.
Qed.

Lemma delete_app_last {A} (l : list A) (x : A) : delete (length l) (l ++ [x]) = l.
Proof. induction l; simpl; [done|by f_equal]. Qed.

(** X10. [return_pass] raises [ValueError] for an agent that is not in
    the expedited queue, and it undoes the handing out of a pass: after
    [remove_pass], [add_to_exp_queue] and [return_pass] for an agent that
    was not queued, the expedited queue, the standby queue, the riders
    and the count of distributed passes are what they were. *)
Theorem return_pass_undoes_pass (agent_id : nat) (a : Attraction.t) :
  agent_id ∉ Attraction.exp_queue a →
  Attraction.return_pass agent_id a = Raise ValueError
  ∧ ∀ fuel a1 w,
      Attraction.add_to_exp_queue fuel agent_id (Attraction.remove_pass a) = Ok (a1, w) →
      ∃ a2, Attraction.return_pass agent_id a1 = Ok a2
            ∧ Attraction.exp_queue a2 = Attraction.exp_queue a
            ∧ Attraction.queue a2 = Attraction.queue a
            ∧ Attraction.agents_in_attraction a2 = Attraction.agents_in_attraction a
            ∧ Attraction.exp_queue_passes_distributed a2
              = Attraction.exp_queue_passes_distributed a.
Proof.
  intros Hnot. split.
  - unfold Attraction.return_pass, list_remove. simpl.
    apply list_index_None in Hnot. by rewrite Hnot.
  - intros fuel a1 w Hr. unfold Attraction.add_to_exp_queue in Hr.
    bind_ok Hr as w' Hw. injection Hr as <- _.
    unfold Attraction.return_pass, list_remove. simpl.
    rewrite (list_index_app_new _ _ Hnot). simpl.
    eexists. split; [done|]. simpl. rewrite delete_app_last.
    repeat split. lia.
Qed.

Lemma last_index_notin (x : string) (l : list string) :
  ∀ ind acc, x ∉ l → Agent.last_index x ind l acc = acc.
Proof.
  induction l as [|y l IH]; intros ind acc Hx; simpl; [done|].
  apply not_elem_of_cons in Hx as [Hne Hx].
  rewrite decide_False by done. by apply IH.
Qed.

Lemma last_index_snoc (x : string) (l : list string) :
  ∀ ind acc, Agent.last_index x ind (l ++ [x]) acc = Some (ind + length l)%nat.
Proof.
  induction l as [|y l IH]; intros ind acc; simpl.
  - rewrite decide_True by done. f_equal. lia.
  - rewrite IH. f_equal. lia.
Qed.

Lemma last_index_NoDup (x : string) (l : list string) :
  ∀ ind acc i, NoDup l → l !! i = Some x →
    Agent.last_index x ind l acc = Some (ind + i)%nat.
Proof.
  induction l as [|y l IH]; intros ind acc i Hnd Hi; [done|].
  apply NoDup_cons in Hnd as [Hy Hnd]. simpl. destruct i as [|i]; simpl in Hi.
  - injection Hi as ->. rewrite decide_True by done.
    rewrite last_index_notin by done. f_equal. lia.
  - rewrite (IH (S ind) _ i Hnd Hi). f_equal. lia.
Qed.

Lemma last_index_None (x : string) (l : list string) :
  ∀ ind acc, Agent.last_index x ind l acc = None → acc = None ∧ x ∉ l.
Proof.
  induction l as [|y l IH]; intros ind acc Hl; simpl in Hl.
  - split; [done|apply not_elem_of_nil].
  - apply IH in Hl as [Hacc Hx]. destruct (decide (y = x)) as [->|Hne]; [done|].
    split; [done|]. by apply not_elem_of_cons.
Qed.

(** X11. [return_exp_pass] raises [TypeError] for an attraction whose
    pass the agent does not hold, and it undoes the taking of a pass:
    after [get_pass] and [assign_expedited_return_time], returning the
    pass leaves the held passes and their return times as they were. *)
Theorem return_exp_pass_undoes_get_pass (attraction : string) (a : Agent.t) :
  (attraction ∉ Agent.expedited_pass (Agent.st a) →
   Agent.return_exp_pass attraction a = Raise TypeError)
  ∧ (length (Agent.expedited_pass (Agent.st a))
     = length (Agent.expedited_return_time (Agent.st a)) →
     ∀ time w,
       ∃ a', Agent.return_exp_pass attraction
               (Agent.assign_expedited_return_time w (Agent.get_pass attraction time a))
             = Ok a'
             ∧ Agent.expedited_pass (Agent.st a') = Agent.expedited_pass (Agent.st a)
             ∧ Agent.expedited_return_time (Agent.st a')
               = Agent.expedited_return_time (Agent.st a)).
Proof.
  split.
  - intros Hnot. unfold Agent.return_exp_pass.
    by rewrite last_index_notin.
  - intros Hlen time w. unfold Agent.return_exp_pass. simpl.
    rewrite last_index_snoc. simpl.
    rewrite list_del_middle. simpl. rewrite Hlen, list_del_middle. simpl.
    eexists. split; [done|]. simpl. by rewrite !app_nil_r.
Qed.

(** ** Passes and their countdowns *)

Lemma holds_own (a : Agent.t) :
  length (Agent.expedited_pass (Agent.st a))
  = length (Agent.expedited_return_time (Agent.st a)) →
  holds a (pass_countdowns a).
Proof.
  intros Hlen. unfold holds, pass_countdowns.
  by rewrite fst_zip, snd_zip by lia.
Qed.

Lemma holds_ext (a b : Agent.t) pairs :
  Agent.expedited_pass (Agent.st b) = Agent.expedited_pass (Agent.st a) →
  Agent.expedited_return_time (Agent.st b) = Agent.expedited_return_time (Agent.st a) →
  holds a pairs → holds b pairs.
Proof. unfold holds. by intros -> ->. Qed.

Lemma filter_other_pass (name : string) (l : list string) (r : list Z) :
  name ∉ l → filter (fun nt : string * Z => nt.1 ≠ name) (zip l r) = zip l r.
Proof.
  revert r. induction l as [|x l IH]; intros r Hx; [done|]. destruct r as [|y r]; [done|].
  apply not_elem_of_cons in Hx as [Hne Hx]. simpl.
  rewrite filter_cons_True by (simpl; congruence). by rewrite IH.
Qed.

(** Deleting one position of both lists removes the pair of the pass
    that stood there. *)
Lemma delete_pair (passes : list string) (times : list Z) (i : nat) (name : string) :
  NoDup passes → length passes = length times → passes !! i = Some name →
  delete i passes = (filter (fun nt => nt.1 ≠ name) (zip passes times)).*1
  ∧ delete i times = (filter (fun nt => nt.1 ≠ name) (zip passes times)).*2.
Proof.
  intros Hnd Hlen Hi.
  pose proof (lookup_lt_Some _ _ _ Hi) as Hlt.
  apply list_elem_of_split_length in Hi as (l1 & l2 & -> & ->).
  destruct (nth_lookup_or_length times (length l1) 0) as [Hr|Hr]; [|lia].
  apply list_elem_of_split_length in Hr as (r1 & r2 & Hrl & Hr1).
  set (t0 := nth (length l1) times 0) in *. clearbody t0. subst times.
  rewrite !length_app in Hlen. simpl in Hlen.
  apply NoDup_app in Hnd as (Hnd1 & Hd & Hnd2).
  apply NoDup_cons in Hnd2 as [Hn2 Hnd2].
  assert (Hn1 : name ∉ l1).
  { intros Hin. apply (Hd _ Hin). by left. }
  rewrite zip_with_app by lia. simpl.
  rewrite filter_app, filter_cons_False by (simpl; intros Hn; by apply Hn).
  rewrite !filter_other_pass by done. rewrite <- zip_with_app by lia.
  rewrite fst_zip, snd_zip by (rewrite !length_app; lia).
  split.
  - clear. induction l1; simpl; [done|by f_equal].
  - rewrite Hr1. clear. induction r1; simpl; [done|by f_equal].
Qed.

Lemma return_exp_pass_pairs (name : string) (a a' : Agent.t) :
  passes_ok a → Agent.return_exp_pass name a = Ok a' →
  holds a' (filter (fun nt => nt.1 ≠ name) (pass_countdowns a)).
Proof.
  intros [Hnd Hlen] Hr. unfold Agent.return_exp_pass in Hr.
  bind_ok Hr as i Hi. apply or_raise_Ok in Hi.
  bind_ok Hr as passes' Hp. bind_ok Hr as times' Ht. injection Hr as <-.
  apply list_del_Ok in Hp as [-> Hip]. apply list_del_Ok in Ht as [-> Hit].
  assert (Hname : Agent.expedited_pass (Agent.st a) !! i = Some name).
  { destruct (decide (name ∈ Agent.expedited_pass (Agent.st a))) as [Hin|Hnot].
    - apply list_elem_of_lookup in Hin as [j Hj].
      rewrite (last_index_NoDup name _ 0 None j Hnd Hj) in Hi. by injection Hi as <-.
    - by rewrite last_index_notin in Hi. }
  unfold holds, pass_countdowns. simpl. by apply delete_pair.
Qed.

Lemma boarded_pairs (name : string) (time : Z) (a a' : Agent.t) (redeemed : bool) :
  passes_ok a → Agent.agent_boarded_attraction name time a = Ok (a', redeemed) →
  holds a' (filter (fun nt => nt.1 ≠ name) (pass_countdowns a)).
Proof.
  intros [Hnd Hlen] Hr. unfold Agent.agent_boarded_attraction in Hr.
  case_bool_decide as Hin.
  - apply list_elem_of_lookup in Hin as [i Hi].
    rewrite (last_index_NoDup name _ 0 None i Hnd Hi) in Hr. simpl in Hr.
    bind_ok Hr as s1 Hs. injection Hr as <- _.
    bind_ok Hs as passes' Hp. bind_ok Hs as times' Ht. injection Hs as <-.
    apply list_del_Ok in Hp as [-> Hip]. apply list_del_Ok in Ht as [-> Hit].
    unfold holds, pass_countdowns. simpl. by apply delete_pair.
  - injection Hr as <- _. unfold holds, pass_countdowns. simpl.
    rewrite filter_other_pass by done. by rewrite fst_zip, snd_zip by lia.
Qed.

Lemma get_pass_pairs (name : string) (time w : Z) (a : Agent.t) :
  length (Agent.expedited_pass (Agent.st a))
  = length (Agent.expedited_return_time (Agent.st a)) →
  holds (Agent.assign_expedited_return_time w (Agent.get_pass name time a))
    (pass_countdowns a ++ [(name, w)]).
Proof.
  intros Hlen. unfold holds, pass_countdowns. simpl.
  rewrite !fmap_app, fst_zip, snd_zip by lia. done.
Qed.

Lemma pass_time_pairs (a : Agent.t) :
  length (Agent.expedited_pass (Agent.st a))
  = length (Agent.expedited_return_time (Agent.st a)) →
  holds (Agent.pass_time a)
    (if Agent.within_park (Agent.st a)
     then prod_map id (fun val => val - 1) <$> pass_countdowns a
     else pass_countdowns a).
Proof.
  intros Hlen. unfold Agent.pass_time.
  destruct (Agent.within_park (Agent.st a)); [|by apply holds_own].
  unfold holds, pass_countdowns. simpl.
  rewrite <- !list_fmap_compose.
  assert (H1 : (zip (Agent.expedited_pass (Agent.st a))
                  (Agent.expedited_return_time (Agent.st a))).*1
               = Agent.expedited_pass (Agent.st a)) by (by rewrite fst_zip by lia).
  assert (H2 : (zip (Agent.expedited_pass (Agent.st a))
                  (Agent.expedited_return_time (Agent.st a))).*2
               = Agent.expedited_return_time (Agent.st a)) by (by rewrite snd_zip by lia).
  destruct (Agent.expedited_pass (Agent.st a)) as [|x l] eqn:E; simpl.
  - rewrite E. destruct (Agent.expedited_return_time (Agent.st a)); done.
  - rewrite E. split.
    + rewrite <- H1 at 1. by apply list_fmap_ext.
    + rewrite <- H2 at 1. rewrite <- list_fmap_compose. by apply list_fmap_ext.
Qed.

Section Paired.
Context `{RandomSource}.

(** C9. In every reachable park, no agent holds two passes for the
    same attraction, and the list of held passes and the list of return
    countdowns have the same length and are read pairwise: they are the
    two columns of one list of pairs, and every method of the agent
    treats them so. Taking a pass appends its pair, returning or
    redeeming a pass removes its pair, a minute inside the park lowers
    every countdown by one, and no other method changes a pair. *)
Theorem held_passes_distinct_and_paired (p : Park.t) (k : nat) (a : Agent.t) :
  reachable p →
  Park.agents p !! k = Some a →
  NoDup (Agent.expedited_pass (Agent.st a))
  ∧ length (Agent.expedited_pass (Agent.st a))
    = length (Agent.expedited_return_time (Agent.st a))
  ∧ holds a (pass_countdowns a)
  ∧ (∀ name time w,
       holds (Agent.assign_expedited_return_time w (Agent.get_pass name time a))
         (pass_countdowns a ++ [(name, w)]))
  ∧ (∀ name a', Agent.return_exp_pass name a = Ok a' →
       holds a' (filter (fun nt => nt.1 ≠ name) (pass_countdowns a)))
  ∧ (∀ name time a' redeemed,
       Agent.agent_boarded_attraction name time a = Ok (a', redeemed) →
       holds a' (filter (fun nt => nt.1 ≠ name) (pass_countdowns a)))
  ∧ holds (Agent.pass_time a)
      (if Agent.within_park (Agent.st a)
       then prod_map id (fun val => val - 1) <$> pass_countdowns a
       else pass_countdowns a)
  ∧ (∀ time, holds (Agent.arrive_at_park time a) (pass_countdowns a))
  ∧ (∀ time, holds (Agent.leave_park time a) (pass_countdowns a))
  ∧ (∀ name time, holds (Agent.enter_queue name time a) (pass_countdowns a))
  ∧ (∀ name time, holds (Agent.begin_activity name time a) (pass_countdowns a))
  ∧ (∀ name time a', Agent.agent_exited_attraction name time a = Ok a' →
       holds a' (pass_countdowns a))
  ∧ (∀ name time a', Agent.agent_exited_activity name time a = Ok a' →
       holds a' (pass_countdowns a)).
Proof.
  intros Hp Hk. apply reachable_agents_ok in Hp. unfold agents_ok in Hp.
  rewrite Forall_lookup in Hp. pose proof (Hp k a Hk) as Hok.
  destruct Hok as [Hnd Hlen].
  pose proof (holds_own a Hlen) as Hown.
  split; [done|]. split; [done|]. split; [done|].
  split; [intros; by apply get_pass_pairs|].
  split; [intros name a' Hr; by eapply return_exp_pass_pairs|].
  split; [intros name time a' redeemed Hr; by eapply boarded_pairs|].
  split; [by apply pass_time_pairs|].
  split; [done|]. split; [done|]. split; [done|]. split; [done|]. split.
  - intros name time a' Hr. unfold Agent.agent_exited_attraction in Hr.
    bind_ok Hr as n Hn. by injection Hr as <-.
  - intros name time a' Hr. unfold Agent.agent_exited_activity in Hr.
    bind_ok Hr as [n m] Hn. by injection Hr as <-.
Qed.

End Paired.

(** X12. Boarding redeems the pass of the attraction. For an agent whose
    passes are distinct and paired with their return times,
    [agent_boarded_attraction] returns, tells whether a pass of that
    attraction was held, and removes that pass together with its own
    countdown: the passes and countdowns left are the pairs held
    before, without the pair of that attraction, in order. The agent is
    riding there. *)
Theorem boarding_redeems_the_pass (name : string) (time : Z) (a : Agent.t) :
  passes_ok a →
  ∃ a',
    Agent.agent_boarded_attraction name time a
    = Ok (a', bool_decide (name ∈ Agent.expedited_pass (Agent.st a)))
    ∧ holds a' (filter (fun nt => nt.1 ≠ name) (pass_countdowns a))
    ∧ (name ∉ Agent.expedited_pass (Agent.st a'))
    ∧ passes_ok a'
    ∧ Agent.current_location (Agent.st a') = Some name
    ∧ Agent.current_action (Agent.st a') = Some Agent.riding
    ∧ (∀ other, other ≠ name →
         other ∈ Agent.expedited_pass (Agent.st a') ↔
         other ∈ Agent.expedited_pass (Agent.st a)).
Proof.
  intros Hok.
  assert (Hpairs : ∀ a' b, Agent.agent_boarded_attraction name time a = Ok (a', b) →
            holds a' (filter (fun nt => nt.1 ≠ name) (pass_countdowns a))).
  { intros a' b Hr. by eapply boarded_pairs. }
  destruct Hok as [Hnd Hlen]. revert Hpairs. unfold Agent.agent_boarded_attraction.
  case_bool_decide as Hin.
  - apply list_elem_of_lookup in Hin as [i Hi].
    rewrite (last_index_NoDup name _ 0 None i Hnd Hi). simpl.
    pose proof (lookup_lt_Some _ _ _ Hi) as Hlt.
    apply list_elem_of_split_length in Hi as (l1 & l2 & Hl & ->).
    destruct (nth_lookup_or_length (Agent.expedited_return_time (Agent.st a))
                (length l1) 0) as [Hr|Hr]; [|lia].
    apply list_elem_of_split_length in Hr as (r1 & r2 & Hrl & Hr1).
    rewrite Hl, Hrl, list_del_middle. simpl. rewrite Hr1, list_del_middle. simpl.
    rewrite Hl in Hnd. apply NoDup_app in Hnd as (Hnd1 & Hd & Hnd2).
    apply NoDup_cons in Hnd2 as [Hn2 Hnd2].
    intros Hpairs. eexists. split; [done|]. split; [by eapply Hpairs|]. simpl.
    split; [|split; [split|split; [done|split; [done|]]]].
    + rewrite not_elem_of_app. split; [|done]. intros Hn1. apply (Hd _ Hn1). by left.
    + simpl. apply NoDup_app. repeat split; [done| |done].
      intros x Hx1 Hx2. apply (Hd _ Hx1). by right.
    + rewrite Hl, Hrl, !length_app in Hlen. simpl in Hlen. simpl.
      rewrite !length_app. lia.
    + intros other Hne. rewrite !elem_of_app, elem_of_cons.
      split; [intros [?|?]; auto|intros [?|[?|?]]; [auto|done|auto]].
  - intros Hpairs. eexists. split; [done|]. split; [by eapply Hpairs|].
    simpl. repeat split; done.
Qed.

(** ** The passes of an agent who leaves *)

Lemma dict_get_set_ne `{EqDecision K} {V} (k k' : K) (v : V) (d : dict K V) :
  k ≠ k' → dict_get k' (dict_set k v d) = dict_get k' d.
Proof.
  intros Hne. induction d as [|[k0 v0] d IH]; simpl.
  - by rewrite decide_False.
  - destruct (decide (k0 = k)) as [->|Hk]; simpl.
    + by rewrite !decide_False.
    + destruct (decide (k0 = k')); [done|apply IH].
Qed.

Lemma every_other_elem_of {A} (x : A) (l : list A) : x ∈ every_other l → x ∈ l.
Proof.
  assert (Hboth : ∀ a, (x ∈ every_other l → x ∈ l)
                       ∧ (x ∈ every_other (a :: l) → x ∈ a :: l)).
  { induction l as [|y l IH]; intros a; simpl.
    - split; intros Hx; by apply elem_of_nil in Hx.
    - split; [apply (IH y)|].
      intros [->|Hx]%elem_of_cons; [right; by left|].
      right. right. by apply (IH y). }
  destruct l as [|a l]; [done|]. apply (Hboth a).
Qed.

Lemma every_other_cons_elem_of {A} (x a : A) (l : list A) :
  x ∈ every_other (a :: l) → x ∈ l.
Proof.
  destruct l as [|y l]; simpl; [intros Hx; by apply elem_of_nil in Hx|].
  intros [->|Hx]%elem_of_cons; [by left|right; by apply every_other_elem_of].
Qed.

Lemma every_other_step {A} (l1 l2 : list A) (a : A) :
  take (S (length l1)) (l1 ++ l2) ++ every_other (drop (S (length l1)) (l1 ++ l2))
  = l1 ++ every_other (a :: l2).
Proof.
  rewrite take_app_ge, drop_app_ge by lia.
  replace (S (length l1) - length l1)%nat with 1%nat by lia.
  destruct l2 as [|y l2]; simpl.
  - by rewrite !app_nil_r.
  - by rewrite take_0, drop_0, <- (assoc_L (++)).
Qed.

Lemma agent_item_lookup (k : nat) (p : Park.t) :
  Park.agent_item (Z.of_nat k) p = or_raise KeyError (Park.agents p !! k).
Proof.
  unfold Park.agent_item. destruct (Z.of_nat k <? 0) eqn:E; [apply Z.ltb_lt in E; lia|].
  by rewrite Nat2Z.id.
Qed.

(** The loop of [update_park_state] over the passes of a leaving agent
    reads position [ind] of a list that its body shortens: from [ind]
    on, it hands back the first, third, ... pass and keeps the others. *)
Lemma return_passes_every_other (k : nat) :
  ∀ (fuel ind : nat) (p : Park.t) (a : Agent.t),
    Park.agents p !! k = Some a → passes_ok a → passes_queued p a →
    (length (Agent.expedited_pass (Agent.st a)) ≤ ind + fuel)%nat →
    ∃ p' a',
      Park.return_passes fuel ind k p = Ok p'
      ∧ Park.agents p' !! k = Some a'
      ∧ length (Park.agents p') = length (Park.agents p)
      ∧ Agent.expedited_pass (Agent.st a')
        = take ind (Agent.expedited_pass (Agent.st a))
          ++ every_other (drop ind (Agent.expedited_pass (Agent.st a)))
      ∧ Agent.within_park (Agent.st a') = Agent.within_park (Agent.st a)
      ∧ ∀ name, name ∈ Agent.expedited_pass (Agent.st a') →
          dict_get name (Park.attractions p') = dict_get name (Park.attractions p).
Proof.
  induction fuel as [|fuel IH]; intros ind p a Hk Hok Hq Hfuel.
  - exists p, a. simpl. rewrite agent_item_lookup, Hk. simpl.
    rewrite lookup_ge_None_2 by lia.
    rewrite take_ge, drop_ge by lia. simpl. rewrite app_nil_r. done.
  - simpl. rewrite agent_item_lookup, Hk. simpl.
    destruct (Agent.expedited_pass (Agent.st a) !! ind) as [attraction|] eqn:Hind.
    2:{ exists p, a. apply lookup_ge_None_1 in Hind.
        rewrite take_ge, drop_ge by lia. simpl. rewrite app_nil_r. done. }
    destruct Hok as [Hnd Hlen].
    destruct (Hq attraction) as (x & Hx & Hin); [by eapply list_elem_of_lookup_2|].
    unfold dict_item. rewrite Hx. simpl.
    unfold Attraction.return_pass, list_remove. simpl.
    destruct (list_index_Some _ _ Hin) as [i Hi]. rewrite Hi. simpl.
    unfold Agent.return_exp_pass.
    rewrite (last_index_NoDup attraction _ 0 None ind Hnd Hind). simpl.
    pose proof (lookup_lt_Some _ _ _ Hind) as Hlt.
    apply list_elem_of_split_length in Hind as (l1 & l2 & Hl & ->).
    destruct (nth_lookup_or_length (Agent.expedited_return_time (Agent.st a))
                (length l1) 0) as [Hr|Hr]; [|lia].
    apply list_elem_of_split_length in Hr as (r1 & r2 & Hrl & Hr1).
    rewrite Hl, Hrl, list_del_middle. simpl. rewrite Hr1, list_del_middle. simpl.
    rewrite <- Hr1.
    rewrite Hl in Hnd. pose proof Hnd as Hnd'.
    apply NoDup_app in Hnd as (Hnd1 & Hd & Hnd2).
    apply NoDup_cons in Hnd2 as [Hn2 Hnd2].
    assert (Hnotin : attraction ∉ l1 ++ l2).
    { rewrite not_elem_of_app. split; [|done]. intros Hn1. apply (Hd _ Hn1). by left. }
    match goal with
    | |- ∃ p' a', Park.return_passes fuel _ k (Park.put_agent k ?a1 ?p1) = _ ∧ _ =>
        destruct (IH (S (length l1)) (Park.put_agent k a1 p1) a1)
          as (p' & a' & Hret & Hk' & Hlen' & Hpass & Hwithin & Hsame)
    end.
    { simpl. apply list_lookup_insert_eq. by eapply lookup_lt_Some. }
    { split; simpl.
      - apply NoDup_app. repeat split; [done| |done].
        intros y Hy1 Hy2. apply (Hd _ Hy1). by right.
      - rewrite Hl, Hrl, !length_app in Hlen. simpl in Hlen. rewrite !length_app. lia. }
    { intros name Hname. simpl in Hname. simpl.
      assert (Hne : attraction ≠ name) by (by intros ->).
      rewrite dict_get_set_ne by done. apply Hq. rewrite Hl.
      apply elem_of_app in Hname as [?|?]; apply elem_of_app; [by left|right; by right]. }
    { simpl. rewrite Hl, !length_app in Hfuel. simpl in Hfuel. rewrite length_app. lia. }
    exists p', a'. split; [exact Hret|]. split; [exact Hk'|].
    simpl in Hlen', Hpass, Hwithin, Hsame.
    split; [by rewrite Hlen', length_insert|].
    split.
    { rewrite Hpass, (every_other_step l1 l2 attraction).
      rewrite take_app_length. rewrite drop_app_length. done. }
    split; [done|].
    intros name Hname. rewrite (Hsame name Hname).
    apply dict_get_set_ne. intros ->. apply Hnotin.
    rewrite Hpass, (every_other_step l1 l2 name) in Hname.
    apply elem_of_app in Hname as [?|Hname]; apply elem_of_app; [by left|right].
    by apply every_other_cons_elem_of in Hname.
Qed.

Section Leaving.
Context `{RandomSource}.

(** X13. An agent who leaves the park hands back only every other
    pass. The loop over the held passes deletes from the list it walks,
    so the second, fourth, ... pass stay with the agent, and their
    attractions are not told: they keep the agent in their expedited
    queue and the pass among the distributed ones. *)
Theorem leaving_hands_back_every_other_pass (fuel k : nat) (location : option string)
    (time : Z) (p : Park.t) (a : Agent.t) s :
  Park.agents p !! k = Some a → passes_ok a → passes_queued p a →
  ∃ p' a',
    Park.update_park_state fuel k (Some Agent.leaving) location time p s = Ok (p', s)
    ∧ Park.agents p' !! k = Some a'
    ∧ Agent.within_park (Agent.st a') = false
    ∧ Agent.expedited_pass (Agent.st a') = every_other (Agent.expedited_pass (Agent.st a))
    ∧ ∀ name, name ∈ Agent.expedited_pass (Agent.st a') →
        dict_get name (Park.attractions p') = dict_get name (Park.attractions p).
Proof.
  intros Hk Hok Hq.
  destruct (return_passes_every_other k (length (Agent.expedited_pass (Agent.st a)))
              0 p a Hk Hok Hq) as (p1 & a1 & Hret & Hk1 & Hlen1 & Hpass & _ & Hsame);
    [lia|].
  rewrite take_0, drop_0 in Hpass. simpl in Hpass.
  assert (Hloop : match Agent.expedited_pass (Agent.st a) with
                  | [] => Ok p
                  | passes => Park.return_passes (length passes) 0 k p
                  end = Ok p1).
  { destruct (Agent.expedited_pass (Agent.st a)) eqn:E; [|exact Hret].
    simpl in Hret. rewrite agent_item_lookup, Hk in Hret. simpl in Hret.
    by rewrite E in Hret. }
  exists (Park.put_agent k (Agent.leave_park time a1) p1), (Agent.leave_park time a1).
  split.
  - unfold Park.update_park_state.
    rewrite decide_True by done.
    unfold mbind, M_bind, lift, mret, M_ret.
    rewrite agent_item_lookup, Hk. unfold or_raise. cbv beta iota.
    rewrite Hloop. cbv beta iota.
    rewrite agent_item_lookup, Hk1. done.
  - split.
    { simpl. apply list_lookup_insert_eq. by eapply lookup_lt_Some. }
    split; [done|]. split; [exact Hpass|]. exact Hsame.
Qed.

End Leaving.

(** ** Agents of a reachable park *)

Lemma Forall_foldl_dict_set `{EqDecision K} {V} (P : V → Prop) (v : V) (keys : list K) :
  P v → ∀ d : dict K V, Forall (fun kv => P kv.2) d →
  Forall (fun kv => P kv.2) (foldl (fun d k => dict_set k v d) d keys).
Proof.
  intros Hv. induction keys as [|k keys IH]; intros d Hd; simpl; [done|].
  apply IH. by apply Forall_dict_set.
Qed.

Lemma py_int_max_0 (x : Q) : 0 ≤ py_int (Qmax_py x 0).
Proof.
  apply py_int_nonneg. unfold Qmax_py. destruct (Qlt_bool x 0) eqn:E; [lra|].
  by apply Qlt_bool_false in E.
Qed.

(** The agent operations that do not touch the behavior. *)
Lemma of_archetype_ext (a b : Agent.t) :
  Agent.bhv b = Agent.bhv a → of_archetype a → of_archetype b.
Proof. unfold of_archetype. by intros ->. Qed.

Section Agents.
Context `{RandomSource}.

Lemma create_inv seed distribution ability threshold limit agent_id names1 names2 s a s' :
  Agent.create seed distribution ability threshold limit agent_id names1 names2 s
  = Ok (a, s') →
  time_spent_unset a ∧ of_archetype a ∧ Agent.within_park (Agent.st a) = false.
Proof.
  unfold Agent.create, Agent.initialize_agent. intros Hr.
  bind_ok Hr as u Hu. bind_ok Hr as archetype Harch. bind_ok Hr as parameters Hpar.
  bind_ok Hr as cls Hcls. bind_ok Hr as cls' Hcls'. bind_ok Hr as rng Hrng.
  bind_ok Hr as x Hx. ret_ok Hr. split; [|split; [|done]].
  - unfold time_spent_unset. simpl.
    by apply (Forall_foldl_dict_set (fun v : Z * Z => v.2 = 0)).
  - apply or_raise_Ok in Hpar. destruct archetype as [b|]; [|done]. simpl in Hpar.
    exists parameters. simpl. repeat split; [done|]. apply py_int_max_0.
Qed.

(** X14. No method ever writes the [time_spent] entry of an agent's
    activity history: for every agent of a reachable park, the time
    spent at every activity is still recorded as zero. *)
Theorem time_spent_is_never_recorded (p : Park.t) (k : nat) (a : Agent.t) :
  reachable p → Park.agents p !! k = Some a → time_spent_unset a.
Proof.
  intros Hp Hk.
  apply (reachable_kept time_spent_unset (fun _ => True)) in Hp.
  - destruct Hp as [Ha _]. rewrite Forall_lookup in Ha. by eapply Ha.
  - intros. by eapply create_inv.
  - done.
  - done.
  - done.
  - done.
  - done.
  - intros l b b' Hr. unfold Agent.return_exp_pass in Hr.
    bind_ok Hr as i Hi. bind_ok Hr as passes' Hp'. bind_ok Hr as times' Ht.
    by injection Hr as <-.
  - intros l t b b' Hr. unfold Agent.agent_exited_attraction in Hr.
    bind_ok Hr as n Hn. by injection Hr as <-.
  - intros l t b b' redeem Hr. unfold Agent.agent_boarded_attraction in Hr.
    destruct (bool_decide _).
    + bind_ok Hr as st' Hs. injection Hr as <- _.
      destruct (Agent.last_index _ _ _ _) as [i|].
      * bind_ok Hs as passes' Hp'. bind_ok Hs as times' Ht. by injection Hs as <-.
      * by injection Hs as <-.
    + by injection Hr as <- _.
  - intros l t b b' Hr Hb. unfold Agent.agent_exited_activity in Hr.
    bind_ok Hr as [n m] Hn. injection Hr as <-.
    unfold time_spent_unset in *. simpl.
    apply (Forall_dict_set (fun v : Z * Z => v.2 = 0)); [done|]. simpl.
    simpl in Hn. by apply (Forall_dict_item (fun v : Z * Z => v.2 = 0) _ _ _ Hb) in Hn.
  - intros b Hb. unfold Agent.pass_time. destruct (Agent.within_park _); [|done].
    simpl. by destruct (Agent.expedited_pass _).
  - done.
  - done.
  - done.
  - done.
  - done.
  - done.
  - done.
  - done.
Qed.

(** X15. The behavior of an agent is drawn once and never changes: in
    every reachable park each agent carries the parameters of the
    archetype it names, one of those of [BEHAVIOR_ARCHETYPE_PARAMETERS],
    and a stay preference that is not negative. *)
Theorem agents_follow_an_archetype (p : Park.t) (k : nat) (a : Agent.t) :
  reachable p → Park.agents p !! k = Some a → of_archetype a.
Proof.
  intros Hp Hk.
  apply (reachable_kept of_archetype (fun _ => True)) in Hp.
  - destruct Hp as [Ha _]. rewrite Forall_lookup in Ha. by eapply Ha.
  - intros. by eapply create_inv.
  - done.
  - done.
  - done.
  - done.
  - done.
  - intros l b b' Hr. unfold Agent.return_exp_pass in Hr.
    bind_ok Hr as i Hi. bind_ok Hr as passes' Hp'. bind_ok Hr as times' Ht.
    by injection Hr as <-.
  - intros l t b b' Hr. unfold Agent.agent_exited_attraction in Hr.
    bind_ok Hr as n Hn. by injection Hr as <-.
  - intros l t b b' redeem Hr. unfold Agent.agent_boarded_attraction in Hr.
    destruct (bool_decide _).
    + bind_ok Hr as st' Hs. by injection Hr as <- _.
    + by injection Hr as <- _.
  - intros l t b b' Hr. unfold Agent.agent_exited_activity in Hr.
    bind_ok Hr as [n m] Hn. by injection Hr as <-.
  - intros b. apply of_archetype_ext. unfold Agent.pass_time.
    destruct (Agent.within_park _); [|done]. simpl.
    by destruct (Agent.expedited_pass _).
  - done.
  - done.
  - done.
  - done.
  - done.
  - done.
  - done.
  - done.
Qed.

(** X16. In every reachable park an agent who is inside the park has an
    arrival time and a current action: [decide_to_leave_park] can
    subtract the arrival time, and the idle test of the park reads a
    value. *)
Theorem agents_inside_have_arrived (p : Park.t) (k : nat) (a : Agent.t) :
  reachable p → Park.agents p !! k = Some a → present a.
Proof.
  intros Hp Hk.
  apply (reachable_kept present (fun _ => True)) in Hp.
  - destruct Hp as [Ha _]. rewrite Forall_lookup in Ha. by eapply Ha.
  - intros ? ? ? ? ? ? ? ? ? b ? Hr. apply create_inv in Hr as (_ & _ & Hout).
    unfold present. by rewrite Hout.
  - intros t b _ _. simpl. by split.
  - intros t b _. unfold present. done.
  - intros l t b Hb Hin. destruct (Hb Hin) as [Harr _]. simpl. by split.
  - intros l t b Hb Hin. destruct (Hb Hin) as [Harr _]. simpl. by split.
  - intros l t w b Hb _ Hin. destruct (Hb Hin) as [Harr _]. simpl. by split.
  - intros l b b' Hr. unfold Agent.return_exp_pass in Hr.
    bind_ok Hr as i Hi. bind_ok Hr as passes' Hp'. bind_ok Hr as times' Ht.
    by injection Hr as <-.
  - intros l t b b' Hr Hb. unfold Agent.agent_exited_attraction in Hr.
    bind_ok Hr as n Hn. injection Hr as <-.
    intros Hin. destruct (Hb Hin) as [Harr _]. simpl. by split.
  - intros l t b b' redeem Hr Hb. unfold Agent.agent_boarded_attraction in Hr.
    destruct (bool_decide _).
    + bind_ok Hr as st' Hs. injection Hr as <- _.
      destruct (Agent.last_index _ _ _ _) as [i|].
      * bind_ok Hs as passes' Hp'. bind_ok Hs as times' Ht. injection Hs as <-.
        intros Hin. destruct (Hb Hin) as [Harr _]. simpl. by split.
      * injection Hs as <-.
        intros Hin. destruct (Hb Hin) as [Harr _]. simpl. by split.
    + injection Hr as <- _.
      intros Hin. destruct (Hb Hin) as [Harr _]. simpl. by split.
  - intros l t b b' Hr Hb. unfold Agent.agent_exited_activity in Hr.
    bind_ok Hr as [n m] Hn. injection Hr as <-.
    intros Hin. destruct (Hb Hin) as [Harr _]. simpl. by split.
  - intros b Hb. unfold present, Agent.pass_time.
    destruct (Agent.within_park (Agent.st b)) eqn:E; [|by rewrite E].
    destruct (Hb E) as [Harr Hact]. simpl.
    by destruct (Agent.expedited_pass _).
  - done.
  - done.
  - done.
  - done.
  - done.
  - done.
  - done.
  - done.
Qed.

End Agents.

(** ** Selection by weight *)

(** The sum of the weights of a distribution. *)
Lemma select_below_Some {K} (rng : Q) (distribution : list (K * Q)) :
  ∀ (floor : Q) (k : K),
    Agent.select_below rng floor distribution = Some k → (floor <= rng)%Q →
    ∃ weight, (k, weight) ∈ distribution ∧ (0 < weight)%Q.
Proof.
  induction distribution as [|[k' w] d IH]; intros floor k Hs Hf; simpl in Hs; [done|].
  destruct (Qlt_bool rng (floor + w)) eqn:E.
  - injection Hs as <-. apply Qlt_bool_iff in E. exists w. split; [by left|lra].
  - apply Qlt_bool_false in E. destruct (IH _ _ Hs E) as (w' & Hin & Hw).
    exists w'. split; [by right|done].
Qed.

Lemma select_below_None {K} (rng : Q) (distribution : list (K * Q)) :
  ∀ (floor : Q),
    Agent.select_below rng floor distribution = None → (floor <= rng)%Q →
    (floor + foldr (fun kv acc => kv.2 + acc) 0 distribution <= rng)%Q.
Proof.
  induction distribution as [|[k' w] d IH]; intros floor Hs Hf; simpl in *; [lra|].
  destruct (Qlt_bool rng (floor + w)) eqn:E; [done|].
  apply Qlt_bool_false in E. specialize (IH _ Hs E). lra.
Qed.

Lemma weights_total {K} (d : list (K * Z)) :
  (foldr (fun kv acc => kv.2 + acc) 0 (prod_map id inject_Z <$> d)
   == inject_Z (sumZ d.*2))%Q.
Proof.
  induction d as [|[k w] d IH]; [done|]. rewrite !fmap_cons, sumZ_cons. simpl.
  rewrite IH, inject_Z_plus. done.
Qed.

Lemma sumZ_weights_nonneg {K} (d : list (K * Z)) :
  Forall (fun kv => 0 ≤ kv.2) d → 0 ≤ sumZ d.*2.
Proof.
  induction 1 as [|[k w] d Hw Hd IH]; [done|].
  rewrite fmap_cons, sumZ_cons. simpl in *. lia.
Qed.

Lemma weights_all_zero {K} (d : list (K * Z)) :
  Forall (fun kv => 0 ≤ kv.2) d → sumZ d.*2 ≤ 0 → Forall (fun kv => kv.2 = 0) d.
Proof.
  induction 1 as [|[k w] d Hw Hd IH]; [done|].
  rewrite fmap_cons, sumZ_cons. simpl in *. intros Hs.
  pose proof (sumZ_weights_nonneg d Hd) as Hd0.
  constructor; [simpl; lia|]. apply IH. lia.
Qed.

Section Choices.
Context `{RandomSource}.

(** X17. [select_activity_decision] selects by popularity. When the
    draw of [random.random()] lies in [0, 1) and no popularity is
    negative, the selected activity is one of the park with a positive
    popularity; nothing is selected ([None]) exactly when every activity
    has popularity zero or there is no activity. *)
Theorem select_activity_decision_by_popularity (activities_dict : dict string Activity.t) s :
  (0 <= (py_random (py s)).1)%Q → ((py_random (py s)).1 < 1)%Q →
  Forall (fun kv => 0 ≤ Activity.popularity kv.2) activities_dict →
  ∃ selected s',
    Agent.select_activity_decision activities_dict s = Ok (selected, s')
    ∧ match selected with
      | Some name =>
          ∃ x, (name, x) ∈ activities_dict ∧ 0 < Activity.popularity x
      | None => Forall (fun kv => Activity.popularity kv.2 = 0) activities_dict
      end.
Proof.
  intros Hr0 Hr1 Hpop. unfold Agent.select_activity_decision, Random.uniform.
  unfold mbind, M_bind, mret, M_ret.
  destruct (py_random (py s)) as [r ps]. simpl in Hr0, Hr1.
  set (weights := prod_map id Activity.popularity <$> activities_dict).
  set (total := inject_Z (sumZ weights.*2)).
  set (rng := (0 + (total - 0) * r)%Q).
  assert (Hw : Forall (fun kv => 0 ≤ kv.2) weights).
  { unfold weights. apply Forall_fmap. eapply Forall_impl; [exact Hpop|]. by intros [k x]. }
  assert (Ht : (0 <= total)%Q).
  { apply (Zle_Qle_inj 0). apply (sumZ_weights_nonneg weights Hw). }
  assert (Hrng : (0 <= rng)%Q) by (unfold rng; nra).
  eexists _, _. split; [reflexivity|].
  destruct (Agent.select_below rng 0 (prod_map id inject_Z <$> weights)) as [name|] eqn:E.
  - destruct (select_below_Some _ _ _ _ E Hrng) as (w & Hin & Hpos).
    apply list_elem_of_fmap in Hin as ([k z] & [= -> ->] & Hin).
    apply list_elem_of_fmap in Hin as ([k' x] & [= -> ->] & Hin).
    exists x. split; [done|]. rewrite Zlt_Qlt. exact Hpos.
  - apply select_below_None in E; [|done]. rewrite weights_total in E. fold total in E.
    assert (Hz : sumZ weights.*2 ≤ 0).
    { rewrite Zle_Qle. fold total. unfold rng in E.
      destruct (Qlt_le_dec 0 total) as [Hlt|Hle]; [nra|done]. }
    pose proof (weights_all_zero weights Hw Hz) as Hall.
    unfold weights in Hall. rewrite Forall_fmap in Hall.
    eapply Forall_impl; [exact Hall|]. by intros [k x].
Qed.

End Choices.

(** ** The attraction an agent selects *)

Lemma filterR_Forall {A} (f : A → Result bool) (l l' : list A) :
  filterR f l = Ok l' → Forall (fun x => f x = Ok true) l'.
Proof.
  revert l'. induction l as [|x l IH]; intros l' Hr; simpl in Hr.
  - by injection Hr as <-.
  - bind_ok Hr as b Hb. bind_ok Hr as ys Hys. injection Hr as <-.
    specialize (IH _ Hys). destruct b; [by constructor|done].
Qed.

Lemma mapR_Raise {A B} (f : A → Result B) (l : list A) (e : PyError) :
  mapR f l = Raise e → ∃ x, x ∈ l ∧ f x = Raise e.
Proof.
  induction l as [|x l IH]; simpl; [done|].
  destruct (f x) as [y|e'] eqn:E; simpl.
  - destruct (mapR f l) as [ys|e'] eqn:El; simpl; [done|].
    intros [= ->]. destruct (IH eq_refl) as (z & Hz & Hfz).
    exists z. split; [by right|done].
  - intros [= ->]. exists x. split; [by left|done].
Qed.

Section Selection.
Context `{RandomSource}.

Lemma M_bind_Raise_inv {A B} (m : M A) (f : A → M B) s e :
  (m ≫= f) s = Raise e →
  m s = Raise e ∨ ∃ a s1, m s = Ok (a, s1) ∧ f a s1 = Raise e.
Proof.
  unfold mbind, M_bind. destruct (m s) as [[a s1]|e'].
  - intros Hf. right. by exists a, s1.
  - simpl. intros [= ->]. by left.
Qed.

Lemma lift_Raise {A} (r : Result A) s e : lift r s = Raise e → r = Raise e.
Proof. unfold lift. destruct r; [done|]. by intros [= ->]. Qed.

(** A pass of the selection loop names a valid attraction or the one
    left by the previous pass. *)
Lemma select_attraction_loop_valid (P : string → Prop) (fuel : nat) (a : Agent.t)
    (attractions_dict : dict string Attraction.t) (attraction_wait_times : dict string Q) :
  ∀ (valid_attractions : list string) (desired : option string) s act loc s',
    (∀ x, x ∈ valid_attractions → P x) →
    (∀ x, desired = Some x → P x) →
    Agent.select_attraction_loop fuel a attractions_dict attraction_wait_times
      valid_attractions desired s = Ok ((act, loc), s') →
    act = None ∧ loc = None
    ∨ ∃ l, loc = Some l ∧ P l
           ∧ (act = Some Agent.traveling ∨ act = Some Agent.get_pass_).
Proof.
  induction fuel as [|fuel IH]; intros valid desired s act loc s' Hv Hd Hr.
  - destruct valid; simpl in Hr; [|done].
    apply mret_Ok in Hr as [[= -> ->] _]. by left.
  - destruct valid as [|v0 valid]; simpl in Hr.
    { apply mret_Ok in Hr as [[= -> ->] _]. by left. }
    unfold Agent.select_attraction_pass in Hr.
    bind_ok Hr as rng Hrng. bind_ok Hr as chosen Hchosen.
    apply or_raise_Ok in Hchosen.
    assert (HP : P chosen).
    { apply select_between_cases in Hchosen as [E0|E0]; [by apply Hd|].
      apply Hv. apply list_elem_of_fmap in E0 as ([k w] & -> & Hk).
      apply list_elem_of_fmap in Hk as ([k' x'] & [= -> ->] & Hk).
      apply list_elem_of_filter in Hk as [Hk _]. exact Hk. }
    bind_ok Hr as wait Hwait. bind_ok Hr as wants_pass Hwants.
    destruct wants_pass.
    { apply mret_Ok in Hr as [[= -> ->] _]. right. eauto. }
    bind_ok Hr as x Hx.
    assert (Hagain : ∀ t1,
      (lift (list_remove chosen (v0 :: valid)) ≫=
         (fun valid_attractions =>
            Agent.select_attraction_loop fuel a attractions_dict attraction_wait_times
              valid_attractions (Some chosen))) t1 = Ok ((act, loc), s') →
      act = None ∧ loc = None
      ∨ ∃ l, loc = Some l ∧ P l
             ∧ (act = Some Agent.traveling ∨ act = Some Agent.get_pass_)).
    { intros t1 Hl. bind_ok Hl as rest Hrest.
      eapply IH; [| |exact Hl].
      - intros y Hy. apply Hv. by eapply list_remove_subseteq.
      - by intros y [= <-]. }
    match type of Hr with (if ?c then _ else _) _ = _ => destruct c end;
      [exact (Hagain _ Hr)|].
    match type of Hr with (if ?c then _ else _) _ = _ => destruct c end;
      [exact (Hagain _ Hr)|].
    apply mret_Ok in Hr as [[= -> ->] _]. right. eauto.
Qed.

(** Every pass of the loop returns or removes one attraction: as many
    passes as there are valid attractions are enough. *)
Lemma select_attraction_loop_ends (fuel : nat) (a : Agent.t)
    (attractions_dict : dict string Attraction.t) (attraction_wait_times : dict string Q) :
  ∀ (valid_attractions : list string) (desired : option string) s,
    (length valid_attractions ≤ fuel)%nat →
    Agent.select_attraction_loop fuel a attractions_dict attraction_wait_times
      valid_attractions desired s ≠ Raise OutOfFuel.
Proof.
  induction fuel as [|fuel IH]; intros valid desired s Hlen.
  - destruct valid; [done|simpl in Hlen; lia].
  - destruct valid as [|v0 valid]; [done|]. simpl.
    unfold Agent.select_attraction_pass. intros Hr.
    assert (Hagain : ∀ chosen t1,
      (lift (list_remove chosen (v0 :: valid)) ≫=
         (fun valid_attractions =>
            Agent.select_attraction_loop fuel a attractions_dict attraction_wait_times
              valid_attractions (Some chosen))) t1 ≠ Raise OutOfFuel).
    { intros chosen t1 Hl. apply M_bind_Raise_inv in Hl as [Hl|(rest & t2 & Hl & Hl')].
      - apply lift_Raise in Hl. unfold list_remove in Hl.
        by destruct (list_index chosen (v0 :: valid)).
      - apply lift_Ok in Hl as [Hl ->]. apply list_remove_length in Hl.
        apply IH in Hl'; [done|]. simpl in *. lia. }
    cbv beta iota zeta in Hr.
    apply M_bind_Raise_inv in Hr as [Hr|(rng & t1 & _ & Hr)].
    { unfold Random.uniform in Hr. by destruct (py_random (py s)). }
    apply M_bind_Raise_inv in Hr as [Hr|(chosen & t2 & _ & Hr)].
    { apply lift_Raise in Hr. by destruct (Agent.select_between _ _ _ _ _). }
    apply M_bind_Raise_inv in Hr as [Hr|(wait & t3 & _ & Hr)].
    { apply lift_Raise in Hr. unfold dict_item in Hr. by destruct (dict_get _ _). }
    apply M_bind_Raise_inv in Hr as [Hr|(wants & t4 & _ & Hr)].
    { destruct (_ && _ && _); [|done].
      apply M_bind_Raise_inv in Hr as [Hr|(? & ? & _ & Hr)]; [|done].
      apply lift_Raise in Hr. unfold dict_item in Hr. by destruct (dict_get _ _). }
    destruct wants; [done|].
    apply M_bind_Raise_inv in Hr as [Hr|(x & t5 & _ & Hr)].
    { apply lift_Raise in Hr. unfold dict_item in Hr. by destruct (dict_get _ _). }
    match type of Hr with (if ?c then _ else _) _ = _ => destruct c end;
      [exact (Hagain _ _ Hr)|].
    match type of Hr with (if ?c then _ else _) _ = _ => destruct c end;
      [exact (Hagain _ _ Hr)|].
    done.
Qed.

(** X18. [select_attraction_decision] chooses among the valid
    attractions it is given: it returns no action, or "traveling" or
    "get pass" with one of them. Its loop ends, each pass returning or
    removing one attraction: the call can only fail to return if
    [get_wait_time] of some attraction does. *)
Theorem select_attraction_decision_chooses_valid (wait_fuel : nat) (a : Agent.t)
    (valid_attractions : list string) (attractions_dict : dict string Attraction.t) s :
  (∀ action location s',
     Agent.select_attraction_decision wait_fuel a valid_attractions attractions_dict s
     = Ok ((action, location), s') →
     action = None ∧ location = None
     ∨ ∃ name, location = Some name ∧ name ∈ valid_attractions
               ∧ (action = Some Agent.traveling ∨ action = Some Agent.get_pass_))
  ∧ (Agent.select_attraction_decision wait_fuel a valid_attractions attractions_dict s
     = Raise OutOfFuel →
     ∃ name x, (name, x) ∈ attractions_dict
               ∧ Attraction.get_wait_time wait_fuel x = Raise OutOfFuel).
Proof.
  split.
  - intros action location s' Hr.
    unfold Agent.select_attraction_decision in Hr. bind_ok Hr as waits Hw.
    eapply (select_attraction_loop_valid (fun x => x ∈ valid_attractions)); [| |exact Hr];
      done.
  - intros Hr. unfold Agent.select_attraction_decision in Hr.
    apply M_bind_Raise_inv in Hr as [Hr|(waits & t & _ & Hr)].
    + apply lift_Raise, mapR_Raise in Hr as ([name x] & Hin & Hx).
      exists name, x. split; [done|].
      destruct (Attraction.get_wait_time wait_fuel x); [done|]. by injection Hx as ->.
    + by apply select_attraction_loop_ends in Hr.
Qed.

End Selection.

Section Eligible.
Context `{RandomSource}.

(** X19. The attractions an agent considers. Every valid attraction
    returned by [decide_attraction_or_activity] is one for which the
    agent holds no pass; it is an attraction of the park when the agent
    repeats rides, and otherwise one the agent has never completed; and
    unless the agent has no age preference it is an attraction of the
    park open to the agent's age class. The agent wants an attraction
    exactly when that list is not empty. *)
Theorem valid_attractions_are_eligible (attractions_dict : dict string Attraction.t)
    (a : Agent.t) s wants valid s' :
  Agent.decide_attraction_or_activity attractions_dict a s = Ok ((wants, valid), s') →
  (wants = true ↔ valid ≠ [])
  ∧ ∀ x, x ∈ valid →
      (x ∉ Agent.expedited_pass (Agent.st a))
      ∧ (if Agent.allow_repeats (Agent.bhv a)
         then x ∈ dict_keys attractions_dict
         else (x, 0) ∈ Agent.attractions (Agent.st a))
      ∧ (Agent.age (Agent.st a) ≠ Agent.no_preference →
         ∃ attraction,
           dict_get x attractions_dict = Some attraction
           ∧ Agent.age_eligible (Agent.age (Agent.st a))
               (Attraction.child_eligible attraction)
               (Attraction.adult_eligible attraction) = true).
Proof.
  unfold Agent.decide_attraction_or_activity. intros Hr.
  bind_ok Hr as coinflip Hcoin.
  destruct (Qle_bool _ _).
  2:{ apply mret_Ok in Hr as [[= -> ->] _]. split; [done|].
      intros x Hx. by apply elem_of_nil in Hx. }
  bind_ok Hr as l Hl.
  assert (Hspec : ∀ x, x ∈ l →
      (x ∉ Agent.expedited_pass (Agent.st a))
      ∧ (if Agent.allow_repeats (Agent.bhv a)
         then x ∈ dict_keys attractions_dict
         else (x, 0) ∈ Agent.attractions (Agent.st a))
      ∧ (Agent.age (Agent.st a) ≠ Agent.no_preference →
         ∃ attraction,
           dict_get x attractions_dict = Some attraction
           ∧ Agent.age_eligible (Agent.age (Agent.st a))
               (Attraction.child_eligible attraction)
               (Attraction.adult_eligible attraction) = true)).
  { intros x Hx.
    assert (Hage : ∀ l0, Agent.filter_by_age (Agent.age (Agent.st a)) attractions_dict l0
                         = Ok l →
              x ∈ l0
              ∧ (Agent.age (Agent.st a) ≠ Agent.no_preference →
                 ∃ attraction,
                   dict_get x attractions_dict = Some attraction
                   ∧ Agent.age_eligible (Agent.age (Agent.st a))
                       (Attraction.child_eligible attraction)
                       (Attraction.adult_eligible attraction) = true)).
    { intros l0. unfold Agent.filter_by_age.
      destruct (Agent.age (Agent.st a)) eqn:Eage; intros Hf;
        try (split; [apply filterR_subseteq in Hf; by apply Hf|];
             intros _; apply filterR_Forall in Hf; rewrite Forall_forall in Hf;
             specialize (Hf x Hx); bind_ok Hf as attraction Hattr;
             apply dict_item_Ok in Hattr; injection Hf as Hf; by exists attraction).
      injection Hf as ->. by split. }
    destruct (Agent.allow_repeats (Agent.bhv a)); apply Hage in Hl as [Hin Heligible].
    - apply list_elem_of_filter in Hin as [Hpass Hin].
      unfold Agent.not_in_passes in Hpass. apply bool_decide_unpack in Hpass. done.
    - apply list_elem_of_fmap in Hin as ([k w] & -> & Hk).
      apply list_elem_of_filter in Hk as [[Hzero Hpass] Hk]. simpl in *. subst w.
      unfold Agent.not_in_passes in Hpass. apply bool_decide_unpack in Hpass. done. }
  destruct l as [|x0 l]; apply mret_Ok in Hr as [[= -> ->] _].
  - split; [done|]. intros x Hx. by apply elem_of_nil in Hx.
  - split; [done|exact Hspec].
Qed.

End Eligible.

(** ** The hour at which the park closes *)

Section FirstEmptyHour.
Variable arrival_seed : dict string Z.
Variable g : Park.t → Z * string → Result Park.t.
Hypothesis g_close : ∀ b hour key b',
  g b (hour, key) = Ok b' →
  ∃ pct, dict_get key arrival_seed = Some pct
         ∧ Park.park_close b'
           = if (pct =? 0) && negb (truthy (Park.park_close b))
             then Some (hour * 60) else Park.park_close b.

Lemma close_stays (l : list (Z * string)) (c : Z) (p p' : Park.t) :
  c ≠ 0 → Park.park_close p = Some c → foldR g p l = Ok p' →
  Park.park_close p' = Some c.
Proof.
  intros Hc Hp. apply (foldR_inv (fun b => Park.park_close b = Some c)); [|done].
  intros b [hour key] b' Hb _ Hg. apply g_close in Hg as (pct & _ & ->).
  rewrite Hb. simpl. apply Z.eqb_neq in Hc. rewrite Hc. simpl.
  by rewrite andb_false_r.
Qed.

Lemma close_at_first_empty_hour (keys : list string) :
  ∀ (start : Z) (h : nat) (key : string) (p p' : Park.t),
    1 ≤ start → truthy (Park.park_close p) = false →
    keys !! h = Some key → dict_get key arrival_seed = Some 0 →
    (∀ j key_j, (j < h)%nat → keys !! j = Some key_j →
                dict_get key_j arrival_seed ≠ Some 0) →
    foldR g p (zip (seqZ start (len keys)) keys) = Ok p' →
    Park.park_close p' = Some ((start + Z.of_nat h) * 60).
Proof.
  induction keys as [|k0 keys IH]; intros start h key p p' Hs Hp Hh Hzero Hfirst Hr;
    [done|].
  unfold len in Hr. simpl length in Hr.
  rewrite Nat2Z.inj_succ, seqZ_cons in Hr by lia. simpl in Hr.
  bind_ok Hr as p1 Hp1. apply g_close in Hp1 as (pct & Hpct & Hc1).
  rewrite Hp in Hc1. simpl in Hc1. rewrite andb_true_r in Hc1.
  replace (Z.pred (Z.succ (Z.of_nat (length keys)))) with (len keys) in Hr
    by (unfold len; lia).
  destruct h as [|h]; simpl in Hh.
  - injection Hh as ->. rewrite Hzero in Hpct. injection Hpct as <-. simpl in Hc1.
    rewrite Z.add_0_r. eapply close_stays; [|exact Hc1|exact Hr]. lia.
  - assert (Hnz : pct ≠ 0).
    { intros ->. apply (Hfirst 0%nat k0); [lia|done|done]. }
    apply Z.eqb_neq in Hnz. rewrite Hnz in Hc1.
    replace (start + Z.of_nat (S h)) with (Z.succ start + Z.of_nat h) by lia.
    eapply (IH (Z.succ start) h key p1 p'); [lia|by rewrite Hc1|done|done| |done].
    intros j key_j Hj. apply (Hfirst (S j)). lia.
Qed.

Lemma close_after_hour_0 (keys : list string) (h : nat) (key : string) (p p' : Park.t) :
  truthy (Park.park_close p) = false → (1 ≤ h)%nat →
  keys !! h = Some key → dict_get key arrival_seed = Some 0 →
  (∀ j key_j, (1 ≤ j < h)%nat → keys !! j = Some key_j →
              dict_get key_j arrival_seed ≠ Some 0) →
  foldR g p (zip (seqZ 0 (len keys)) keys) = Ok p' →
  Park.park_close p' = Some (60 * Z.of_nat h).
Proof.
  intros Hp Hh Hkey Hzero Hfirst Hr.
  destruct keys as [|k0 ks]; [done|].
  unfold len in Hr. simpl length in Hr.
  rewrite Nat2Z.inj_succ, seqZ_cons in Hr by lia. simpl in Hr.
  bind_ok Hr as p0 Hp0. apply g_close in Hp0 as (pct0 & _ & Hc0).
  replace (Z.pred (Z.succ (Z.of_nat (length ks)))) with (len ks) in Hr
    by (unfold len; lia).
  destruct h as [|h]; [lia|]. simpl in Hkey.
  replace (60 * Z.of_nat (S h)) with ((1 + Z.of_nat h) * 60) by lia.
  eapply (close_at_first_empty_hour ks 1 h key p0 p'); [lia| |done|done| |done].
  - rewrite Hc0. destruct (_ && _); [done|exact Hp].
  - intros j key_j Hj. apply (Hfirst (S j)). lia.
Qed.

End FirstEmptyHour.

Section Closing.
Context `{RandomSource}.

(** X20. The closing time set by [generate_arrival_schedule] is sixty
    times the position of the first hour, after hour 0, whose percentage
    is zero. Hour 0 does not count: a closing time of 0 is false in
    [not self.park_close], so a later empty hour replaces it. *)
Theorem park_close_is_first_empty_hour (arrival_seed : dict string Z) (total : Z)
    (perfect : bool) (h : nat) (key : string) (p p' : Park.t) s s' :
  truthy (Park.park_close p) = false →
  (1 ≤ h)%nat →
  dict_keys arrival_seed !! h = Some key → dict_get key arrival_seed = Some 0 →
  (∀ j key_j, (1 ≤ j < h)%nat → dict_keys arrival_seed !! j = Some key_j →
              dict_get key_j arrival_seed ≠ Some 0) →
  Park.generate_arrival_schedule arrival_seed total perfect p s = Ok (p', s') →
  Park.park_close p' = Some (60 * Z.of_nat h).
Proof.
  intros Hp Hh Hkey Hzero Hfirst Hr.
  unfold Park.generate_arrival_schedule in Hr.
  destruct (bool_decide _); [done|]. destruct (24 <? _); [done|].
  bind_ok Hr as p1 Hp1.
  assert (Hc1 : Park.park_close p1 = Some (60 * Z.of_nat h)).
  { unfold Park.sample_arrivals in Hp1.
    match type of Hp1 with foldR ?g _ _ = _ =>
      assert (Hg : ∀ b hour key b',
        g b (hour, key) = Ok b' →
        ∃ pct, dict_get key arrival_seed = Some pct
               ∧ Park.park_close b'
                 = if (pct =? 0) && negb (truthy (Park.park_close b))
                   then Some (hour * 60) else Park.park_close b)
    end.
    { intros b hour k b' Hi. bind_ok Hi as pct Hpct.
      bind_ok Hi as rng Hrng. bind_ok Hi as arrivals Harr. injection Hi as <-.
      apply dict_item_Ok in Hpct. exists pct. split; [done|].
      rewrite park_close_fill_hour. unfold truthy. by destruct (_ && _). }
    assert (Hlen : len arrival_seed = len (dict_keys arrival_seed)).
    { unfold len, dict_keys. by rewrite length_fmap. }
    rewrite Hlen in Hp1.
    by eapply (close_after_hour_0 _ _ Hg (dict_keys arrival_seed) h key p p1). }
  bind_ok Hr as u Hu. destruct perfect; [|by ret_ok Hr].
  unfold Park.enforce_perfect_arrivals in Hr.
  bind_ok Hr as sch1 Hs1. bind_ok Hr as sch2 Hs2.
  destruct (bool_decide _); [by ret_ok Hr|done].
Qed.

End Closing.

(** ** The agents of the day *)

Section Population.
Context `{RandomSource}.

Lemma create_fresh seed distribution ability threshold limit agent_id names1 names2 s a s' :
  Agent.create seed distribution ability threshold limit agent_id names1 names2 s
  = Ok (a, s') → fresh_agent agent_id a.
Proof.
  unfold Agent.create, Agent.initialize_agent. intros Hr.
  bind_ok Hr as u Hu. bind_ok Hr as archetype Harch. bind_ok Hr as parameters Hpar.
  bind_ok Hr as cls Hcls. bind_ok Hr as cls' Hcls'. bind_ok Hr as rng Hrng.
  bind_ok Hr as x Hx. ret_ok Hr. by repeat split.
Qed.

Lemma generate_agents_loop (f : Park.t → nat → M Park.t) :
  (∀ p k s p' s', f p k s = Ok (p', s') →
     ∃ a, fresh_agent k a ∧ p' = Park.update_agents k a p) →
  ∀ (n start : nat) (p p' : Park.t) s s',
    foldM f p (seq start n) s = Ok (p', s') →
    (start ≤ length (Park.agents p))%nat →
    length (Park.agents p') = (length (Park.agents p) `max` (start + n))%nat
    ∧ (∀ k, (start ≤ k < start + n)%nat →
         ∃ a, Park.agents p' !! k = Some a ∧ fresh_agent k a)
    ∧ (∀ k, (k < start)%nat → Park.agents p' !! k = Park.agents p !! k).
Proof.
  intros Hf. induction n as [|n IH]; intros start p p' s s' Hr Hstart; simpl in Hr.
  - apply mret_Ok in Hr as [-> _]. split; [lia|]. split; [intros; lia|done].
  - bind_ok Hr as p1 Hp1. apply Hf in Hp1 as (a & Ha & ->).
    assert (Hlen1 : length (Park.agents (Park.update_agents start a p))
                    = (length (Park.agents p) `max` S start)%nat).
    { unfold Park.update_agents. destruct (decide _); simpl.
      - rewrite length_insert. lia.
      - rewrite length_app. simpl. lia. }
    assert (Hget1 : Park.agents (Park.update_agents start a p) !! start = Some a).
    { unfold Park.update_agents. destruct (decide _); simpl.
      - by apply list_lookup_insert_eq.
      - assert (start = length (Park.agents p)) as -> by lia.
        by rewrite list_lookup_middle. }
    assert (Hold1 : ∀ k, (k < start)%nat →
              Park.agents (Park.update_agents start a p) !! k = Park.agents p !! k).
    { intros k Hk. unfold Park.update_agents. destruct (decide _); simpl.
      - apply list_lookup_insert_ne. lia.
      - apply lookup_app_l. lia. }
    destruct (IH (S start) _ _ _ _ Hr) as (Hlen & Hnew & Hold); [lia|].
    split; [lia|]. split.
    + intros k Hk. destruct (decide (k = start)) as [->|Hne].
      * exists a. split; [|done]. rewrite Hold by lia. exact Hget1.
      * apply Hnew. lia.
    + intros k Hk. rewrite Hold by lia. by apply Hold1.
Qed.

(** X21. [generate_agents] creates one agent for each arrival of the
    schedule, under the ids [0 .. n-1] in order: agent [k] stands at
    position [k] of the registry with [agent_id = k], outside the park
    and without a pass. *)
Theorem generate_agents_one_per_arrival (distribution : dict string Z) (pct : Q)
    (threshold limit : Z) (p p' : Park.t) s s' :
  Park.generate_agents distribution pct threshold limit p s = Ok (p', s') →
  let n := Z.to_nat (sumZ (dict_values (Park.schedule p))) in
  length (Park.agents p') = (length (Park.agents p) `max` n)%nat
  ∧ ∀ k, (k < n)%nat → ∃ a, Park.agents p' !! k = Some a ∧ fresh_agent k a.
Proof.
  intros Hr n. unfold Park.generate_agents in Hr.
  destruct (bool_decide _); [done|]. fold n in Hr.
  eapply generate_agents_loop in Hr as (Hlen & Hnew & _); [| |lia].
  - split; [exact Hlen|]. intros k Hk. apply Hnew. lia.
  - intros b k t b' t' Hi. bind_ok Hi as u Hu. bind_ok Hi as r Hr'.
    bind_ok Hi as a Ha. ret_ok Hi. exists a. split; [|done].
    by eapply create_fresh.
Qed.

End Population.

(** ** Arrivals *)

Section Admission.
Variable ai : Z.
Variable t : Z.
Variable g : Park.t → Z → Result Park.t.
Hypothesis g_admits : ∀ q i q',
  g q i = Ok q' →
  ∃ agent, Park.agent_item (ai + i) q = Ok agent
           ∧ q' = Park.put_agent (Z.to_nat (ai + i)) (Agent.arrive_at_park t agent) q.

Lemma admit_loop (cnt : nat) :
  ∀ (start : Z) (q q' : Park.t),
    foldR g q (seqZ start (Z.of_nat cnt)) = Ok q' →
    length (Park.agents q') = length (Park.agents q)
    ∧ Park.time q' = Park.time q ∧ Park.arrival_index q' = Park.arrival_index q
    ∧ Park.schedule q' = Park.schedule q
    ∧ ∀ k a, Park.agents q !! k = Some a →
        Park.agents q' !! k
        = Some (if bool_decide (ai + start ≤ Z.of_nat k < ai + start + Z.of_nat cnt)
                then Agent.arrive_at_park t a else a).
Proof.
  induction cnt as [|cnt IH]; intros start q q' Hr.
  - simpl in Hr. injection Hr as <-. repeat split.
    intros k a Hk. rewrite bool_decide_false by lia. done.
  - rewrite Nat2Z.inj_succ, seqZ_cons in Hr by lia. simpl in Hr.
    replace (Z.pred (Z.succ (Z.of_nat cnt))) with (Z.of_nat cnt) in Hr by lia.
    bind_ok Hr as q1 Hq1. apply g_admits in Hq1 as (agent & Hagent & ->).
    unfold Park.agent_item in Hagent.
    destruct (ai + start <? 0) eqn:E; [done|]. apply Z.ltb_ge in E.
    apply or_raise_Ok in Hagent.
    destruct (IH _ _ _ Hr) as (Hlen & Htime & Hai & Hsch & Hget).
    simpl in Hlen, Htime, Hai, Hsch, Hget. rewrite length_insert in Hlen.
    repeat split; [done..|].
    intros k a Hk. destruct (decide (k = Z.to_nat (ai + start))) as [->|Hne].
    + rewrite Hk in Hagent. injection Hagent as ->.
      rewrite (Hget _ (Agent.arrive_at_park t agent)).
      * rewrite bool_decide_false by lia. by rewrite bool_decide_true by lia.
      * apply list_lookup_insert_eq. by eapply lookup_lt_Some.
    + rewrite (Hget _ a) by (by rewrite list_lookup_insert_ne).
      repeat case_bool_decide; try done; lia.
Qed.

End Admission.

(** X22. [allow_new_arrivals], the start of [step]: the agents whose
    positions follow [arrival_index], as many as the schedule gives for
    this minute, arrive at the current time; no other agent changes, and
    [arrival_index] moves past them. *)
Theorem allow_new_arrivals_admits_next_agents (p p' : Park.t) :
  Park.allow_new_arrivals p = Ok p' →
  ∃ n,
    dict_get (Park.time p) (Park.schedule p) = Some n
    ∧ Park.arrival_index p' = Park.arrival_index p + n
    ∧ Park.time p' = Park.time p
    ∧ length (Park.agents p') = length (Park.agents p)
    ∧ ∀ k a, Park.agents p !! k = Some a →
        Park.agents p' !! k
        = Some (if bool_decide (Park.arrival_index p ≤ Z.of_nat k
                                < Park.arrival_index p + n)
                then Agent.arrive_at_park (Park.time p) a else a).
Proof.
  unfold Park.allow_new_arrivals. intros Hr.
  bind_ok Hr as n Hn. bind_ok Hr as p1 Hp1. injection Hr as <-.
  apply dict_item_Ok in Hn. exists n. split; [done|].
  unfold Park.admit_arrivals in Hp1.
  destruct (decide (n ≤ 0)) as [Hle|Hpos].
  - rewrite seqZ_nil in Hp1 by done. injection Hp1 as <-. simpl.
    repeat split. intros k a Hk. by rewrite bool_decide_false by lia.
  - rewrite <- (Z2Nat.id n) in Hp1 by lia.
    eapply (admit_loop (Park.arrival_index p) (Park.time p)) in Hp1
      as (Hlen & Htime & Hai & _ & Hget).
    + simpl. rewrite Hai, Htime. repeat split; [done|].
      intros k a Hk. rewrite (Hget k a Hk). repeat case_bool_decide; try done; lia.
    + intros q i q' Hi. bind_ok Hi as agent Hagent. injection Hi as <-. by exists agent.
Qed.

(** ** The registries of attractions and activities *)

Section SortedBy.
Context {A : Type} (key : A → Z).

Lemma insert_by_Permutation (x : A) (l : list A) : Park.insert_by key x l ≡ₚ x :: l.
Proof.
  induction l as [|y l IH]; simpl; [done|].
  destruct (key x <=? key y); [done|]. rewrite IH. apply Permutation_swap.
Qed.

Lemma sorted_by_Permutation (l : list A) : Park.sorted_by key l ≡ₚ l.
Proof.
  unfold Park.sorted_by. induction l as [|x l IH]; simpl; [done|].
  by rewrite insert_by_Permutation, IH.
Qed.

Lemma insert_by_Sorted (x : A) (l : list A) :
  Sorted (fun a b => key a ≤ key b) l →
  Sorted (fun a b => key a ≤ key b) (Park.insert_by key x l).
Proof.
  induction 1 as [|y l Hl IH Hy]; simpl.
  - by repeat constructor.
  - destruct (key x <=? key y) eqn:E.
    + apply Z.leb_le in E. constructor; [by constructor|by constructor].
    + apply Z.leb_gt in E. constructor; [exact IH|].
      destruct l as [|z l]; simpl.
      * constructor. lia.
      * destruct (key x <=? key z); constructor; [lia|].
        by inversion Hy.
Qed.

Lemma sorted_by_Sorted (l : list A) :
  Sorted (fun a b => key a ≤ key b) (Park.sorted_by key l).
Proof.
  unfold Park.sorted_by. induction l as [|x l IH]; simpl; [constructor|].
  by apply insert_by_Sorted.
Qed.

End SortedBy.

Lemma dict_get_set_eq `{EqDecision K} {V} (k : K) (v : V) (d : dict K V) :
  dict_get k (dict_set k v d) = Some v.
Proof.
  induction d as [|[k0 v0] d IH]; simpl.
  - by rewrite decide_True.
  - destruct (decide (k0 = k)) as [->|Hk]; simpl.
    + by rewrite decide_True.
    + by rewrite decide_False.
Qed.

Lemma dict_set_keys_new `{EqDecision K} {V} (k : K) (v : V) (d : dict K V) :
  k ∉ dict_keys d → dict_keys (dict_set k v d) = dict_keys d ++ [k].
Proof.
  unfold dict_keys. induction d as [|[k0 v0] d IH]; simpl; [done|].
  intros [Hne Hk]%not_elem_of_cons. rewrite decide_False by done.
  rewrite fmap_cons. simpl. f_equal. by apply IH.
Qed.

(** The loop that fills a registry: every item is built and stored
    under its name. *)
Lemma register_all {C X} (name : C → string) (build : C → Result X) (made : C → X)
    (valid : C → Prop) `{∀ c, Decision (valid c)} :
  (∀ c, valid c → build c = Ok (made c)) →
  (∀ c, ¬ valid c → build c = Raise AssertionError) →
  ∀ (l : list C) (d : dict string X),
    (Forall valid l →
     ∃ d', foldR (fun d c => x ← build c; Ok (dict_set (name c) x d)) d l = Ok d'
           ∧ (∀ k, k ∉ name <$> l → dict_get k d' = dict_get k d)
           ∧ (NoDup (dict_keys d ++ (name <$> l)) →
              dict_keys d' = dict_keys d ++ (name <$> l)
              ∧ ∀ c, c ∈ l → dict_get (name c) d' = Some (made c)))
    ∧ (Exists (fun c => ¬ valid c) l →
       foldR (fun d c => x ← build c; Ok (dict_set (name c) x d)) d l
       = Raise AssertionError).
Proof.
  intros Hok Hbad. induction l as [|c l IH]; intros d.
  - split.
    + intros _. exists d. split; [done|]. split; [done|].
      intros _. rewrite app_nil_r. split; [done|].
      intros c Hc. by apply elem_of_nil in Hc.
    + intros Hex. by apply Exists_nil in Hex.
  - split.
    + intros [Hc Hl]%Forall_cons. simpl. rewrite (Hok c Hc). simpl.
      destruct (proj1 (IH (dict_set (name c) (made c) d)) Hl)
        as (d' & Hfold & Hframe & Hkeys).
      exists d'. split; [done|]. split.
      { intros k Hk. rewrite ?fmap_cons in Hk. apply not_elem_of_cons in Hk as [Hne Hk].
        rewrite Hframe by done. by apply dict_get_set_ne. }
      intros Hnd. rewrite ?fmap_cons in Hnd.
      assert (Hnew : name c ∉ dict_keys d).
      { intros Hin. apply NoDup_app in Hnd as (_ & Hd & _). apply (Hd _ Hin). by left. }
      assert (Hnot : name c ∉ name <$> l).
      { apply NoDup_app in Hnd as (_ & _ & Hnd). by apply NoDup_cons in Hnd as [? _]. }
      rewrite dict_set_keys_new, <- (assoc_L (++)) in Hkeys by done.
      destruct (Hkeys Hnd) as [Hk Hget]. split; [by rewrite ?fmap_cons|].
      intros c' [->|Hc']%elem_of_cons; [|by apply Hget].
      rewrite Hframe by done. apply dict_get_set_eq.
    + intros Hex. simpl. destruct (decide (valid c)) as [Hc|Hc].
      * rewrite (Hok c Hc). simpl. apply IH.
        apply Exists_cons in Hex as [?|?]; done.
      * by rewrite (Hbad c Hc).
Qed.

(** X23. [generate_attractions] registers the attractions by rising
    popularity. When every popularity lies between 1 and 10 and the
    names are distinct, the registry of an empty park lists the names
    in the order of the sorted attraction list, a rearrangement of the
    given one, and holds under each name the attraction as initialised
    from its characteristics; a popularity outside 1..10 raises
    [AssertionError]. *)
Theorem generate_attractions_by_popularity (p : Park.t) :
  Park.attractions p = [] →
  (Forall (fun c => 1 ≤ Attraction.c_popularity c ≤ 10) (Park.attraction_list p) →
   NoDup (Attraction.c_name <$> Park.attraction_list p) →
   ∃ p',
     Park.generate_attractions p = Ok p'
     ∧ Park.attraction_list p' ≡ₚ Park.attraction_list p
     ∧ Sorted (fun a b => Attraction.c_popularity a ≤ Attraction.c_popularity b)
         (Park.attraction_list p')
     ∧ dict_keys (Park.attractions p') = Attraction.c_name <$> Park.attraction_list p'
     ∧ ∀ c, c ∈ Park.attraction_list p →
         dict_get (Attraction.c_name c) (Park.attractions p')
         = Some (Attraction.initialize_attraction c))
  ∧ (Exists (fun c => ¬ 1 ≤ Attraction.c_popularity c ≤ 10) (Park.attraction_list p) →
     Park.generate_attractions p = Raise AssertionError).
Proof.
  intros Hempty.
  set (sorted := Park.sorted_by Attraction.c_popularity (Park.attraction_list p)).
  assert (Hperm : sorted ≡ₚ Park.attraction_list p) by apply sorted_by_Permutation.
  assert (Hfold : ∀ q l,
    foldR (fun q attraction =>
             a ← Attraction.init attraction;
             Ok (Park.put_attraction (Attraction.c_name attraction) a q)) q l
    = d ← foldR (fun d c => x ← Attraction.init c; Ok (dict_set (Attraction.c_name c) x d))
            (Park.attractions q) l;
      Ok (Park.set_attractions d q)).
  { intros q l. revert q. induction l as [|c l IH]; intros q; simpl.
    - by destruct q.
    - destruct (Attraction.init c) as [x|e]; simpl; [|done].
      rewrite IH. simpl. by destruct (foldR _ _ l). }
  pose proof (register_all Attraction.c_name Attraction.init
                Attraction.initialize_attraction
                (fun c => 1 ≤ Attraction.c_popularity c ≤ 10)) as Hreg.
  assert (Hok : ∀ c, 1 ≤ Attraction.c_popularity c ≤ 10 →
                     Attraction.init c = Ok (Attraction.initialize_attraction c)).
  { intros c Hc. unfold Attraction.init. rewrite bool_decide_false; [done|lia]. }
  assert (Hbad : ∀ c, ¬ 1 ≤ Attraction.c_popularity c ≤ 10 →
                      Attraction.init c = Raise AssertionError).
  { intros c Hc. unfold Attraction.init. rewrite bool_decide_true; [done|lia]. }
  specialize (Hreg Hok Hbad sorted []). destruct Hreg as [Hgood Hraise].
  unfold Park.generate_attractions. cbv zeta. simpl Park.attraction_list. fold sorted.
  rewrite Hfold. simpl Park.attractions. rewrite Hempty. split.
  - intros Hvalid Hnd.
    destruct Hgood as (d' & Hd' & _ & Hkeys); [by rewrite Hperm|].
    rewrite Hd'. simpl. eexists. split; [done|]. simpl.
    destruct Hkeys as [Hk Hget]; [simpl; by rewrite Hperm|].
    split; [done|]. split; [apply sorted_by_Sorted|]. split; [exact Hk|].
    intros c Hc. apply Hget. by rewrite Hperm.
  - intros Hex. rewrite Hraise; [done|]. by rewrite Hperm.
Qed.

(** ** The minutes of the schedule *)

Lemma dict_get_None `{EqDecision K} {V} (k : K) (d : dict K V) :
  k ∉ dict_keys d → dict_get k d = None.
Proof.
  intros Hk. destruct (dict_get k d) as [v|] eqn:E; [|done].
  exfalso. apply Hk. apply dict_get_elem_of in E.
  apply list_elem_of_fmap. by exists (k, v).
Qed.

Lemma Ok_inj {A} (a b : A) : Ok a = Ok b → a = b.
Proof. by intros [= ->]. Qed.

Lemma fill_hour_keys (base : Z) (arrivals : list Z) :
  ∀ (m0 : Z) (N : nat) (b : Park.t),
    Z.of_nat N = base + m0 →
    dict_keys (Park.schedule b) = seqZ 0 (Z.of_nat N) →
    dict_keys
      (Park.schedule
         (foldl (fun p '(minute, n) =>
                   Park.set_schedule (dict_set (base + minute) n (Park.schedule p)) p)
            b (zip (seqZ m0 (Z.of_nat (length arrivals))) arrivals)))
    = seqZ 0 (Z.of_nat (N + length arrivals)).
Proof.
  induction arrivals as [|a arrivals IH]; intros m0 N b HN Hb.
  - simpl. by rewrite Nat.add_0_r.
  - simpl length. rewrite Nat2Z.inj_succ, seqZ_cons by lia. simpl.
    replace (Z.pred (Z.succ (Z.of_nat (length arrivals))))
      with (Z.of_nat (length arrivals)) by lia.
    rewrite (IH (Z.succ m0) (S N)).
    + f_equal. lia.
    + lia.
    + simpl. rewrite dict_set_keys_new.
      * rewrite Hb, seqZ_S. f_equal. f_equal. lia.
      * rewrite Hb, elem_of_seqZ. lia.
Qed.

Section Minutes.
Variable g : Park.t → Z * string → Result Park.t.
Hypothesis g_keys : ∀ b hour key b' (N : nat),
  g b (hour, key) = Ok b' → Z.of_nat N = hour * 60 →
  dict_keys (Park.schedule b) = seqZ 0 (Z.of_nat N) →
  dict_keys (Park.schedule b') = seqZ 0 (Z.of_nat (N + 60)).

Lemma sample_keys (keys : list string) :
  ∀ (start : nat) (b b' : Park.t),
    foldR g b (zip (seqZ (Z.of_nat start) (len keys)) keys) = Ok b' →
    dict_keys (Park.schedule b) = seqZ 0 (Z.of_nat (60 * start)) →
    dict_keys (Park.schedule b') = seqZ 0 (Z.of_nat (60 * (start + length keys))).
Proof.
  induction keys as [|k keys IH]; intros start b b' Hr Hb.
  - simpl in Hr. injection Hr as <-. by rewrite Nat.add_0_r.
  - unfold len in Hr. simpl length in Hr.
    rewrite Nat2Z.inj_succ, seqZ_cons in Hr by lia. simpl in Hr.
    replace (Z.pred (Z.succ (Z.of_nat (length keys)))) with (len keys) in Hr
      by (unfold len; lia).
    bind_ok Hr as b1 Hb1.
    apply (g_keys _ _ _ _ (60 * start)%nat) in Hb1; [|lia|done].
    replace (Z.succ (Z.of_nat start)) with (Z.of_nat (S start)) in Hr by lia.
    rewrite (IH (S start) b1 b' Hr).
    + f_equal. simpl. lia.
    + rewrite Hb1. f_equal. lia.
Qed.

End Minutes.

Section Schedule.
Context `{RandomSource}.

Hypothesis poisson_sixty : ∀ seed lam, length (np_seeded_poisson seed lam) = 60%nat.

Lemma correct_schedule_keys (count : nat) (delta : Z) :
  ∀ (schedule schedule' : dict Z Z) s s',
    Park.correct_schedule count delta schedule s = Ok (schedule', s') →
    dict_keys schedule' = dict_keys schedule.
Proof.
  induction count as [|count IH]; intros schedule schedule' s s' Hr; simpl in Hr.
  - by apply mret_Ok in Hr as [-> _].
  - bind_ok Hr as k Hk. bind_ok Hr as v Hv. apply dict_item_Ok in Hv.
    apply IH in Hr. by rewrite Hr, (dict_set_keys _ _ v).
Qed.

(** X25. The schedule built for an empty park holds exactly the minutes
    of the opening hours, [0 .. 60 * hours - 1] in order (each Poisson
    sample having its sixty values); a [step] taken at any other time
    raises [KeyError]. *)
Theorem schedule_covers_the_opening_minutes (arrival_seed : dict string Z) (total : Z)
    (perfect : bool) (p p' : Park.t) s s' :
  Park.schedule p = [] →
  Park.generate_arrival_schedule arrival_seed total perfect p s = Ok (p', s') →
  dict_keys (Park.schedule p') = seqZ 0 (60 * len arrival_seed)
  ∧ ∀ fuel q t,
      Park.schedule q = Park.schedule p' →
      ¬ (0 ≤ Park.time q < 60 * len arrival_seed) →
      Park.step fuel q t = Raise KeyError.
Proof.
  intros Hempty Hr.
  assert (Hkeys : dict_keys (Park.schedule p') = seqZ 0 (60 * len arrival_seed)).
  { unfold Park.generate_arrival_schedule in Hr.
    destruct (bool_decide _); [done|]. destruct (24 <? _); [done|].
    bind_ok Hr as p1 Hp1.
    assert (Hk1 : dict_keys (Park.schedule p1) = seqZ 0 (60 * len arrival_seed)).
    { unfold Park.sample_arrivals in Hp1.
      assert (Hlen : len arrival_seed = len (dict_keys arrival_seed)).
      { unfold len, dict_keys. by rewrite length_fmap. }
      rewrite Hlen in Hp1.
      match type of Hp1 with foldR ?g _ _ = _ =>
        assert (Hg : ∀ b hour key b' (N : nat),
          g b (hour, key) = Ok b' → Z.of_nat N = hour * 60 →
          dict_keys (Park.schedule b) = seqZ 0 (Z.of_nat N) →
          dict_keys (Park.schedule b') = seqZ 0 (Z.of_nat (N + 60)))
      end.
      { intros b hour key b' N Hi HN Hb. bind_ok Hi as pct Hpct.
        bind_ok Hi as rng Hrng. bind_ok Hi as arrivals Harr.
        apply Ok_inj in Hi. rewrite <- Hi. clear Hi.
        unfold rng_poisson in Harr. destruct (Qlt_bool _ _); [done|].
        injection Harr as <-.
        match goal with |- context [np_seeded_poisson ?sd ?lam] =>
          pose proof (poisson_sixty sd lam) as H60;
          set (arrivals := np_seeded_poisson sd lam) in * end.
        replace (seqZ 0 60) with (seqZ 0 (Z.of_nat (length arrivals)))
          by (by rewrite H60).
        rewrite (fill_hour_keys (hour * 60) arrivals 0 N).
        + by rewrite H60.
        + lia.
        + by destruct (_ && _). }
      pose proof (sample_keys _ Hg (dict_keys arrival_seed) 0%nat p p1 Hp1) as Hk.
      rewrite Hk by (by rewrite Hempty).
      f_equal. rewrite Hlen. unfold len. lia. }
    bind_ok Hr as u Hu. destruct perfect; [|by ret_ok Hr].
    unfold Park.enforce_perfect_arrivals in Hr.
    bind_ok Hr as sch1 Hs1. bind_ok Hr as sch2 Hs2.
    destruct (bool_decide _); [|done]. ret_ok Hr. simpl.
    assert (Hk2 : dict_keys sch1 = dict_keys (Park.schedule p1)).
    { destruct (0 <? _); [by eapply correct_schedule_keys|].
      by apply mret_Ok in Hs1 as [-> _]. }
    assert (Hk3 : dict_keys sch2 = dict_keys sch1).
    { destruct (_ <? 0); [by eapply correct_schedule_keys|].
      by apply mret_Ok in Hs2 as [-> _]. }
    by rewrite Hk3, Hk2. }
  split; [exact Hkeys|].
  intros fuel q t Hq Htime. unfold Park.step.
  apply M_bind_Raise. unfold lift, Park.allow_new_arrivals, dict_item.
  rewrite dict_get_None; [done|].
  rewrite Hq, Hkeys, elem_of_seqZ. lia.
Qed.

End Schedule.

(** ** The clock of the park *)

Lemma same_layout_put_agent k a p :
  Park.time (Park.put_agent k a p) = Park.time p
  ∧ Park.arrival_index (Park.put_agent k a p) = Park.arrival_index p
  ∧ layout (Park.put_agent k a p) = layout p.
Proof. unfold layout. simpl. by rewrite length_insert. Qed.

Lemma same_layout_put_attraction k x x0 p :
  dict_item k (Park.attractions p) = Ok x0 →
  Park.time (Park.put_attraction k x p) = Park.time p
  ∧ Park.arrival_index (Park.put_attraction k x p) = Park.arrival_index p
  ∧ layout (Park.put_attraction k x p) = layout p.
Proof.
  intros Hk%dict_item_Ok. unfold layout. simpl. by rewrite (dict_set_keys _ _ x0).
Qed.

Lemma same_layout_put_activity k x x0 p :
  dict_item k (Park.activities p) = Ok x0 →
  Park.time (Park.put_activity k x p) = Park.time p
  ∧ Park.arrival_index (Park.put_activity k x p) = Park.arrival_index p
  ∧ layout (Park.put_activity k x p) = layout p.
Proof.
  intros Hk%dict_item_Ok. unfold layout. simpl. by rewrite (dict_set_keys _ _ x0).
Qed.

Lemma beside_refl p : beside p p.
Proof. done. Qed.

Lemma beside_trans p q r : beside p q → beside q r → beside p r.
Proof. unfold beside. intros (-> & -> & ->) (-> & -> & ->). done. Qed.

Lemma beside_put_agent p k a q : beside p q → beside p (Park.put_agent k a q).
Proof. intros Hq. eapply beside_trans; [exact Hq|]. apply same_layout_put_agent. Qed.

Lemma beside_put_attraction p k x x0 q :
  dict_item k (Park.attractions q) = Ok x0 →
  beside p q → beside p (Park.put_attraction k x q).
Proof.
  intros Hk Hq. eapply beside_trans; [exact Hq|]. by eapply same_layout_put_attraction.
Qed.

Lemma beside_put_activity p k x x0 q :
  dict_item k (Park.activities q) = Ok x0 →
  beside p q → beside p (Park.put_activity k x q).
Proof.
  intros Hk Hq. eapply beside_trans; [exact Hq|]. by eapply same_layout_put_activity.
Qed.

Lemma beside_return_passes p fuel : ∀ ind agent_id q q',
  beside p q → Park.return_passes fuel ind agent_id q = Ok q' → beside p q'.
Proof.
  induction fuel as [|fuel IH]; intros ind agent_id q q' Hq Hr; simpl in Hr.
  - bind_ok Hr as agent Ha. destruct (_ !! _); [done|]. by injection Hr as <-.
  - bind_ok Hr as agent Ha.
    destruct (_ !! _) as [attraction|]; [|by injection Hr as <-].
    bind_ok Hr as x Hx. bind_ok Hr as x' Hx'. bind_ok Hr as agent' Ha'.
    eapply IH; [|exact Hr].
    apply beside_put_agent. by eapply beside_put_attraction.
Qed.

Lemma mapR_keys {X Y} (f : string → X → Result Y) (d : dict string X) (d' : dict string Y) :
  mapR (fun '(k, x) => y ← f k x; Ok (k, y)) d = Ok d' → dict_keys d' = dict_keys d.
Proof.
  revert d'. unfold dict_keys. induction d as [|[k x] d IH]; intros d' Hr; simpl in Hr.
  - by injection Hr as <-.
  - bind_ok Hr as ky Hky. bind_ok Hr as rest Hrest. injection Hr as <-.
    bind_ok Hky as y Hy. injection Hky as <-.
    rewrite !fmap_cons. simpl. f_equal. by apply IH.
Qed.

Lemma allow_new_arrivals_clock (p p' : Park.t) :
  Park.allow_new_arrivals p = Ok p' →
  ∃ n, dict_get (Park.time p) (Park.schedule p) = Some n
       ∧ Park.arrival_index p' = Park.arrival_index p + n
       ∧ Park.time p' = Park.time p
       ∧ layout p' = layout p.
Proof.
  unfold Park.allow_new_arrivals. intros Hr.
  bind_ok Hr as n Hn. bind_ok Hr as p1 Hp1. injection Hr as <-.
  apply dict_item_Ok in Hn. exists n. split; [done|].
  assert (Hb : beside p p1).
  { revert Hp1. unfold Park.admit_arrivals. apply foldR_inv; [|done].
    intros b i b' Hb _ Hi. bind_ok Hi as agent Ha. injection Hi as <-.
    by apply beside_put_agent. }
  destruct Hb as (Ht & Hai & Hl). simpl. rewrite Hai, Ht. repeat split.
  exact Hl.
Qed.

Section Clock.
Context `{RandomSource}.

Lemma beside_update_park_state p fuel agent_id action location time q s q' s' :
  beside p q →
  Park.update_park_state fuel agent_id action location time q s = Ok (q', s') →
  beside p q'.
Proof.
  intros Hq Hr. unfold Park.update_park_state in Hr.
  bind_ok Hr as q1 Hq1.
  assert (H1 : beside p q1).
  { destruct (decide (action = Some Agent.leaving)); [|by ret_ok Hq1].
    bind_ok Hq1 as agent Ha. bind_ok Hq1 as q0 Hq0. bind_ok Hq1 as agent' Ha'.
    ret_ok Hq1. apply beside_put_agent.
    destruct (Agent.expedited_pass _); [by injection Hq0 as <-|].
    by eapply beside_return_passes. }
  bind_ok Hr as q2 Hq2.
  assert (H2 : beside p q2).
  { destruct (decide (action = Some Agent.traveling)); [|by ret_ok Hq2].
    bind_ok Hq2 as q3 Hq3.
    assert (H3 : beside p q3).
    { destruct (dict_mem location (Park.attractions q1)); [|by ret_ok Hq3].
      bind_ok Hq3 as l Hl. bind_ok Hq3 as agent Ha. bind_ok Hq3 as x Hx.
      ret_ok Hq3. eapply beside_put_attraction; [exact Hx|].
      by apply beside_put_agent. }
    destruct (dict_mem location (Park.activities q3)); [|by ret_ok Hq2].
    bind_ok Hq2 as l Hl. bind_ok Hq2 as agent Ha. bind_ok Hq2 as x Hx.
    bind_ok Hq2 as x' Hx'. ret_ok Hq2.
    eapply beside_put_activity; [exact Hx|]. by apply beside_put_agent. }
  destruct (decide (action = Some Agent.get_pass_)); [|by ret_ok Hr].
  bind_ok Hr as l Hl. bind_ok Hr as agent Ha. bind_ok Hr as x Hx.
  bind_ok Hr as [x' w] Hx'. ret_ok Hr.
  apply beside_put_agent. eapply beside_put_attraction; [exact Hx|].
  by apply beside_put_agent.
Qed.

Lemma beside_count p q :
  beside p q → beside p (Park.count_distributed_pass q)
               ∧ beside p (Park.count_redeemed_pass q).
Proof. done. Qed.

Lemma beside_decide_and_update p fuel q agent_id s q' s' :
  beside p q → Park.decide_and_update fuel q agent_id s = Ok (q', s') → beside p q'.
Proof.
  intros Hq Hr. unfold Park.decide_and_update in Hr.
  bind_ok Hr as agent Ha. bind_ok Hr as close Hc.
  bind_ok Hr as [action location] Hd.
  eapply beside_update_park_state; [|exact Hr].
  destruct (decide _); [by apply beside_count|done].
Qed.

Lemma beside_process_attraction p q attraction_name q' :
  beside p q → Park.process_attraction q attraction_name = Ok q' → beside p q'.
Proof.
  intros Hq Hr. unfold Park.process_attraction in Hr.
  bind_ok Hr as x Hx. bind_ok Hr as [x' [exiting loaded]] Hx'.
  bind_ok Hr as q1 Hq1.
  assert (H1 : beside p q1).
  { revert Hq1. apply foldR_inv.
    - intros b i b' Hb _ Hi. bind_ok Hi as agent Ha. bind_ok Hi as agent' Ha'.
      injection Hi as <-. by apply beside_put_agent.
    - by eapply beside_put_attraction. }
  revert Hr. apply foldR_inv; [|done].
  intros b i b' Hb _ Hi. bind_ok Hi as agent Ha. bind_ok Hi as b1 Hb1.
  bind_ok Hi as agent1 Ha1. bind_ok Hi as [agent2 redeem] Ha2.
  injection Hi as <-.
  assert (beside p b1).
  { destruct (decide _); [|by injection Hb1 as <-].
    bind_ok Hb1 as l Hl. bind_ok Hb1 as activity Hact.
    bind_ok Hb1 as activity' Hact'. bind_ok Hb1 as agent' Ha'.
    injection Hb1 as <-. apply beside_put_agent.
    by eapply beside_put_activity. }
  destruct redeem; [apply beside_count|]; by apply beside_put_agent.
Qed.

Lemma beside_process_activity p q activity_name q' :
  beside p q → Park.process_activity q activity_name = Ok q' → beside p q'.
Proof.
  intros Hq Hr. unfold Park.process_activity in Hr.
  bind_ok Hr as x Hx. bind_ok Hr as [x' exiting] Hx'.
  revert Hr. apply foldR_inv; [|by eapply beside_put_activity].
  intros b i b' Hb _ Hi. bind_ok Hi as agent Ha. bind_ok Hi as agent' Ha'.
  injection Hi as <-. by apply beside_put_agent.
Qed.

Lemma beside_pass_time p fuel q q' :
  beside p q → Park.pass_time fuel q = Ok q' → beside p q'.
Proof.
  intros Hq Hr. unfold Park.pass_time in Hr.
  bind_ok Hr as xs Hxs. injection Hr as <-.
  eapply beside_trans; [exact Hq|]. unfold beside, layout. simpl.
  rewrite length_fmap.
  rewrite (mapR_keys (fun _ x => Attraction.store_history fuel (Park.time q)
                                   (Attraction.pass_time x)) _ _ Hxs).
  unfold dict_keys. rewrite <- list_fmap_compose.
  repeat split.
Qed.

(** X26. A [step] is one minute. It advances the time by one and the
    arrival index by the arrivals scheduled for that minute, and records
    at that minute the number of agents inside the park; it leaves the
    schedule, the closing time and the seed as they are, and neither
    adds nor removes an agent, an attraction or an activity. *)
Theorem step_is_one_minute (fuel : nat) (p p' : Park.t) s s' :
  Park.step fuel p s = Ok (p', s') →
  Park.time p' = Park.time p + 1
  ∧ (∃ arrivals, dict_get (Park.time p) (Park.schedule p) = Some arrivals
                 ∧ Park.arrival_index p' = Park.arrival_index p + arrivals)
  ∧ layout p' = layout p
  ∧ Park.total_active_agents (Park.hist p') !! Park.time p
    = Some (len (filter (fun a => Agent.within_park (Agent.st a) = true)
                   (Park.agents p'))).
Proof.
  intros Hr. unfold Park.step in Hr.
  bind_ok Hr as p1 Hp1.
  destruct (allow_new_arrivals_clock p p1 Hp1)
    as (n & Hn & Hai & Htime & Hlay).
  assert (H1 : beside p1 p1) by apply beside_refl.
  bind_ok Hr as p2 Hp2.
  assert (H2 : beside p1 p2).
  { revert Hp2. apply foldM_inv; [|done].
    intros b i s1 b' s1' Hb _. by apply beside_decide_and_update. }
  bind_ok Hr as p3 Hp3.
  assert (H3 : beside p1 p3).
  { revert Hp3. apply foldR_inv; [|done].
    intros b i b' Hb _. by apply beside_process_attraction. }
  bind_ok Hr as p4 Hp4.
  assert (H4 : beside p1 p4).
  { revert Hp4. apply foldR_inv; [|done].
    intros b i b' Hb _. by apply beside_process_activity. }
  bind_ok Hr as p5 Hp5. apply (beside_pass_time p1) in Hp5; [|done].
  ret_ok Hr. destruct Hp5 as (Ht5 & Hai5 & Hl5). simpl.
  rewrite Ht5, Htime, Hai5, Hai. split; [done|]. split; [by exists n|].
  split; [by rewrite <- Hlay|]. by rewrite lookup_insert_eq.
Qed.

End Clock.

(** ** The budget at the end of a minute after closing *)

Lemma step_after_close_spent (a a' : Attraction.t) (time c : Z) out :
  c ≤ time → Attraction.step time (Some c) a = Ok (a', out) → spent a'.
Proof.
  intros Hle Hr He. unfold Attraction.step in Hr. bind_ok Hr as a1 Ha1.
  injection Hr as Hr.
  assert (Ha' : a' = (Attraction.run_cycle a1).1) by (by rewrite Hr).
  assert (He1 : Attraction.expedited_queue a1 = true).
  { rewrite Ha' in He. revert He. unfold Attraction.run_cycle.
    by destruct (_ =? _). }
  rewrite Ha', run_cycle_exp_queue_passes.
  unfold Attraction.refresh_passes in Ha1.
  destruct (Attraction.expedited_queue a) eqn:Ea.
  - simpl in Ha1. destruct (time <? c) eqn:E; [apply Z.ltb_lt in E; lia|].
    by injection Ha1 as <-.
  - injection Ha1 as <-. congruence.
Qed.

Lemma layout_park_close p q : layout q = layout p → Park.park_close q = Park.park_close p.
Proof. intros Hl. exact (f_equal (fun t => t.1.1.1.1.2) Hl). Qed.

Lemma beside_park_close p q : beside p q → Park.park_close q = Park.park_close p.
Proof. intros (_ & _ & Hl). by apply layout_park_close. Qed.

Lemma beside_attraction_keys p q :
  beside p q → dict_keys (Park.attractions q) = dict_keys (Park.attractions p).
Proof. intros (_ & _ & Hl). unfold layout in Hl. by injection Hl. Qed.

Lemma process_attraction_attractions (q q' : Park.t) (name : string) :
  Park.process_attraction q name = Ok q' →
  ∃ x x' out,
    dict_item name (Park.attractions q) = Ok x
    ∧ Attraction.step (Park.time q) (Park.park_close q) x = Ok (x', out)
    ∧ Park.attractions q' = dict_set name x' (Park.attractions q).
Proof.
  intros Hr. unfold Park.process_attraction in Hr.
  bind_ok Hr as x Hx. bind_ok Hr as [x' [exiting loaded]] Hx'.
  exists x, x', (exiting, loaded). split; [done|]. split; [done|].
  bind_ok Hr as q1 Hq1.
  assert (H1 : Park.attractions q1 = dict_set name x' (Park.attractions q)).
  { revert Hq1.
    apply (foldR_inv (fun b => Park.attractions b = dict_set name x' (Park.attractions q)));
      [|done].
    intros b i b' Hb _ Hi. bind_ok Hi as agent Ha. bind_ok Hi as agent' Ha'.
    by injection Hi as <-. }
  revert Hr.
  apply (foldR_inv (fun b => Park.attractions b = dict_set name x' (Park.attractions q)));
    [|done].
  intros b i b' Hb _ Hi. bind_ok Hi as agent Ha. bind_ok Hi as b1 Hb1.
  bind_ok Hi as agent1 Ha1. bind_ok Hi as [agent2 redeem] Ha2.
  injection Hi as <-.
  assert (Park.attractions b1 = Park.attractions b) as Hb1'.
  { destruct (decide _); [|by injection Hb1 as <-].
    bind_ok Hb1 as l Hl. bind_ok Hb1 as activity Hact.
    bind_ok Hb1 as activity' Hact'. bind_ok Hb1 as agent' Ha'.
    by injection Hb1 as <-. }
  destruct redeem; simpl; congruence.
Qed.

Lemma process_attraction_spent (q q' : Park.t) (name : string) (c : Z) :
  Park.park_close q = Some c → c ≤ Park.time q →
  Park.process_attraction q name = Ok q' →
  (∃ x, dict_get name (Park.attractions q') = Some x ∧ spent x)
  ∧ ∀ other, other ≠ name →
      dict_get other (Park.attractions q') = dict_get other (Park.attractions q).
Proof.
  intros Hc Hle Hr.
  apply process_attraction_attractions in Hr as (x & x' & out & Hx & Hx' & ->).
  rewrite Hc in Hx'. apply step_after_close_spent in Hx'; [|done]. split.
  - exists x'. split; [apply dict_get_set_eq|done].
  - intros other Hne. by apply dict_get_set_ne.
Qed.

Lemma process_attractions_spent (c : Z) (names : list string) : ∀ q q',
  Park.park_close q = Some c → c ≤ Park.time q →
  foldR Park.process_attraction q names = Ok q' →
  beside q q'
  ∧ (∀ name, name ∈ names →
       ∃ x, dict_get name (Park.attractions q') = Some x ∧ spent x).
Proof.
  induction names as [|n names IH]; intros q q' Hc Hle Hr; simpl in Hr.
  - injection Hr as <-. split; [apply beside_refl|].
    intros name Hin. by apply elem_of_nil in Hin.
  - bind_ok Hr as q1 Hq1.
    pose proof (beside_process_attraction q q n q1 (beside_refl q) Hq1) as Hb1.
    destruct (process_attraction_spent q q1 n c Hc Hle Hq1) as [Hn Hother].
    destruct (IH q1 q') as [Hb Hrest].
    { by rewrite (beside_park_close _ _ Hb1). }
    { destruct Hb1 as (-> & _). done. }
    { done. }
    split; [by eapply beside_trans|].
    intros name Hin.
    destruct (decide (name ∈ names)) as [Hin'|Hnot]; [by apply Hrest|].
    apply elem_of_cons in Hin as [->|Hin]; [|done].
    destruct Hn as (x & Hx & Hs). exists x. split; [|done].
    rewrite <- Hx. clear -Hr Hnot.
    revert q1 Hr. induction names as [|m names IH2]; intros q1 Hr; simpl in Hr.
    + by injection Hr as <-.
    + bind_ok Hr as q2 Hq2. apply not_elem_of_cons in Hnot as [Hne Hnot].
      rewrite (IH2 Hnot q2 Hr).
      apply process_attraction_attractions in Hq2 as (x & x' & out & _ & _ & ->).
      apply dict_get_set_ne. done.
Qed.

Lemma process_activity_attractions (q q' : Park.t) (name : string) :
  Park.process_activity q name = Ok q' → Park.attractions q' = Park.attractions q.
Proof.
  intros Hr. unfold Park.process_activity in Hr.
  bind_ok Hr as x Hx. bind_ok Hr as [x' exiting] Hx'.
  revert Hr. apply (foldR_inv (fun b => Park.attractions b = Park.attractions q)); [|done].
  intros b i b' Hb _ Hi. bind_ok Hi as agent Ha. bind_ok Hi as agent' Ha'.
  by injection Hi as <-.
Qed.

Lemma mapR_dict_get {X Y} (f : string → X → Result Y) (d : dict string X)
    (d' : dict string Y) (k : string) (y : Y) :
  mapR (fun '(k, x) => y ← f k x; Ok (k, y)) d = Ok d' →
  dict_get k d' = Some y → ∃ x, dict_get k d = Some x ∧ f k x = Ok y.
Proof.
  revert d'. induction d as [|[k0 x0] d IH]; intros d' Hr Hk; simpl in Hr.
  - by injection Hr as <-.
  - bind_ok Hr as ky Hky. bind_ok Hr as rest Hrest. injection Hr as <-.
    bind_ok Hky as y0 Hy. injection Hky as <-. simpl in Hk. simpl.
    destruct (decide (k0 = k)) as [->|Hne].
    + injection Hk as <-. by exists x0.
    + by apply (IH rest).
Qed.

Lemma store_history_budget fuel time a a' :
  Attraction.store_history fuel time a = Ok a' →
  Attraction.expedited_queue a' = Attraction.expedited_queue a
  ∧ Attraction.exp_queue_passes a' = Attraction.exp_queue_passes a.
Proof.
  unfold Attraction.store_history. intros Hr.
  bind_ok Hr as w Hw. bind_ok Hr as ew Hew. by injection Hr as <-.
Qed.

Section AfterClosing.
Context `{RandomSource}.

(** X27. At the end of every minute at or after closing, no attraction
    with an expedited queue has a pass left to issue: [Park.step] runs
    every attraction after the agents have decided, and nothing later
    in the minute touches the budget. *)
Theorem park_step_after_close_budget_zero (fuel : nat) (p p' : Park.t) s s' (c : Z) :
  Park.park_close p = Some c → c ≤ Park.time p →
  Park.step fuel p s = Ok (p', s') →
  ∀ name x, dict_get name (Park.attractions p') = Some x →
    Attraction.expedited_queue x = true → Attraction.exp_queue_passes x = 0%Q.
Proof.
  intros Hc Hle Hr name y Hy. unfold Park.step in Hr.
  bind_ok Hr as p1 Hp1.
  destruct (allow_new_arrivals_clock p p1 Hp1) as (n & Hn & Hai & Htime & Hlay).
  bind_ok Hr as p2 Hp2.
  assert (H2 : beside p1 p2).
  { revert Hp2. apply foldM_inv; [|apply beside_refl].
    intros b i s1 b' s1' Hb _. by apply beside_decide_and_update. }
  assert (Hc2 : Park.park_close p2 = Some c).
  { by rewrite (beside_park_close _ _ H2), (layout_park_close _ _ Hlay). }
  assert (Ht2 : c ≤ Park.time p2).
  { destruct H2 as (-> & _). by rewrite Htime. }
  bind_ok Hr as p3 Hp3.
  destruct (process_attractions_spent c _ p2 p3 Hc2 Ht2 Hp3) as [H3 Hspent].
  bind_ok Hr as p4 Hp4.
  assert (H4 : Park.attractions p4 = Park.attractions p3).
  { revert Hp4.
    apply (foldR_inv (fun b => Park.attractions b = Park.attractions p3)); [|done].
    intros b i b' Hb _ Hi. apply process_activity_attractions in Hi. congruence. }
  bind_ok Hr as p5 Hp5. ret_ok Hr. simpl in Hy.
  unfold Park.pass_time in Hp5. bind_ok Hp5 as xs Hxs. injection Hp5 as <-.
  simpl in Hy, Hxs.
  destruct (mapR_dict_get
              (fun _ x => Attraction.store_history fuel (Park.time p4) (Attraction.pass_time x))
              _ _ _ _ Hxs Hy) as (x & Hx & Hst).
  apply store_history_budget in Hst as [-> ->]. simpl.
  rewrite H4 in Hx.
  destruct (Hspent name) as (x0 & Hx0 & Hs).
  { rewrite <- (beside_attraction_keys _ _ H3). unfold dict_keys.
    apply dict_get_elem_of in Hx. apply list_elem_of_fmap. by exists (name, x). }
  assert (x0 = x) as -> by congruence. exact Hs.
Qed.

End AfterClosing.

(** ** Instances *)

Lemma get_wait_time_standby_only_witness :
  Attraction.expedited_queue (Scenario.coaster_queue 3) = false
  ∧ length (Attraction.queue (Scenario.coaster_queue 3)) = 25%nat
  ∧ ∃ w, Attraction.get_wait_time 0 (Scenario.coaster_queue 3) = Ok w
         ∧ (w == 20 + inject_Z (Attraction.run_time_remaining (Scenario.coaster_queue 3)))%Q.
Proof.
  split; [reflexivity|]. split; [reflexivity|].
  apply (proj2 get_wait_time_standby_only 0%nat Scenario.coaster);
    repeat split; reflexivity.
Defined.

Lemma get_exp_wait_time_without_expedited_queue_witness :
  Attraction.expedited_queue (Scenario.coaster_queue 3) = false
  ∧ Attraction.get_exp_wait_time 0 (Scenario.coaster_queue 3) = Ok 0.
Proof.
  split; [reflexivity|].
  apply (get_exp_wait_time_without_expedited_queue 0 (Scenario.coaster_queue 3)).
  reflexivity.
Defined.

Lemma step_after_close_budget_zero_witness :
  Attraction.expedited_queue Scenario.busy_ride = true
  ∧ 120 ≤ 130
  ∧ ∃ a' out, Attraction.step 130 (Some 120) Scenario.busy_ride = Ok (a', out)
              ∧ Attraction.exp_queue_passes a' = 0%Q.
Proof.
  split; [reflexivity|]. split; [lia|].
  apply (step_after_close_budget_zero Scenario.busy_ride 130 120); [reflexivity|lia].
Defined.

Lemma add_to_activity_stay_capped_witness :
  ∃ a' s',
    [-5; 30] ≠ []
    ∧ Activity.add_to_activity (H := Scenario.source 0 []) 3 [-5; 30]
        (Activity.initialize_activity Scenario.shops (Some 0)) (Scenario.start 0 [] 2)
      = Ok (a', s')
    ∧ ∃ drawn soonest stay,
        Activity.draw_stay_time (H := Scenario.source 0 []) 3
          (Activity.initialize_activity Scenario.shops (Some 0)) (Scenario.start 0 [] 2)
        = Ok (drawn, s')
        ∧ soonest ∈ [-5; 30]
        ∧ (∀ d, d ∈ [-5; 30] → soonest ≤ d)
        ∧ stay = Z.min drawn (Z.max 1 soonest)
        ∧ Activity.visitors a' = [3%nat]
        ∧ Activity.visitor_time_remaining a' = [stay]
        ∧ 1 ≤ stay
        ∧ (∀ d, d ∈ [-5; 30] → stay ≤ Z.max 1 d)
        ∧ ((∃ d, d ∈ [-5; 30] ∧ d ≤ 0) → stay = 1).
Proof.
  eexists _, _. split; [done|]. split; [vm_compute; reflexivity|].
  eapply (add_to_activity_stay_capped (H := Scenario.source 0 []) 3 [-5; 30]
            (Activity.initialize_activity Scenario.shops (Some 0))
            (Scenario.start 0 [] 2)); [done|vm_compute; reflexivity].
Defined.

Lemma reachable_park_of_run arrivals attraction_list activity_list seed arrival_seed
    total n z :
  reachable (H := Scenario.source seed arrivals)
    (Scenario.park_of
       (Scenario.run arrivals attraction_list activity_list seed arrival_seed total n z)).
Proof.
  unfold Scenario.park_of.
  destruct (Scenario.run _ _ _ _ _ _ _ _) as [[p s]|e] eqn:E.
  - by eapply reachable_run.
  - apply reach_init.
Qed.

Lemma busy_reachable : reachable (H := Scenario.source 0 [6]) (Scenario.park_of Scenario.busy).
Proof. apply reachable_park_of_run. Qed.

Lemma occupancy_within_capacity_witness :
  reachable (H := Scenario.source 0 [6]) (Scenario.park_of Scenario.busy)
  ∧ dict_get "Express"%string (Park.attractions (Scenario.park_of Scenario.busy))
    = Some Scenario.busy_ride
  ∧ well_formed Scenario.busy_ride
  ∧ Attraction.agents_in_attraction Scenario.busy_ride = [2%nat; 3%nat]
  ∧ occupancy_ok Scenario.busy_ride.
Proof.
  assert (Hk : dict_get "Express"%string (Park.attractions (Scenario.park_of Scenario.busy))
               = Some Scenario.busy_ride) by (vm_compute; reflexivity).
  assert (Hwf : well_formed Scenario.busy_ride) by (vm_compute; repeat split; discriminate).
  split; [exact busy_reachable|]. split; [exact Hk|]. split; [exact Hwf|].
  split; [vm_compute; reflexivity|].
  exact (proj1 (occupancy_within_capacity (H := Scenario.source 0 [6])
                  (Scenario.park_of Scenario.busy) "Express"%string Scenario.busy_ride
                  busy_reachable Hk Hwf)).
Defined.

Lemma reachable_tour (n : nat) p s :
  Cases.tour n = Ok (p, s) → reachable (H := Scenario.source 0 [6]) p.
Proof.
  unfold Cases.tour. intros Hr.
  bind_ok Hr as p1 Hp1. bind_ok Hr as p2 Hp2. bind_ok Hr as p3 Hp3.
  bind_ok Hr as p4 Hp4.
  eapply reachable_steps; [|exact Hr].
  eapply reach_activities; [|exact Hp4].
  eapply reach_attractions; [|exact Hp3].
  eapply reach_agents; [|exact Hp2].
  eapply reach_arrival_schedule; [|exact Hp1].
  apply reach_init.
Qed.

Lemma touring_reachable : reachable (H := Scenario.source 0 [6]) Cases.touring.
Proof.
  unfold Cases.touring, Scenario.park_of.
  destruct (Cases.tour 8) as [[p s]|e] eqn:E.
  - by eapply reachable_tour.
  - apply reach_init.
Qed.

Lemma tourist_registered : Park.agents Cases.touring !! 0%nat = Some Cases.tourist.
Proof. vm_compute. reflexivity. Qed.

Lemma held_passes_distinct_and_paired_witness :
  reachable (H := Scenario.source 0 [6]) Cases.touring
  ∧ Park.agents Cases.touring !! 0%nat = Some Cases.tourist
  ∧ pass_countdowns Cases.tourist = [("Express"%string, 2); ("Falls"%string, 12)]
  ∧ NoDup (Agent.expedited_pass (Agent.st Cases.tourist))
  ∧ length (Agent.expedited_pass (Agent.st Cases.tourist))
    = length (Agent.expedited_return_time (Agent.st Cases.tourist))
  ∧ holds Cases.tourist (pass_countdowns Cases.tourist)
  ∧ (∀ name time w,
       holds (Agent.assign_expedited_return_time w (Agent.get_pass name time Cases.tourist))
         (pass_countdowns Cases.tourist ++ [(name, w)]))
  ∧ (∀ name a', Agent.return_exp_pass name Cases.tourist = Ok a' →
       holds a' (filter (fun nt => nt.1 ≠ name) (pass_countdowns Cases.tourist)))
  ∧ (∀ name time a' redeemed,
       Agent.agent_boarded_attraction name time Cases.tourist = Ok (a', redeemed) →
       holds a' (filter (fun nt => nt.1 ≠ name) (pass_countdowns Cases.tourist)))
  ∧ holds (Agent.pass_time Cases.tourist)
      (if Agent.within_park (Agent.st Cases.tourist)
       then prod_map id (fun val => val - 1) <$> pass_countdowns Cases.tourist
       else pass_countdowns Cases.tourist)
  ∧ (∀ time, holds (Agent.arrive_at_park time Cases.tourist)
               (pass_countdowns Cases.tourist))
  ∧ (∀ time, holds (Agent.leave_park time Cases.tourist) (pass_countdowns Cases.tourist))
  ∧ (∀ name time, holds (Agent.enter_queue name time Cases.tourist)
                    (pass_countdowns Cases.tourist))
  ∧ (∀ name time, holds (Agent.begin_activity name time Cases.tourist)
                    (pass_countdowns Cases.tourist))
  ∧ (∀ name time a', Agent.agent_exited_attraction name time Cases.tourist = Ok a' →
       holds a' (pass_countdowns Cases.tourist))
  ∧ (∀ name time a', Agent.agent_exited_activity name time Cases.tourist = Ok a' →
       holds a' (pass_countdowns Cases.tourist)).
Proof.
  split; [exact touring_reachable|]. split; [exact tourist_registered|].
  split; [vm_compute; reflexivity|].
  exact (held_passes_distinct_and_paired (H := Scenario.source 0 [6])
           Cases.touring 0 Cases.tourist touring_reachable tourist_registered).
Defined.

Lemma step_without_park_close_witness :
  Park.park_close (Scenario.park_of (Scenario.unclosed 1)) = None
  ∧ is_Ok (Park.allow_new_arrivals (Scenario.park_of (Scenario.unclosed 1))) = true
  ∧ Park.step (H := Scenario.source 0 [0; 1]) 100 (Scenario.park_of (Scenario.unclosed 1))
      (Scenario.start 0 [0; 1] 1)
    = Raise TypeError.
Proof.
  split; [vm_compute; reflexivity|]. split; [vm_compute; reflexivity|].
  destruct (Park.allow_new_arrivals (Scenario.park_of (Scenario.unclosed 1)))
    as [p1|e] eqn:E; [|vm_compute in E; discriminate].
  apply (proj2 (step_without_park_close (H := Scenario.source 0 [0; 1])) 100%nat
           (Scenario.park_of (Scenario.unclosed 1)) (Scenario.start 0 [0; 1] 1) p1).
  - vm_compute; reflexivity.
  - exact E.
  - vm_compute in E. injection E as <-. vm_compute. discriminate.
Defined.

(** A Poisson sample of 2 and 1 arrivals in the first two minutes and a
    daily total of 1: the schedule is corrected down to the total. *)
Lemma generate_arrival_schedule_exact_instance :
  ∃ p' s',
    Park.generate_arrival_schedule (H := Scenario.source 0 [2; 1]) Scenario.one_hour 1 true
      (Park.init [] [] 0) (Scenario.start 0 [2; 1] 0) = Ok (p', s')
    ∧ sumZ (dict_values (Park.schedule p')) = 1
    ∧ schedule_ok p'.
Proof.
  destruct (generate_arrival_schedule_exact (H := Scenario.source 0 [2; 1]))
    with (arrival_seed := Scenario.one_hour) (total := 1) (p := Park.init [] [] 0)
         (s := Scenario.start 0 [2; 1] 0)
    as (p0 & Hp0 & _ & Hexact & _).
  - intros seed lam. simpl. destruct (seed =? 0); vm_compute; repeat constructor; discriminate.
  - reflexivity.
  - vm_compute. discriminate.
  - repeat constructor. simpl. lia.
  - lia.
  - simpl. lia.
  - split; simpl; constructor.
  - apply Hexact. vm_compute in Hp0. injection Hp0 as <-. vm_compute. intros [Hz _]. discriminate.
Defined.

Lemma step_moves_front_of_queues_witness :
  ∃ a',
    Attraction.step 0 (Some 120) Cases.express_ready = Ok (a', ([8; 9]%nat, [1; 4]%nat))
    ∧ [8; 9]%nat = Attraction.agents_in_attraction Cases.express_ready
    ∧ Attraction.agents_in_attraction a' = [1; 4]%nat
    ∧ Attraction.run_time_remaining a' = Attraction.run_time Cases.express_ready
    ∧ ∃ from_exp from_standby,
        [1; 4]%nat = from_exp ++ from_standby
        ∧ Attraction.exp_queue Cases.express_ready = from_exp ++ Attraction.exp_queue a'
        ∧ Attraction.queue Cases.express_ready = from_standby ++ Attraction.queue a'.
Proof.
  eexists. split; [vm_compute; reflexivity|].
  refine (step_moves_front_of_queues 0 (Some 120) Cases.express_ready _
            [8; 9]%nat [1; 4]%nat _).
  vm_compute. reflexivity.
Defined.

Lemma get_wait_time_returns_witness :
  Attraction.expedited_queue Cases.express_ready = true
  ∧ well_formed Cases.express_ready
  ∧ (0 < Attraction.capacity Cases.express_ready)%Q
  ∧ ∃ runs,
      Attraction.get_wait_time 7 Cases.express_ready
      = Ok (inject_Z (runs * Attraction.run_time Cases.express_ready
                      + Attraction.run_time_remaining Cases.express_ready))
      ∧ 0 ≤ runs ≤ 7.
Proof.
  assert (Hwf : well_formed Cases.express_ready)
    by (vm_compute; repeat split; discriminate).
  split; [reflexivity|]. split; [exact Hwf|]. split; [reflexivity|].
  exact (get_wait_time_returns 7 Cases.express_ready eq_refl Hwf eq_refl (le_n 7)).
Defined.

Lemma get_wait_time_zero_capacity_witness :
  (Attraction.capacity Cases.no_seats == 0)%Q
  ∧ Attraction.get_wait_time 1000 Cases.no_seats = Raise OutOfFuel.
Proof.
  split; [reflexivity|].
  exact (get_wait_time_zero_capacity 1000 Cases.no_seats eq_refl).
Defined.

Lemma get_exp_wait_time_returns_witness :
  Attraction.expedited_queue Cases.express_ready = true
  ∧ (0 < Attraction.capacity Cases.express_ready)%Q
  ∧ 1 ≤ py_int (Attraction.capacity Cases.express_ready
                * Attraction.exp_queue_ratio Cases.express_ready)
  ∧ ∃ runs,
      Attraction.get_exp_wait_time 3 Cases.express_ready
      = Ok (runs * Attraction.run_time Cases.express_ready
            + Attraction.run_time_remaining Cases.express_ready)
      ∧ 0 ≤ runs ≤ 3.
Proof.
  assert (Hseat : 1 ≤ py_int (Attraction.capacity Cases.express_ready
                              * Attraction.exp_queue_ratio Cases.express_ready))
    by (vm_compute; discriminate).
  split; [reflexivity|]. split; [reflexivity|]. split; [exact Hseat|].
  exact (get_exp_wait_time_returns 3 Cases.express_ready eq_refl eq_refl Hseat (le_n 3)).
Defined.

Lemma get_exp_wait_time_hangs_witness :
  Attraction.expedited_queue Cases.rapids_queue = true
  ∧ py_int (Attraction.capacity Cases.rapids_queue
            * Attraction.exp_queue_ratio Cases.rapids_queue) = 0
  ∧ (Attraction.capacity Cases.rapids_queue
     <= inject_Z (len (Attraction.exp_queue Cases.rapids_queue)))%Q
  ∧ Attraction.get_exp_wait_time 1000 Cases.rapids_queue = Raise OutOfFuel.
Proof.
  assert (Hcap : (Attraction.capacity Cases.rapids_queue
                  <= inject_Z (len (Attraction.exp_queue Cases.rapids_queue)))%Q)
    by (vm_compute; discriminate).
  split; [reflexivity|]. split; [reflexivity|]. split; [exact Hcap|].
  apply (get_exp_wait_time_hangs 1000 Cases.rapids_queue eq_refl eq_refl); [|exact Hcap].
  discriminate.
Defined.

Lemma step_releases_finished_visitors_witness :
  aligned Cases.shoppers
  ∧ ∃ a',
      Activity.step 5 Cases.shoppers = Ok (a', [9; 4]%nat)
      ∧ zip (Activity.visitors a') (Activity.visitor_time_remaining a') = [(7%nat, 3)]
      ∧ aligned a'.
Proof.
  split; [reflexivity|].
  exact (step_releases_finished_visitors 5 Cases.shoppers eq_refl).
Defined.

Lemma activity_methods_keep_aligned_witness :
  aligned Cases.shoppers
  ∧ (∀ agent_id deadlines s a' s',
       Activity.add_to_activity (H := Scenario.source 0 []) agent_id deadlines
         Cases.shoppers s = Ok (a', s') → aligned a')
  ∧ (∀ agent_id a', Activity.force_exit agent_id Cases.shoppers = Ok a' → aligned a')
  ∧ (∀ time a' out, Activity.step time Cases.shoppers = Ok (a', out) → aligned a')
  ∧ aligned (Activity.pass_time Cases.shoppers).
Proof.
  split; [reflexivity|].
  exact (activity_methods_keep_aligned (H := Scenario.source 0 []) Cases.shoppers eq_refl).
Defined.

Lemma force_exit_undoes_add_to_activity_witness :
  (5%nat ∉ Activity.visitors Cases.shoppers)
  ∧ Activity.force_exit 5 Cases.shoppers = Raise ValueError
  ∧ (aligned Cases.shoppers →
     ∀ deadlines s a1 s1,
       Activity.add_to_activity (H := Scenario.source 0 []) 5 deadlines Cases.shoppers s
       = Ok (a1, s1) →
       ∃ a2, Activity.force_exit 5 a1 = Ok a2
             ∧ Activity.visitors a2 = Activity.visitors Cases.shoppers
             ∧ Activity.visitor_time_remaining a2
               = Activity.visitor_time_remaining Cases.shoppers).
Proof.
  assert (Hnot : 5%nat ∉ Activity.visitors Cases.shoppers).
  { simpl. rewrite !not_elem_of_cons. repeat split; [lia..|apply not_elem_of_nil]. }
  split; [exact Hnot|].
  exact (force_exit_undoes_add_to_activity (H := Scenario.source 0 []) 5 Cases.shoppers Hnot).
Defined.

Lemma return_pass_undoes_pass_witness :
  (5%nat ∉ Attraction.exp_queue Cases.express_ready)
  ∧ Attraction.return_pass 5 Cases.express_ready = Raise ValueError
  ∧ ∀ fuel a1 w,
      Attraction.add_to_exp_queue fuel 5 (Attraction.remove_pass Cases.express_ready)
      = Ok (a1, w) →
      ∃ a2, Attraction.return_pass 5 a1 = Ok a2
            ∧ Attraction.exp_queue a2 = Attraction.exp_queue Cases.express_ready
            ∧ Attraction.queue a2 = Attraction.queue Cases.express_ready
            ∧ Attraction.agents_in_attraction a2
              = Attraction.agents_in_attraction Cases.express_ready
            ∧ Attraction.exp_queue_passes_distributed a2
              = Attraction.exp_queue_passes_distributed Cases.express_ready.
Proof.
  assert (Hnot : 5%nat ∉ Attraction.exp_queue Cases.express_ready).
  { simpl. rewrite !not_elem_of_cons. repeat split; [lia..|apply not_elem_of_nil]. }
  split; [exact Hnot|].
  exact (return_pass_undoes_pass 5 Cases.express_ready Hnot).
Defined.

Lemma holder_passes_ok : passes_ok Cases.holder.
Proof.
  split; [|reflexivity]. simpl. apply NoDup_cons. split; [|apply NoDup_singleton].
  intros Hin%list_elem_of_singleton. discriminate.
Qed.

Lemma boarding_redeems_the_pass_witness :
  passes_ok Cases.holder
  ∧ pass_countdowns Cases.holder = [("Express"%string, 12); ("Rapids"%string, 30)]
  ∧ ∃ a',
      Agent.agent_boarded_attraction "Rapids" 40 Cases.holder = Ok (a', true)
      ∧ holds a' [("Express"%string, 12)]
      ∧ ("Rapids"%string ∉ Agent.expedited_pass (Agent.st a'))
      ∧ passes_ok a'
      ∧ Agent.current_location (Agent.st a') = Some "Rapids"%string
      ∧ Agent.current_action (Agent.st a') = Some Agent.riding
      ∧ (∀ other, other ≠ "Rapids"%string →
           other ∈ Agent.expedited_pass (Agent.st a') ↔
           other ∈ Agent.expedited_pass (Agent.st Cases.holder)).
Proof.
  split; [exact holder_passes_ok|]. split; [reflexivity|].
  exact (boarding_redeems_the_pass "Rapids" 40 Cases.holder holder_passes_ok).
Defined.

Lemma holder_passes_queued : passes_queued Cases.lobby Cases.holder.
Proof.
  intros name Hin. simpl in Hin.
  apply elem_of_cons in Hin as [->|Hin]; [|apply list_elem_of_singleton in Hin as ->];
    (eexists; split; [reflexivity|]); apply list_elem_of_here.
Qed.

Lemma leaving_hands_back_every_other_pass_witness :
  Park.agents Cases.lobby !! 0%nat = Some Cases.holder
  ∧ passes_ok Cases.holder
  ∧ passes_queued Cases.lobby Cases.holder
  ∧ ∃ p' a',
      Park.update_park_state (H := Scenario.source 0 []) 10 0 (Some Agent.leaving)
        (Some "gate"%string) 30 Cases.lobby (Scenario.start 0 [] 0)
      = Ok (p', Scenario.start 0 [] 0)
      ∧ Park.agents p' !! 0%nat = Some a'
      ∧ Agent.within_park (Agent.st a') = false
      ∧ Agent.expedited_pass (Agent.st a') = ["Rapids"%string]
      ∧ ∀ name, name ∈ Agent.expedited_pass (Agent.st a') →
          dict_get name (Park.attractions p') = dict_get name (Park.attractions Cases.lobby).
Proof.
  split; [reflexivity|]. split; [exact holder_passes_ok|].
  split; [exact holder_passes_queued|].
  exact (leaving_hands_back_every_other_pass (H := Scenario.source 0 []) 10 0
           (Some "gate"%string) 30 Cases.lobby Cases.holder (Scenario.start 0 [] 0)
           eq_refl holder_passes_ok holder_passes_queued).
Defined.

Lemma busy_agent_registered :
  Park.agents (Scenario.park_of Scenario.busy) !! 0%nat = Some Scenario.busy_agent.
Proof. vm_compute. reflexivity. Qed.

Lemma time_spent_is_never_recorded_witness :
  reachable (H := Scenario.source 0 [6]) (Scenario.park_of Scenario.busy)
  ∧ Park.agents (Scenario.park_of Scenario.busy) !! 0%nat = Some Scenario.busy_agent
  ∧ time_spent_unset Scenario.busy_agent.
Proof.
  split; [exact busy_reachable|]. split; [exact busy_agent_registered|].
  exact (time_spent_is_never_recorded (H := Scenario.source 0 [6])
           (Scenario.park_of Scenario.busy) 0 Scenario.busy_agent
           busy_reachable busy_agent_registered).
Defined.

Lemma agents_follow_an_archetype_witness :
  reachable (H := Scenario.source 0 [6]) (Scenario.park_of Scenario.busy)
  ∧ Park.agents (Scenario.park_of Scenario.busy) !! 0%nat = Some Scenario.busy_agent
  ∧ of_archetype Scenario.busy_agent.
Proof.
  split; [exact busy_reachable|]. split; [exact busy_agent_registered|].
  exact (agents_follow_an_archetype (H := Scenario.source 0 [6])
           (Scenario.park_of Scenario.busy) 0 Scenario.busy_agent
           busy_reachable busy_agent_registered).
Defined.

Lemma agents_inside_have_arrived_witness :
  reachable (H := Scenario.source 0 [6]) (Scenario.park_of Scenario.busy)
  ∧ Park.agents (Scenario.park_of Scenario.busy) !! 0%nat = Some Scenario.busy_agent
  ∧ Agent.within_park (Agent.st Scenario.busy_agent) = true
  ∧ present Scenario.busy_agent.
Proof.
  split; [exact busy_reachable|]. split; [exact busy_agent_registered|].
  split; [vm_compute; reflexivity|].
  exact (agents_inside_have_arrived (H := Scenario.source 0 [6])
           (Scenario.park_of Scenario.busy) 0 Scenario.busy_agent
           busy_reachable busy_agent_registered).
Defined.

Lemma select_activity_decision_by_popularity_witness :
  (0 <= (py_random (py (Scenario.start 0 [] 0))).1)%Q
  ∧ ((py_random (py (Scenario.start 0 [] 0))).1 < 1)%Q
  ∧ Forall (fun kv => 0 ≤ Activity.popularity kv.2) Cases.stalls
  ∧ ∃ selected s',
      Agent.select_activity_decision (H := Scenario.source 0 []) Cases.stalls
        (Scenario.start 0 [] 0) = Ok (selected, s')
      ∧ match selected with
        | Some name => ∃ x, (name, x) ∈ Cases.stalls ∧ 0 < Activity.popularity x
        | None => Forall (fun kv => Activity.popularity kv.2 = 0) Cases.stalls
        end.
Proof.
  assert (H0 : (0 <= (py_random (py (Scenario.start 0 [] 0))).1)%Q)
    by (vm_compute; discriminate).
  assert (H1 : ((py_random (py (Scenario.start 0 [] 0))).1 < 1)%Q)
    by (vm_compute; reflexivity).
  assert (Hpop : Forall (fun kv => 0 ≤ Activity.popularity kv.2) Cases.stalls)
    by (repeat constructor; simpl; lia).
  split; [exact H0|]. split; [exact H1|]. split; [exact Hpop|].
  exact (select_activity_decision_by_popularity (H := Scenario.source 0 []) Cases.stalls
           (Scenario.start 0 [] 0) H0 H1 Hpop).
Defined.

Lemma valid_attractions_are_eligible_witness :
  ∃ s',
    Agent.decide_attraction_or_activity (H := Scenario.source 0 [])
      (Park.attractions Cases.lobby) (Scenario.visitor 0) (Scenario.start 0 [] 0)
    = Ok ((true, ["Express"; "Rapids"]%string), s')
    ∧ (true = true ↔ ["Express"; "Rapids"]%string ≠ [])
    ∧ ∀ x, x ∈ ["Express"; "Rapids"]%string →
        (x ∉ Agent.expedited_pass (Agent.st (Scenario.visitor 0)))
        ∧ (if Agent.allow_repeats (Agent.bhv (Scenario.visitor 0))
           then x ∈ dict_keys (Park.attractions Cases.lobby)
           else (x, 0) ∈ Agent.attractions (Agent.st (Scenario.visitor 0)))
        ∧ (Agent.age (Agent.st (Scenario.visitor 0)) ≠ Agent.no_preference →
           ∃ attraction,
             dict_get x (Park.attractions Cases.lobby) = Some attraction
             ∧ Agent.age_eligible (Agent.age (Agent.st (Scenario.visitor 0)))
                 (Attraction.child_eligible attraction)
                 (Attraction.adult_eligible attraction) = true).
Proof.
  eexists. split; [vm_compute; reflexivity|].
  refine (valid_attractions_are_eligible (H := Scenario.source 0 [])
            (Park.attractions Cases.lobby) (Scenario.visitor 0) (Scenario.start 0 [] 0)
            true ["Express"; "Rapids"]%string _ _).
  vm_compute. reflexivity.
Defined.

Lemma park_close_is_first_empty_hour_witness :
  truthy (Park.park_close (Park.init [] [] 0)) = false
  ∧ dict_keys Scenario.two_hours !! 2%nat = Some "h2"%string
  ∧ dict_get "h2"%string Scenario.two_hours = Some 0
  ∧ ∃ p' s',
      Park.generate_arrival_schedule (H := Scenario.source 0 [6]) Scenario.two_hours 6 false
        (Park.init [] [] 0) (Scenario.start 0 [6] 0) = Ok (p', s')
      ∧ Park.park_close p' = Some 120.
Proof.
  split; [reflexivity|]. split; [reflexivity|]. split; [reflexivity|].
  destruct (Park.generate_arrival_schedule (H := Scenario.source 0 [6]) Scenario.two_hours
              6 false (Park.init [] [] 0) (Scenario.start 0 [6] 0))
    as [[p' s']|e] eqn:E; [|vm_compute in E; discriminate].
  exists p', s'. split; [reflexivity|].
  apply (park_close_is_first_empty_hour (H := Scenario.source 0 [6]) Scenario.two_hours
           6 false 2 "h2" (Park.init [] [] 0) p' (Scenario.start 0 [6] 0) s');
    [reflexivity|lia|reflexivity|reflexivity| |exact E].
  intros j key_j Hj Hkey. assert (j = 1%nat) as -> by lia.
  injection Hkey as <-. discriminate.
Defined.

Lemma generate_agents_one_per_arrival_witness :
  ∃ p' s',
    Park.generate_agents (H := Scenario.source 0 []) Scenario.enthusiasts 1 0 1
      Cases.planned (Scenario.start 0 [] 0) = Ok (p', s')
    ∧ length (Park.agents p') = 3%nat
    ∧ ∀ k, (k < 3)%nat → ∃ a, Park.agents p' !! k = Some a ∧ fresh_agent k a.
Proof.
  destruct (Park.generate_agents (H := Scenario.source 0 []) Scenario.enthusiasts 1 0 1
              Cases.planned (Scenario.start 0 [] 0))
    as [[p' s']|e] eqn:E; [|vm_compute in E; discriminate].
  exists p', s'. split; [reflexivity|].
  exact (generate_agents_one_per_arrival (H := Scenario.source 0 []) Scenario.enthusiasts
           1 0 1 Cases.planned p' (Scenario.start 0 [] 0) s' E).
Defined.

Lemma allow_new_arrivals_admits_next_agents_witness :
  ∃ p',
    Park.allow_new_arrivals Cases.opening = Ok p'
    ∧ ∃ n,
        dict_get (Park.time Cases.opening) (Park.schedule Cases.opening) = Some n
        ∧ Park.arrival_index p' = Park.arrival_index Cases.opening + n
        ∧ Park.time p' = Park.time Cases.opening
        ∧ length (Park.agents p') = length (Park.agents Cases.opening)
        ∧ ∀ k a, Park.agents Cases.opening !! k = Some a →
            Park.agents p' !! k
            = Some (if bool_decide (Park.arrival_index Cases.opening ≤ Z.of_nat k
                                    < Park.arrival_index Cases.opening + n)
                    then Agent.arrive_at_park (Park.time Cases.opening) a else a).
Proof.
  destruct (Park.allow_new_arrivals Cases.opening) as [p'|e] eqn:E;
    [|vm_compute in E; discriminate].
  exists p'. split; [reflexivity|].
  exact (allow_new_arrivals_admits_next_agents Cases.opening p' E).
Defined.

Lemma generate_attractions_by_popularity_witness :
  Park.attractions (Park.init [Scenario.express; Cases.rapids] [] 0) = []
  ∧ ∃ p',
      Park.generate_attractions (Park.init [Scenario.express; Cases.rapids] [] 0) = Ok p'
      ∧ Park.attraction_list p' ≡ₚ [Scenario.express; Cases.rapids]
      ∧ Sorted (fun a b => Attraction.c_popularity a ≤ Attraction.c_popularity b)
          (Park.attraction_list p')
      ∧ dict_keys (Park.attractions p') = Attraction.c_name <$> Park.attraction_list p'
      ∧ ∀ c, c ∈ [Scenario.express; Cases.rapids] →
          dict_get (Attraction.c_name c) (Park.attractions p')
          = Some (Attraction.initialize_attraction c).
Proof.
  split; [reflexivity|].
  destruct (generate_attractions_by_popularity
              (Park.init [Scenario.express; Cases.rapids] [] 0) eq_refl) as [Hok _].
  apply Hok.
  - repeat (constructor; [simpl; lia|]). constructor.
  - simpl. apply NoDup_cons. split; [|apply NoDup_singleton].
    intros Hin%list_elem_of_singleton. discriminate.
Defined.

Lemma schedule_covers_the_opening_minutes_witness :
  ∃ p' s',
    Park.generate_arrival_schedule (H := Scenario.source 0 [2; 1]) Scenario.one_hour 3 false
      (Park.init [] [] 0) (Scenario.start 0 [2; 1] 0) = Ok (p', s')
    ∧ dict_keys (Park.schedule p') = seqZ 0 60
    ∧ ∀ fuel q t,
        Park.schedule q = Park.schedule p' →
        ¬ (0 ≤ Park.time q < 60) →
        Park.step (H := Scenario.source 0 [2; 1]) fuel q t = Raise KeyError.
Proof.
  destruct (Park.generate_arrival_schedule (H := Scenario.source 0 [2; 1]) Scenario.one_hour
              3 false (Park.init [] [] 0) (Scenario.start 0 [2; 1] 0))
    as [[p' s']|e] eqn:E; [|vm_compute in E; discriminate].
  exists p', s'. split; [reflexivity|].
  refine (schedule_covers_the_opening_minutes (H := Scenario.source 0 [2; 1]) _
            Scenario.one_hour 3 false (Park.init [] [] 0) p' (Scenario.start 0 [2; 1] 0) s'
            eq_refl E).
  intros seed lam. simpl. destruct (seed =? 0); reflexivity.
Defined.

Lemma step_is_one_minute_witness :
  ∃ p' s',
    Park.step (H := Scenario.source 0 [6]) 100 Cases.opening (Scenario.start 0 [6] 1)
    = Ok (p', s')
    ∧ Park.time p' = 1
    ∧ (∃ arrivals, dict_get 0 (Park.schedule Cases.opening) = Some arrivals
                   ∧ Park.arrival_index p' = 0 + arrivals)
    ∧ layout p' = layout Cases.opening
    ∧ Park.total_active_agents (Park.hist p') !! 0
      = Some (len (filter (fun a => Agent.within_park (Agent.st a) = true)
                     (Park.agents p'))).
Proof.
  destruct (Park.step (H := Scenario.source 0 [6]) 100 Cases.opening
              (Scenario.start 0 [6] 1))
    as [[p' s']|e] eqn:E; [|vm_compute in E; discriminate].
  exists p', s'. split; [reflexivity|].
  exact (step_is_one_minute (H := Scenario.source 0 [6]) 100 Cases.opening p'
           (Scenario.start 0 [6] 1) s' E).
Defined.

Lemma park_step_after_close_budget_zero_witness :
  Park.park_close Cases.after_hours = Some 60
  ∧ 60 ≤ Park.time Cases.after_hours
  ∧ ∃ p' s',
      Park.step (H := Scenario.source 0 []) 100 Cases.after_hours (Scenario.start 0 [] 0)
      = Ok (p', s')
      ∧ ∀ name x, dict_get name (Park.attractions p') = Some x →
          Attraction.expedited_queue x = true → Attraction.exp_queue_passes x = 0%Q.
Proof.
  split; [reflexivity|]. split; [vm_compute; discriminate|].
  destruct (Park.step (H := Scenario.source 0 []) 100 Cases.after_hours
              (Scenario.start 0 [] 0)) as [[p' s']|e] eqn:E; [|vm_compute in E; discriminate].
  exists p', s'. split; [reflexivity|].
  refine (park_step_after_close_budget_zero (H := Scenario.source 0 []) 100
            Cases.after_hours p' (Scenario.start 0 [] 0) s' 60 eq_refl _ E).
  vm_compute. discriminate.
Defined.
